(** * Biz-analytics backend (server.js): a shallow embedding and its properties

    The file follows server.js top to bottom: JavaScript values and the
    coercions the handlers rely on, the filter builder [buildFilter], the
    query executor [queryDatabase] over an explicit world (connection
    attempts and an event trace), the endpoint handlers, and the meaning of
    the SQL statements the handlers send.

    What lies outside server.js is a parameter: the text-reading built-ins
    of the JavaScript runtime ([JsRuntime]), the data store as the program
    sees it ([Exec.engine]), its comparison of text ([Sql.Collation]) and
    the driver's rendering of decimal values ([Sql.Driver]).  [Sql.run]
    gives the statements their meaning over a table, and [Decimal] reads
    numbers as ECMAScript does.  Numbers are binary64 values, held as the
    rationals they denote: arithmetic rounds to nearest, ties to even
    ([Binary64.round]). *)

From Stdlib Require Import String Ascii List ZArith QArith Qround Qpower Qabs.
From Stdlib Require Import Lia Lqa Bool DecimalString.
From Stdlib Require Import Sorting.Sorted Sorting.Permutation Structures.OrderedTypeEx.
From stdpp Require Import base option list gmap strings fin_maps.

Open Scope string_scope.

(** ** JavaScript values *)

(** The values that flow through the handlers: what the query-string parser
    puts in [req.query] (strings, arrays, nested objects), what the MySQL
    driver puts in a row (numbers, strings, null) and what the handlers put
    in a response body.  A number is NaN, an infinity or a finite binary64
    value, held as the rational it denotes; zero carries no sign (the two
    zeros of binary64 are sent alike by [res.json]). *)
#[warnings="-register-all"]
Inductive jsval : Type :=
| JUndefined
| JNull
| JNaN
| JInf (negative : bool)
| JNum (q : Q)
| JStr (s : string)
| JArr (l : list jsval)
| JObj (l : list (string * jsval)).

(** A JavaScript object used as a string-keyed map ([req.query], a result
    row, a response body). *)
Abbreviation jsobject := (gmap string jsval).

(** [o.k]: the property, or [undefined] when the object has none. *)
Definition prop (o : jsobject) (k : string) : jsval :=
  match o !! k with
  | Some v => v
  | None => JUndefined
  end.

(** ToBoolean. *)
Definition truthy (v : jsval) : bool :=
  match v with
  | JUndefined | JNull | JNaN => false
  | JInf _ => true
  | JNum q => negb (Qeq_bool q 0%Q)
  | JStr s => negb (String.eqb s "")
  | JArr _ | JObj _ => true
  end.

(** [v !== s] for a string literal [s]: only the string [s] itself is
    strictly equal to it. *)
Definition strictNeqStr (v : jsval) (s : string) : bool :=
  match v with
  | JStr t => negb (String.eqb t s)
  | _ => true
  end.

(** ** Filter builder (server.js, buildFilter) *)

Module Filter.

(** The object [{ whereClause, params }] that [buildFilter] returns. *)
Record t : Type := mk { whereClause : string; params : list jsval }.

(** The guard of each of the four [if] statements:
    [query.k && query.k !== 'All']. *)
Definition selected (v : jsval) : bool :=
  truthy v && strictNeqStr v "All".

(** One [if] statement: both arrays grow together, or neither does. *)
Definition pushIf (query : jsobject) (key fragment : string)
    (acc : list string * list jsval) : list string * list jsval :=
  if selected (prop query key)
  then ((fst acc ++ [fragment])%list, (snd acc ++ [prop query key])%list)
  else acc.

(** The arrays [filters] and [params] after the four [if] statements. *)
Definition arrays (query : jsobject) : list string * list jsval :=
  pushIf query "category" "product_category = ?"
    (pushIf query "channel" "sales_channel = ?"
      (pushIf query "product" "product_name = ?"
        (pushIf query "region" "region = ?" ([], [])))).

(** [filters.join(' AND ')]. *)
Definition join (sep : string) (l : list string) : string := String.concat sep l.

Definition buildFilter (query : jsobject) : t :=
  let (filters, params) := arrays query in
  {| whereClause :=
       if (0 <? length filters)%nat
       then "WHERE " +:+ join " AND " filters
       else "";
     params := params |}.

(** The recognized parameters with their predicate fragments, in the order
    of the four [if] statements. *)
Definition recognized : list (string * string) :=
  [ ("region", "region = ?"); ("product", "product_name = ?");
    ("channel", "sales_channel = ?"); ("category", "product_category = ?") ].

(** The clause for the parameters that contribute. *)
Definition clause (sel : list (string * string)) : string :=
  match sel with
  | [] => ""
  | _ :: _ => "WHERE " +:+ join " AND " (List.map snd sel)
  end.

(** The ways of choosing among parameters, each choice in their order. *)
Fixpoint choices (l : list (string * string)) : list (list (string * string)) :=
  match l with
  | [] => [[]]
  | x :: l' => (List.map (cons x) (choices l') ++ choices l')%list
  end.

(** The recognized parameters that pass their guard. *)
Definition active (query : jsobject) : list (string * string) :=
  List.filter (fun kf => selected (prop query (fst kf))) recognized.

(** What the claim's wording selects: the recognized parameters that are
    present in the query object and whose value is not ['All']. *)
Definition presentNotAll (query : jsobject) : list (string * string) :=
  List.filter
    (fun kf => match query !! fst kf with
               | Some v => strictNeqStr v "All"
               | None => false
               end)
    recognized.

Definition valuesOf (query : jsobject) (sel : list (string * string)) : list jsval :=
  List.map (fun kf => prop query (fst kf)) sel.

Definition fragmentsOf (sel : list (string * string)) : list string :=
  List.map snd sel.

(** Two query objects agree on the recognized parameters. *)
Definition agree (q1 q2 : jsobject) : Prop :=
  forall k, In k (List.map fst recognized) -> q1 !! k = q2 !! k.

(** Number of occurrences of a character in a string. *)
Fixpoint countChar (c : ascii) (s : string) : nat :=
  match s with
  | EmptyString => 0
  | String a s' => (if Ascii.eqb a c then 1 else 0) + countChar c s'
  end.

Definition placeholders (s : string) : nat := countChar "?" s.

(** The shape of the pair that [buildFilter] returns, for a given reading
    [sel] of which parameters contribute: as many placeholders as
    parameters, the contributing values in the fixed order, their
    fragments joined with [" AND "] behind ["WHERE "], or no clause. *)
Definition wellFormed (sel : jsobject -> list (string * string)) (query : jsobject) : Prop :=
  let f := buildFilter query in
  placeholders (whereClause f) = length (params f)
  /\ params f = valuesOf query (sel query)
  /\ whereClause f =
       match sel query with
       | [] => ""
       | _ :: _ => "WHERE " +:+ join " AND " (fragmentsOf (sel query))
       end
  /\ (whereClause f = "" \/ String.prefix "WHERE " (whereClause f) = true).

End Filter.

(** ** Numbers and the runtime's conversions *)

(** A JavaScript number: NaN, an infinity, or a finite value. *)
Inductive number : Type :=
| NaN
| Inf (negative : bool)
| Num (q : Q).

Definition ofNumber (n : number) : jsval :=
  match n with
  | NaN => JNaN
  | Inf s => JInf s
  | Num q => JNum q
  end.

(** *** Binary64 arithmetic *)

Module Binary64.
Local Open Scope Q_scope.

(** The integer nearest to a rational, the even one of two that are
    equally near. *)
Definition nearestEven (x : Q) : Z :=
  let f := Qfloor x in
  match Qcompare (x - inject_Z f) (1 # 2) with
  | Lt => f
  | Gt => (f + 1)%Z
  | Eq => if Z.even f then f else (f + 1)%Z
  end.

(** The exponent [e] of the binary64 values around a positive rational
    [a]: [2^52 <= a / 2^e < 2^53], and no less than [-1074], the exponent
    of the subnormal values. *)
Definition exponent (a : Q) : Z :=
  let e0 := (Z.log2 (Qnum a) - Z.log2 (Zpos (Qden a)) - 52)%Z in
  let e1 := if Qle_bool (2 ^ 52) (a / 2 ^ e0) then e0 else (e0 - 1)%Z in
  Z.max e1 (-1074).

(** The multiple of [2^e] nearest to a positive rational. *)
Definition grid (a : Q) : Q :=
  let e := exponent a in
  (inject_Z (nearestEven (a / 2 ^ e)) * 2 ^ e)%Q.

(** The binary64 value nearest to a positive rational; none when it is
    beyond the largest one. *)
Definition nearest (a : Q) : option Q :=
  if Qle_bool (2 ^ 1024) (grid a) then None else Some (Qred (grid a)).

(** Rounding to binary64: to nearest, ties to even, overflow to an
    infinity. *)
Definition round (q : Q) : number :=
  match Qcompare q 0 with
  | Eq => Num 0
  | Gt => match nearest q with
          | Some v => Num v
          | None => Inf false
          end
  | Lt => match nearest (- q) with
          | Some v => Num (Qred (- v))
          | None => Inf true
          end
  end.

Definition isNegative (q : Q) : bool := negb (Qle_bool 0 q).

(** [x - y] *)
Definition sub (x y : number) : number :=
  match x, y with
  | NaN, _ | _, NaN => NaN
  | Inf s, Inf t => if Bool.eqb s t then NaN else Inf s
  | Inf s, Num _ => Inf s
  | Num _, Inf t => Inf (negb t)
  | Num a, Num b => round (a - b)
  end.

(** [x / y]; zero carrying no sign, a number divided by zero takes the
    sign of the dividend. *)
Definition div (x y : number) : number :=
  match x, y with
  | NaN, _ | _, NaN => NaN
  | Inf _, Inf _ => NaN
  | Inf s, Num b => Inf (xorb s (isNegative b))
  | Num _, Inf _ => Num 0
  | Num a, Num b =>
      if Qeq_bool b 0
      then (if Qeq_bool a 0 then NaN else Inf (isNegative a))
      else round (a / b)
  end.

(** [x * y] *)
Definition mul (x y : number) : number :=
  match x, y with
  | NaN, _ | _, NaN => NaN
  | Inf s, Inf t => Inf (xorb s t)
  | Inf s, Num b => if Qeq_bool b 0 then NaN else Inf (xorb s (isNegative b))
  | Num a, Inf t => if Qeq_bool a 0 then NaN else Inf (xorb (isNegative a) t)
  | Num a, Num b => round (a * b)
  end.

(** [x > y]; false when either is NaN. *)
Definition gt (x y : number) : bool :=
  match x, y with
  | NaN, _ | _, NaN => false
  | Inf s, Inf t => negb s && t
  | Inf s, Num _ => negb s
  | Num _, Inf t => t
  | Num a, Num b => negb (Qle_bool a b)
  end.

(** The order of numbers; NaN compares with nothing. *)
Definition le (x y : number) : Prop :=
  match x, y with
  | NaN, _ | _, NaN => False
  | Inf true, _ => True
  | _, Inf false => True
  | Num a, Num b => (a <= b)%Q
  | _, _ => False
  end.

End Binary64.

(** The conversions of the JavaScript runtime that read text: they are
    built-ins, not code of the repository, and the handlers are modelled
    over any implementation of them. *)
Class JsRuntime : Type := {
  (** StringToNumber, the conversion behind [-], [/], [*] and [>]. *)
  stringToNumber : string -> number;
  (** [parseFloat] of a string. *)
  parseFloatString : string -> number;
  (** ToString of an array or an object. *)
  objectToString : jsval -> string;
  (** The global [parseInt]. *)
  parseInt : jsval -> jsval
}.

Module Js.
Section Coercions.
Context {rt : JsRuntime}.

(** ToNumber. *)
Definition toNumber (v : jsval) : number :=
  match v with
  | JUndefined => NaN
  | JNull => Num 0%Q
  | JNaN => NaN
  | JInf s => Inf s
  | JNum q => Num q
  | JStr s => stringToNumber s
  | JArr _ | JObj _ => stringToNumber (objectToString v)
  end.

(** The global [parseFloat]: its argument is converted to a string and the
    longest numeric prefix is read; a number reads back as itself,
    [undefined] and [null] read as NaN. *)
Definition parseFloat (v : jsval) : jsval :=
  match v with
  | JUndefined | JNull | JNaN => JNaN
  | JInf s => JInf s
  | JNum q => JNum q
  | JStr s => ofNumber (parseFloatString s)
  | JArr _ | JObj _ => ofNumber (parseFloatString (objectToString v))
  end.

(** [a - b] *)
Definition sub (a b : jsval) : number :=
  Binary64.sub (toNumber a) (toNumber b).

(** [a / b], the dividend already a number. *)
Definition div (a : number) (b : jsval) : number :=
  Binary64.div a (toNumber b).

(** [a * k] for a numeric literal [k]. *)
Definition mulLit (a : number) (k : Q) : number :=
  Binary64.mul a (Num k).

(** [a > k] for a numeric literal [k]; false when [a] converts to NaN. *)
Definition gtLit (a : jsval) (k : Q) : bool :=
  Binary64.gt (toNumber a) (Num k).

(** Rounding to one decimal, halves away from zero: the value that
    [x.toFixed(1)] prints, from the exact value of [x]. *)
Definition round1 (x : Q) : Q :=
  if Qle_bool 0%Q x
  then Qred (inject_Z (Qfloor (x * 10 + (1 # 2))) / 10)%Q
  else Qred (- (inject_Z (Qfloor ((- x) * 10 + (1 # 2))) / 10))%Q.

(** [parseFloat(x.toFixed(1))]: the number is printed with one decimal and
    the text is read back, to the nearest binary64 value.  NaN and the
    infinities print as their names and read back as themselves; from
    [10^21] on, [toFixed] prints as ToString does, and that text reads
    back as the number itself. *)
Definition parseFloatToFixed1 (x : number) : jsval :=
  match x with
  | NaN => JNaN
  | Inf s => JInf s
  | Num q =>
      if Qle_bool (10 ^ 21)%Q (Qabs q) then JNum q
      else ofNumber (Binary64.round (round1 q))
  end.

(** [a || k] for a numeric literal [k]. *)
Definition orLit (a : jsval) (k : Q) : jsval :=
  if truthy a then a else JNum k.

End Coercions.
End Js.

(** ** Execution model: state, exceptions, the data store *)

Module Exec.

(** A thrown [Error]: the handlers read nothing of it but [message]. *)
Record error : Type := Error { message : string }.

(** How an awaited promise settles. *)
Inductive outcome (A : Type) : Type :=
| Resolved (a : A)
| Rejected (e : error).
Arguments Resolved {A} a.
Arguments Rejected {A} e.

(** A result row of the driver: an object keyed by column alias. *)
Abbreviation row := jsobject.

(** The data store as the program sees it.  [connect n] is how the [n]-th
    call of [mysql.createConnection] settles (counting from 0 within the
    request); the connection it yields is named [n].  [execute c sql ps] is
    how [connection.execute(sql, ps)] settles on connection [c]. *)
Record engine : Type := {
  connect : nat -> outcome unit;
  execute : nat -> string -> list jsval -> outcome (list row)
}.

(** What a request does that is visible outside the handler. *)
Inductive event : Type :=
| Acquired (c : nat)
| AcquireFailed (e : error)
| ConsoleLog (args : list string)
| Executed (c : nat) (sql : string) (ps : list jsval)
| ConsoleError (args : list string)
| Ended (c : nat)
| Responded (status : nat) (body : jsobject).

(** The world of one request: how many connections it has asked for, and
    its events, oldest first. *)
Record world : Type := World { attempts : nat; trace : list event }.

Definition start : world := {| attempts := 0; trace := [] |}.

Definition emit (e : event) (w : world) : world :=
  {| attempts := attempts w; trace := (trace w ++ [e])%list |}.

(** Computations over a state [S] that return or throw. *)
Definition M (S A : Type) : Type := S -> S * (error + A).

Definition ret {S A} (a : A) : M S A := fun s => (s, inr a).

Definition throw {S A} (e : error) : M S A := fun s => (s, inl e).

Definition bind {S A B} (m : M S A) (k : A -> M S B) : M S B :=
  fun s =>
    match m s with
    | (s', inr a) => k a s'
    | (s', inl e) => (s', inl e)
    end.

(** [try { m } catch (error) { h }] *)
Definition tryCatch {S A} (m : M S A) (h : error -> M S A) : M S A :=
  fun s =>
    match m s with
    | (s', inr a) => (s', inr a)
    | (s', inl e) => h e s'
    end.

(** [try { m } finally { f }]: [f] runs however [m] completes, then the
    completion of [m] goes on, unless [f] throws. *)
Definition tryFinally {S A} (m : M S A) (f : M S unit) : M S A :=
  fun s =>
    match m s with
    | (s', r) =>
        match f s' with
        | (s'', inr _) => (s'', r)
        | (s'', inl e) => (s'', inl e)
        end
    end.

#[export] Instance M_ret {S} : MRet (M S) := fun A => @ret S A.
#[export] Instance M_bind {S} : MBind (M S) := fun A B k m => @bind S A B m k.

Section Database.
Variable db : engine.

(** [await mysql.createConnection(dbConfig)] *)
Definition createConnection : M world nat :=
  fun w =>
    let n := attempts w in
    let w' := {| attempts := S n; trace := trace w |} in
    match connect db n with
    | Resolved _ => (emit (Acquired n) w', inr n)
    | Rejected e => (emit (AcquireFailed e) w', inl e)
    end.

(** [await connection.execute(sql, params)], the rows of the result. *)
Definition connectionExecute (c : nat) (sql : string) (ps : list jsval)
  : M world (list row) :=
  fun w =>
    let w' := emit (Executed c sql ps) w in
    match execute db c sql ps with
    | Resolved rows => (w', inr rows)
    | Rejected e => (w', inl e)
    end.

Definition connectionEnd (c : nat) : M world unit :=
  fun w => (emit (Ended c) w, inr tt).

Definition consoleLog (args : list string) : M world unit :=
  fun w => (emit (ConsoleLog args) w, inr tt).

Definition consoleError (args : list string) : M world unit :=
  fun w => (emit (ConsoleError args) w, inr tt).

(** The local variable [connection] of [queryDatabase], next to the world. *)
Record frame : Type := Frame { connection : option nat; outer : world }.

Definition lift {A} (m : M world A) : M frame A :=
  fun f =>
    match m (outer f) with
    | (w, r) => ({| connection := connection f; outer := w |}, r)
    end.

Definition setConnection (c : nat) : M frame unit :=
  fun f => ({| connection := Some c; outer := outer f |}, inr tt).

Definition getConnection : M frame (option nat) :=
  fun f => (f, inr (connection f)).

(** [s.replace(/\n/g, ' ')] *)
Fixpoint replaceNewlines (s : string) : string :=
  match s with
  | EmptyString => EmptyString
  | String a s' =>
      String (if Ascii.eqb a "010"%char then " "%char else a) (replaceNewlines s')
  end.

(** The text logged before a statement runs. *)
Definition preview (sql : string) : string :=
  replaceNewlines (String.substring 0 80 sql) +:+ "...".

Definition failedToFetch : string :=
  "Failed to fetch data from MySQL. Check database connection and SQL syntax.".

(** The body of [queryDatabase], over its local variable. *)
Definition queryDatabaseBody (sql : string) (ps : list jsval) : M frame (list row) :=
  tryFinally
    (tryCatch
       (c ← lift createConnection;
        setConnection c;;
        lift (consoleLog ["Executing SQL:"; preview sql]);;
        rows ← lift (connectionExecute c sql ps);
        ret rows)
       (fun error =>
          lift (consoleError ["CRITICAL: Database Query Error:"; message error]);;
          throw (Error failedToFetch)))
    (c ← getConnection;
     match c with
     | Some c => lift (connectionEnd c)
     | None => ret tt
     end).

(** [queryDatabase(sql, params)]: [connection] starts undefined and goes
    away with the call. *)
Definition queryDatabase (sql : string) (ps : list jsval) : M world (list row) :=
  fun w =>
    match queryDatabaseBody sql ps {| connection := None; outer := w |} with
    | (f, r) => (outer f, r)
    end.

End Database.

(** A data store that accepts every connection and answers every statement
    with the same rows. *)
Definition available (rows : list row) : engine :=
  {| connect := fun _ => Resolved tt; execute := fun _ _ _ => Resolved rows |}.

(** A data store that refuses every connection. *)
Definition unreachable (e : error) : engine :=
  {| connect := fun _ => Rejected e; execute := fun _ _ _ => Rejected e |}.

(** Every connection is accepted and every statement answered. *)
Definition healthy (db : engine) : Prop :=
  forall n, connect db n = Resolved tt
            /\ forall sql ps, exists rows, execute db n sql ps = Resolved rows.

(** Connections acquired, and connections released, in a trace. *)
Definition isAcquired (e : event) : bool :=
  match e with Acquired _ => true | _ => false end.

Definition isEnded (e : event) : bool :=
  match e with Ended _ => true | _ => false end.

Definition acquired (t : list event) : nat := length (List.filter isAcquired t).

Definition released (t : list event) : nat := length (List.filter isEnded t).

Definition isResponded (e : event) : bool :=
  match e with Responded _ _ => true | _ => false end.

(** Responses sent in a trace. *)
Definition responses (t : list event) : nat := length (List.filter isResponded t).

(** How a request may use connections: it acquires one only when it holds
    none, executes statements only on the one it holds, ends only that one,
    responds only when it holds none, and holds none at its end.  [held] is
    the connection held before the events [t]. *)
Fixpoint disciplined (held : option nat) (t : list event) : bool :=
  match t with
  | [] => match held with None => true | Some _ => false end
  | Acquired c :: t' =>
      match held with
      | None => disciplined (Some c) t'
      | Some _ => false
      end
  | Executed c _ _ :: t' =>
      match held with
      | Some c' => Nat.eqb c c' && disciplined held t'
      | None => false
      end
  | Ended c :: t' =>
      match held with
      | Some c' => Nat.eqb c c' && disciplined None t'
      | None => false
      end
  | Responded _ _ :: t' =>
      match held with
      | None => disciplined None t'
      | Some _ => false
      end
  | (AcquireFailed _ | ConsoleLog _ | ConsoleError _) :: t' => disciplined held t'
  end.

End Exec.

(** ** SQL statements sent by the handlers *)

Module Statements.

Definition nl : string := String "010"%char EmptyString.

(** A template literal, line by line. *)
Definition lines (l : list string) : string := String.concat nl l.

Definition kpisSql (whereClause : string) : string :=
  lines [ "";
          "            SELECT ";
          "                SUM(revenue) AS revenue, ";
          "                COUNT(order_id) AS orders, ";
          "                COUNT(DISTINCT customer_id) AS customers";
          "            FROM sales_data";
          "            " +:+ whereClause +:+ ";";
          "        " ].

Definition growthSql (whereClause : string) : string :=
  lines [ "";
          "            SELECT ";
          "                DATE_FORMAT(order_date, '%Y-%m') AS month_year, ";
          "                SUM(revenue) AS monthly_revenue";
          "            FROM sales_data";
          "            " +:+ whereClause;
          "            GROUP BY month_year";
          "            ORDER BY month_year ASC;";
          "        " ].

Definition salesSql (whereClause : string) : string :=
  lines [ "";
          "            SELECT ";
          "                DATE_FORMAT(order_date, '%b') AS label, ";
          "                SUM(revenue) AS value,";
          "                DATE_FORMAT(order_date, '%Y-%m') AS sort_order";
          "            FROM sales_data";
          "            " +:+ whereClause;
          "            GROUP BY label, sort_order";
          "            ORDER BY sort_order;";
          "        " ].

Definition productsSql (whereClause : string) : string :=
  lines [ "";
          "            SELECT ";
          "                product_name AS label, ";
          "                SUM(revenue) AS value";
          "            FROM sales_data";
          "            " +:+ whereClause;
          "            GROUP BY product_name";
          "            ORDER BY value DESC";
          "            LIMIT 5;";
          "        " ].

Definition regionsSql (whereClause : string) : string :=
  lines [ "";
          "            SELECT ";
          "                region AS label, ";
          "                SUM(revenue) AS value";
          "            FROM sales_data";
          "            " +:+ whereClause;
          "            GROUP BY region;";
          "        " ].

Definition channelsSql (whereClause : string) : string :=
  lines [ "";
          "            SELECT ";
          "                sales_channel AS label, ";
          "                SUM(revenue) AS value";
          "            FROM sales_data";
          "            " +:+ whereClause;
          "            GROUP BY sales_channel";
          "            ORDER BY value DESC;";
          "        " ].

Definition tiersSql (whereClause : string) : string :=
  lines [ "";
          "            SELECT ";
          "                customer_tier AS label, ";
          "                SUM(revenue) AS value";
          "            FROM sales_data";
          "            " +:+ whereClause;
          "            GROUP BY customer_tier";
          "            ORDER BY FIELD(customer_tier, 'Platinum', 'Gold', 'Silver', 'Bronze');";
          "        " ].

Definition distinctSql (column : string) : string :=
  "SELECT DISTINCT " +:+ column +:+ " FROM sales_data ORDER BY " +:+ column +:+ ";".

(** The statements that take the clause of [buildFilter]. *)
Definition templates : list (string -> string) :=
  [ kpisSql; growthSql; salesSql; productsSql; regionsSql; channelsSql; tiersSql ].

(** The columns of the metadata statements. *)
Definition columns : list string :=
  [ "region"; "product_name"; "sales_channel"; "product_category" ].

End Statements.

(** ** Endpoint handlers *)

Module Handlers.
Import Exec Statements.

Section Endpoints.
Context {rt : JsRuntime}.
Variable db : engine.

(** [res.json(body)] *)
Definition resJson (body : jsobject) : M world unit :=
  fun w => (emit (Responded 200 body) w, inr tt).

(** [res.status(500).json({ message: error.message })] *)
Definition resError (e : error) : M world unit :=
  fun w => (emit (Responded 500 {[ "message" := JStr (message e) ]}) w, inr tt).

(** The growth figure of [/api/kpis], from the rows of the second query. *)
Definition growthOf (growthResults : list row) : jsval :=
  if (2 <=? length growthResults)%nat then
    match growthResults !! 0%nat, growthResults !! (length growthResults - 1)%nat with
    | Some r0, Some rl =>
        let firstMonthRev := prop r0 "monthly_revenue" in
        let lastMonthRev := prop rl "monthly_revenue" in
        if Js.gtLit firstMonthRev 0
        then Js.parseFloatToFixed1
               (Js.mulLit (Js.div (Js.sub lastMonthRev firstMonthRev) firstMonthRev) 100)
        else JNum 0
    | _, _ => JNum 0
    end
  else JNum 0.

(** The growth figure as the handler's comment has it: the percentage
    change from the first month's revenue to the last month's, computed in
    binary64 and sent with one decimal; 0 with fewer than two months, or
    when the first month's revenue is not positive. *)
Definition percentChange (first last : number) : number :=
  Binary64.mul (Binary64.div (Binary64.sub last first) first) (Num 100).

Definition firstToLast (revenues : list jsval) : jsval :=
  match revenues with
  | first :: _ :: _ =>
      if Binary64.gt (Js.toNumber first) (Num 0)
      then Js.parseFloatToFixed1
             (percentChange (Js.toNumber first)
                (Js.toNumber (List.last revenues JUndefined)))
      else JNum 0
  | _ => JNum 0
  end.

(** The claim's reading of the growth figure: the percentage change from
    some month to the month right after it, to one decimal, however it is
    rounded. *)
Definition monthOverMonth (growthResults : list row) (growth : jsval) : Prop :=
  exists (i : nat) (r r' : row) (a b g : Q),
    growthResults !! i = Some r
    /\ growthResults !! S i = Some r'
    /\ Js.toNumber (prop r "monthly_revenue") = Num a
    /\ Js.toNumber (prop r' "monthly_revenue") = Num b
    /\ growth = JNum g
    /\ (Qabs (g - (b - a) / a * 100) <= 1 # 10)%Q.

(** The object literal of the [/api/kpis] response: the row of totals,
    then [growth], then the three converted totals over the row's own. *)
Definition kpisObject (kpis : row) (growth : jsval) : jsobject :=
  <["orders" := parseInt (Js.orLit (prop kpis "orders") 0)]>
    (<["customers" := parseInt (Js.orLit (prop kpis "customers") 0)]>
      (<["revenue" := Js.parseFloat (Js.orLit (prop kpis "revenue") 0)]>
        (<["growth" := growth]> kpis))).

(** Building it reads properties of [kpis], which throws when [kpis] is
    undefined (no row came back). *)
Definition kpisBody (kpis : option row) (growth : jsval) : M world jsobject :=
  match kpis with
  | None =>
      throw (Error "Cannot read properties of undefined (reading 'revenue')")
  | Some k => ret (kpisObject k growth)
  end.

Definition kpisHandler (query : jsobject) : M world unit :=
  tryCatch
    (let f := Filter.buildFilter query in
     results ← queryDatabase db (kpisSql (Filter.whereClause f)) (Filter.params f);
     let kpis := results !! 0%nat in
     growthResults ← queryDatabase db (growthSql (Filter.whereClause f)) (Filter.params f);
     let growth := growthOf growthResults in
     body ← kpisBody kpis growth;
     resJson body)
    resError.

(** The reshaping shared by the five chart handlers. *)
Definition chartBody (results : list row) : jsobject :=
  let labels := List.map (fun row => prop row "label") results in
  let data := List.map (fun row => Js.parseFloat (prop row "value")) results in
  {[ "labels" := JArr labels; "data" := JArr data ]}.

(** The five chart handlers differ in their statement only. *)
Definition chartHandler (sql : string -> string) (query : jsobject) : M world unit :=
  tryCatch
    (let f := Filter.buildFilter query in
     results ← queryDatabase db (sql (Filter.whereClause f)) (Filter.params f);
     resJson (chartBody results))
    resError.

Definition salesHandler : jsobject -> M world unit := chartHandler salesSql.
Definition productsHandler : jsobject -> M world unit := chartHandler productsSql.
Definition regionsHandler : jsobject -> M world unit := chartHandler regionsSql.
Definition channelsHandler : jsobject -> M world unit := chartHandler channelsSql.
Definition tiersHandler : jsobject -> M world unit := chartHandler tiersSql.

(** [rows.map(r => r.column)] *)
Definition column (c : string) (rows : list row) : jsval :=
  JArr (List.map (fun r => prop r c) rows).

(** [/api/metadata]; [queryDatabase] is called with its default [params]. *)
Definition metadataHandler (query : jsobject) : M world unit :=
  tryCatch
    (regions ← queryDatabase db (distinctSql "region") [];
     products ← queryDatabase db (distinctSql "product_name") [];
     channels ← queryDatabase db (distinctSql "sales_channel") [];
     categories ← queryDatabase db (distinctSql "product_category") [];
     resJson {[ "regions" := column "region" regions;
                "products" := column "product_name" products;
                "channels" := column "sales_channel" channels;
                "categories" := column "product_category" categories ]})
    resError.

(** The routes of the application. *)
Inductive chart : Type :=
| Sales | Products | Regions | Channels | Tiers.

Inductive endpoint : Type :=
| Kpis
| Chart (c : chart)
| Metadata.

Definition handler (e : endpoint) : jsobject -> M world unit :=
  match e with
  | Kpis => kpisHandler
  | Chart Sales => salesHandler
  | Chart Products => productsHandler
  | Chart Regions => regionsHandler
  | Chart Channels => channelsHandler
  | Chart Tiers => tiersHandler
  | Metadata => metadataHandler
  end.

(** The statement of a chart endpoint. *)
Definition chartSql (c : chart) : string -> string :=
  match c with
  | Sales => salesSql
  | Products => productsSql
  | Regions => regionsSql
  | Channels => channelsSql
  | Tiers => tiersSql
  end.

(** The calls of [queryDatabase] in the text of a handler. *)
Definition calls (e : endpoint) : nat :=
  match e with
  | Kpis => 2
  | Chart _ => 1
  | Metadata => 4
  end.

(** The statements in the text of a handler, each with the parameters it
    is executed with. *)
Definition statementsOf (e : endpoint) (query : jsobject) : list (string * list jsval) :=
  let f := Filter.buildFilter query in
  match e with
  | Kpis =>
      [ (kpisSql (Filter.whereClause f), Filter.params f);
        (growthSql (Filter.whereClause f), Filter.params f) ]
  | Chart c => [ (chartSql c (Filter.whereClause f), Filter.params f) ]
  | Metadata =>
      [ (distinctSql "region", []); (distinctSql "product_name", []);
        (distinctSql "sales_channel", []); (distinctSql "product_category", []) ]
  end.

(** The text of the 500 response when reading the totals fails. *)
Definition noTotals : string :=
  "Cannot read properties of undefined (reading 'revenue')".

(** Serving one request: the handler runs from a fresh world. *)
Definition serve (e : endpoint) (query : jsobject) : world :=
  fst (handler e query start).

(** The claim's reading of connection use: serving the request acquires
    exactly one connection. *)
Definition oneConnection (e : endpoint) (query : jsobject) : Prop :=
  acquired (trace (serve e query)) = 1%nat.

(** The response of a request: the last body passed to [res.json]. *)
Definition response (t : list event) : option (nat * jsobject) :=
  List.fold_left
    (fun acc ev => match ev with Responded st b => Some (st, b) | _ => acc end)
    t None.

End Endpoints.
End Handlers.

(** ** Meaning of the statements over the sales table *)

(** The data store is not part of server.js: the program hands it the text
    of a statement and bound parameters, and gets rows back.  What follows
    reads that text and gives it the meaning that MySQL documents for it,
    for the forms of statement that server.js sends: one table, tests of a
    column against a parameter joined by [AND], [SUM], [COUNT],
    [DATE_FORMAT] and [FIELD], [DISTINCT], [GROUP BY], [ORDER BY] and
    [LIMIT].  Any other text is refused.  Where MySQL leaves a choice open
    (the order of rows that compare alike, the row that stands for a
    group), one choice is made; no property below depends on it. *)

(** Sorting, duplicate removal and grouping, as a data store does them. *)
Module Relational.
Section Operators.
Context {A : Type}.

(** [ORDER BY]: insertion in order; rows that compare alike keep the order
    they had. *)
Fixpoint insertBy (le : A -> A -> bool) (x : A) (l : list A) : list A :=
  match l with
  | [] => [x]
  | y :: l' => if le x y then x :: y :: l' else y :: insertBy le x l'
  end.

Definition sortBy (le : A -> A -> bool) (l : list A) : list A :=
  List.fold_right (insertBy le) [] l.

(** [DISTINCT]: of rows that are the same, one is kept. *)
Fixpoint dedupeBy (eq : A -> A -> bool) (l : list A) : list A :=
  match l with
  | [] => []
  | x :: l' =>
      let d := dedupeBy eq l' in
      if existsb (eq x) d then d else x :: d
  end.

(** [GROUP BY]: a row joins the group whose first row it is the same as,
    or starts a group of its own. *)
Fixpoint addRow (eq : A -> A -> bool) (x : A) (groups : list (list A)) : list (list A) :=
  match groups with
  | [] => [[x]]
  | g :: groups' =>
      match g with
      | y :: _ => if eq x y then (g ++ [x])%list :: groups' else g :: addRow eq x groups'
      | [] => g :: addRow eq x groups'
      end
  end.

Definition groupBy (eq : A -> A -> bool) (l : list A) : list (list A) :=
  List.fold_left (fun groups x => addRow eq x groups) l [].

(** Two groups are apart when their first rows are not the same. *)
Definition apartGroups (eq : A -> A -> bool) (g h : list A) : Prop :=
  forall y z, head g = Some y -> head h = Some z -> eq y z = false.

(** A group among the rows [seen]: the rows that are the same as its
    first row, in their order. *)
Definition groupOf (eq : A -> A -> bool) (seen : list A) (g : list A) : Prop :=
  exists y, head g = Some y /\ g = List.filter (fun z => eq z y) seen.

End Operators.
End Relational.

Module Sql.
Import Exec Relational.

(** The months of the calendar. *)
Inductive calendarMonth : Type :=
| Jan | Feb | Mar | Apr | May | Jun | Jul | Aug | Sep | Oct | Nov | Dec.

(** A calendar date, as a DATE column holds it. *)
Record date : Type := { year : nat; month : calendarMonth; day : nat }.

(** Modelled from the spec: the declaration of the table [sales_data] is
    not in the repository.  The spec speaks of a single relational table of
    sales records; a record has the columns that the statements of
    server.js name: the four filterable columns, [customer_tier],
    [order_id] and [customer_id] holding text, [revenue] a decimal amount
    and [order_date] a date, none of them NULL. *)
Record sale : Type := {
  region : string;
  product_name : string;
  sales_channel : string;
  product_category : string;
  revenue : Q;
  customer_tier : string;
  order_id : string;
  customer_id : string;
  order_date : date
}.

(** The data store's comparison of text: the order that [ORDER BY] sorts
    by, under which [DISTINCT] and [GROUP BY] identify values, and the test
    of a column against a bound parameter. *)
Class Collation : Type := {
  leb : string -> string -> bool;
  eqParam : string -> jsval -> bool;
  leb_total : forall a b, leb a b = true \/ leb b a = true;
  leb_trans : forall a b c, leb a b = true -> leb b c = true -> leb a c = true
}.

(** The driver's rendering of a DECIMAL value in a result row: decimal
    text, or a number when the connection asks for numbers. *)
Class Driver : Type := {
  renderDecimal : Q -> jsval
}.

(** *** The text of a statement *)

Inductive token : Type :=
| Word (w : string)
| Numeral (n : nat)
| Text (t : string)
| Mark (c : ascii).

(** Where the reader of tokens is: between tokens, in a word, in a
    numeral, in a quoted text, or just behind a quote inside one. *)
Inductive mode : Type :=
| Idle
| InWord (w : string)
| InNumeral (n : nat)
| InText (t : string)
| Quote (t : string).

Definition inRange (lo hi : nat) (a : ascii) : bool :=
  let n := nat_of_ascii a in ((lo <=? n) && (n <=? hi))%nat.

Definition isBlank (a : ascii) : bool := inRange 9 13 a || Ascii.eqb a " ".

Definition isLetter (a : ascii) : bool :=
  inRange 65 90 a || inRange 97 122 a || Ascii.eqb a "_".

Definition isDigit (a : ascii) : bool := inRange 48 57 a.

Definition isMark (a : ascii) : bool :=
  existsb (Ascii.eqb a) [","; "("; ")"; "="; "?"; ";"]%char.

Definition snoc (s : string) (a : ascii) : string := s +:+ String a EmptyString.

Definition fromIdle (a : ascii) : option (list token * mode) :=
  if isBlank a then Some ([], Idle)
  else if isLetter a then Some ([], InWord (String a EmptyString))
  else if isDigit a then Some ([], InNumeral (nat_of_ascii a - 48))
  else if Ascii.eqb a "'" then Some ([], InText EmptyString)
  else if isMark a then Some ([Mark a], Idle)
  else None.

Definition after (t : token) (a : ascii) : option (list token * mode) :=
  match fromIdle a with
  | Some (ts, m) => Some (t :: ts, m)
  | None => None
  end.

(** One character; a backslash in a quoted text (an escape) is not
    read. *)
Definition step (m : mode) (a : ascii) : option (list token * mode) :=
  match m with
  | Idle => fromIdle a
  | InWord w =>
      if isLetter a || isDigit a || Ascii.eqb a "$" then Some ([], InWord (snoc w a))
      else after (Word w) a
  | InNumeral n =>
      if isDigit a then Some ([], InNumeral (n * 10 + (nat_of_ascii a - 48)))
      else if isLetter a then None
      else after (Numeral n) a
  | InText t =>
      if Ascii.eqb a "'" then Some ([], Quote t)
      else if Ascii.eqb a "\" then None
      else Some ([], InText (snoc t a))
  | Quote t =>
      if Ascii.eqb a "'" then Some ([], InText (snoc t a))
      else after (Text t) a
  end.

Fixpoint lex (m : mode) (s : string) : option (list token) :=
  match s with
  | EmptyString =>
      match m with
      | Idle => Some []
      | InWord w => Some [Word w]
      | InNumeral n => Some [Numeral n]
      | InText _ => None
      | Quote t => Some [Text t]
      end
  | String a s' =>
      match step m a with
      | Some (ts, m') =>
          match lex m' s' with
          | Some ts' => Some (ts ++ ts')%list
          | None => None
          end
      | None => None
      end
  end.

Definition upperChar (a : ascii) : ascii :=
  if inRange 97 122 a then ascii_of_nat (nat_of_ascii a - 32) else a.

Fixpoint upper (s : string) : string :=
  match s with
  | EmptyString => EmptyString
  | String a s' => String (upperChar a) (upper s')
  end.

(** Keywords and names are read without regard to case. *)
Definition reads (keyword w : string) : bool := String.eqb (upper w) keyword.

Definition reserved (w : string) : bool :=
  existsb (fun k => reads k w)
    [ "SELECT"; "DISTINCT"; "AS"; "FROM"; "WHERE"; "AND"; "GROUP"; "BY";
      "ORDER"; "ASC"; "DESC"; "LIMIT" ].

(** The expressions of the statements: a column, or a function of a column
    and text literals, as in [SUM(revenue)], [COUNT(DISTINCT customer_id)],
    [DATE_FORMAT(order_date, '%b')], [FIELD(customer_tier, 'Gold')]. *)
Inductive expr : Type :=
| Column (name : string)
| Call (function : string) (unique : bool) (argument : string) (texts : list string).

Record item : Type := Item { term : expr; alias : option string }.

Record query : Type := Query {
  distinct : bool;
  items : list item;
  source : string;
  conditions : list string;
  groups : list string;
  order : option (expr * bool);
  limit : option nat
}.

(** The keyword at the head of the tokens, if it is there. *)
Definition keyword (k : string) (ts : list token) : option (list token) :=
  match ts with
  | Word w :: rest => if reads k w then Some rest else None
  | _ => None
  end.

Definition optional (k : string) (ts : list token) : bool * list token :=
  match keyword k ts with
  | Some rest => (true, rest)
  | None => (false, ts)
  end.

Definition name (ts : list token) : option (string * list token) :=
  match ts with
  | Word w :: rest => if reserved w then None else Some (w, rest)
  | _ => None
  end.

(** The text literals of a call, up to its closing parenthesis. *)
Fixpoint parseTexts (ts : list token) : option (list string * list token) :=
  match ts with
  | Mark ")" :: rest => Some ([], rest)
  | Mark "," :: Text t :: rest =>
      match parseTexts rest with
      | Some (l, rest') => Some (t :: l, rest')
      | None => None
      end
  | _ => None
  end.

Definition parseExpr (ts : list token) : option (expr * list token) :=
  '(w, rest) ← name ts;
  match rest with
  | Mark "(" :: rest1 =>
      let '(unique, rest2) := optional "DISTINCT" rest1 in
      '(argument, rest3) ← name rest2;
      '(texts, rest4) ← parseTexts rest3;
      Some (Call (upper w) unique argument texts, rest4)
  | _ => Some (Column w, rest)
  end.

Definition parseItem (ts : list token) : option (item * list token) :=
  '(e, rest) ← parseExpr ts;
  match keyword "AS" rest with
  | Some rest1 =>
      '(a, rest2) ← name rest1;
      Some (Item e (Some a), rest2)
  | None => Some (Item e None, rest)
  end.

Fixpoint parseItems (fuel : nat) (ts : list token) : option (list item * list token) :=
  match fuel with
  | O => None
  | S fuel' =>
      '(i, rest) ← parseItem ts;
      match rest with
      | Mark "," :: rest1 =>
          '(l, rest2) ← parseItems fuel' rest1;
          Some (i :: l, rest2)
      | _ => Some ([i], rest)
      end
  end.

(** [column = ?], joined by [AND]. *)
Fixpoint parseConditions (ts : list token) : option (list string * list token) :=
  match ts with
  | Word c :: Mark "=" :: Mark "?" :: rest =>
      if reserved c then None
      else
        match rest with
        | Word a :: rest1 =>
            if reads "AND" a then
              match parseConditions rest1 with
              | Some (l, rest2) => Some (c :: l, rest2)
              | None => None
              end
            else Some ([c], rest)
        | _ => Some ([c], rest)
        end
  | _ => None
  end.

Fixpoint parseNames (ts : list token) : option (list string * list token) :=
  match ts with
  | Word n :: rest =>
      if reserved n then None
      else
        match rest with
        | Mark "," :: rest1 =>
            match parseNames rest1 with
            | Some (l, rest2) => Some (n :: l, rest2)
            | None => None
            end
        | _ => Some ([n], rest)
        end
  | _ => None
  end.

Definition parseWhere (ts : list token) : option (list string * list token) :=
  match keyword "WHERE" ts with
  | Some rest => parseConditions rest
  | None => Some ([], ts)
  end.

Definition parseGroupBy (ts : list token) : option (list string * list token) :=
  match keyword "GROUP" ts with
  | Some rest => rest1 ← keyword "BY" rest; parseNames rest1
  | None => Some ([], ts)
  end.

Definition parseOrderBy (ts : list token) : option (option (expr * bool) * list token) :=
  match keyword "ORDER" ts with
  | Some rest =>
      rest1 ← keyword "BY" rest;
      '(e, rest2) ← parseExpr rest1;
      match keyword "DESC" rest2 with
      | Some rest3 => Some (Some (e, true), rest3)
      | None => Some (Some (e, false), snd (optional "ASC" rest2))
      end
  | None => Some (None, ts)
  end.

Definition parseLimit (ts : list token) : option (option nat * list token) :=
  match keyword "LIMIT" ts with
  | Some (Numeral n :: rest) => Some (Some n, rest)
  | Some _ => None
  | None => Some (None, ts)
  end.

(** A statement: [SELECT [DISTINCT] items FROM table [WHERE ...]
    [GROUP BY ...] [ORDER BY ... [ASC|DESC]] [LIMIT n] [;]]. *)
Definition parse (sql : string) : option query :=
  ts ← lex Idle sql;
  ts1 ← keyword "SELECT" ts;
  let '(distinct, ts2) := optional "DISTINCT" ts1 in
  '(items, ts3) ← parseItems (length ts2) ts2;
  ts4 ← keyword "FROM" ts3;
  '(source, ts5) ← name ts4;
  '(conditions, ts6) ← parseWhere ts5;
  '(groups, ts7) ← parseGroupBy ts6;
  '(order, ts8) ← parseOrderBy ts7;
  '(limit, ts9) ← parseLimit ts8;
  match ts9 with
  | [] | [Mark ";"] => Some (Query distinct items source conditions groups order limit)
  | _ => None
  end.

(** *** Values and expressions *)

Inductive value : Type :=
| VNull
| VText (s : string)
| VDecimal (q : Q)
| VInteger (z : Z).

(** A column of the table, with the type of its values. *)
Inductive attribute : Type :=
| TextColumn (f : sale -> string)
| DecimalColumn (f : sale -> Q)
| DateColumn (f : sale -> date).

Definition columnOf (name : string) : option attribute :=
  let n := upper name in
  if String.eqb n "REGION" then Some (TextColumn region)
  else if String.eqb n "PRODUCT_NAME" then Some (TextColumn product_name)
  else if String.eqb n "SALES_CHANNEL" then Some (TextColumn sales_channel)
  else if String.eqb n "PRODUCT_CATEGORY" then Some (TextColumn product_category)
  else if String.eqb n "CUSTOMER_TIER" then Some (TextColumn customer_tier)
  else if String.eqb n "ORDER_ID" then Some (TextColumn order_id)
  else if String.eqb n "CUSTOMER_ID" then Some (TextColumn customer_id)
  else if String.eqb n "REVENUE" then Some (DecimalColumn revenue)
  else if String.eqb n "ORDER_DATE" then Some (DateColumn order_date)
  else None.

Definition monthNumber (m : calendarMonth) : nat :=
  match m with
  | Jan => 1 | Feb => 2 | Mar => 3 | Apr => 4 | May => 5 | Jun => 6
  | Jul => 7 | Aug => 8 | Sep => 9 | Oct => 10 | Nov => 11 | Dec => 12
  end.

(** The names of the months in the data store's default locale. *)
Definition monthName (m : calendarMonth) : string :=
  match m with
  | Jan => "January" | Feb => "February" | Mar => "March" | Apr => "April"
  | May => "May" | Jun => "June" | Jul => "July" | Aug => "August"
  | Sep => "September" | Oct => "October" | Nov => "November" | Dec => "December"
  end.

Definition decimal (n : nat) : string := NilZero.string_of_uint (Nat.to_uint n).

Fixpoint zeros (n : nat) : string :=
  match n with
  | O => EmptyString
  | S n' => String "0" (zeros n')
  end.

(** A number in at least [width] digits. *)
Definition padded (width n : nat) : string :=
  let d := decimal n in zeros (width - String.length d) +:+ d.

(** The specifiers of [DATE_FORMAT] that read the date. *)
Definition specifier (c : ascii) (d : date) : option string :=
  if Ascii.eqb c "Y" then Some (padded 4 (year d))
  else if Ascii.eqb c "y" then Some (padded 2 (year d mod 100))
  else if Ascii.eqb c "m" then Some (padded 2 (monthNumber (month d)))
  else if Ascii.eqb c "c" then Some (decimal (monthNumber (month d)))
  else if Ascii.eqb c "b" then Some (String.substring 0 3 (monthName (month d)))
  else if Ascii.eqb c "M" then Some (monthName (month d))
  else if Ascii.eqb c "d" then Some (padded 2 (day d))
  else if Ascii.eqb c "e" then Some (decimal (day d))
  else if Ascii.eqb c "%" then Some "%"
  else None.

(** [DATE_FORMAT(d, format)]; none when the format has a specifier that is
    not read here (those of the time of day, of weeks and of week days). *)
Fixpoint dateFormat (format : string) (d : date) : option string :=
  match format with
  | EmptyString => Some EmptyString
  | String "%" (String c rest) =>
      match specifier c d, dateFormat rest d with
      | Some t, Some u => Some (t +:+ u)
      | _, _ => None
      end
  | String c rest =>
      match dateFormat rest d with
      | Some u => Some (String c u)
      | None => None
      end
  end.

(** Whether a format is read, whatever the date. *)
Definition dateFormatRead (format : string) : bool :=
  match dateFormat format {| year := 0; month := Jan; day := 0 |} with
  | Some _ => true
  | None => false
  end.

Definition dateText (format : string) (d : date) : string :=
  match dateFormat format d with
  | Some t => t
  | None => EmptyString
  end.

Section Meaning.
Context {co : Collation}.

Definition same (a b : string) : bool := leb a b && leb b a.

Definition before (a b : string) : Prop := leb a b = true /\ leb b a = false.

(** The column that a predicate fragment of [buildFilter] tests. *)
Definition fragmentColumn (fragment : string) : option (sale -> string) :=
  if String.eqb fragment "region = ?" then Some region
  else if String.eqb fragment "product_name = ?" then Some product_name
  else if String.eqb fragment "sales_channel = ?" then Some sales_channel
  else if String.eqb fragment "product_category = ?" then Some product_category
  else None.

(** The conjunction of the fragments, each placeholder bound to the
    parameter at its position; no fragment, no restriction. *)
Fixpoint holds (filters : list string) (ps : list jsval) (r : sale) : bool :=
  match filters, ps with
  | [], _ => true
  | f :: fs, p :: ps' =>
      match fragmentColumn f with
      | Some col => eqParam (col r) p && holds fs ps' r
      | None => false
      end
  | _ :: _, [] => false
  end.

(** [FROM sales_data] followed by the clause that [buildFilter] built. *)
Definition fromWhere (query : jsobject) (table : list sale) : list sale :=
  let (filters, ps) := Filter.arrays query in
  List.filter (holds filters ps) table.

(** The columns that the fragments of some parameters test. *)
Definition columnsOf (sel : list (string * string)) : list (sale -> string) :=
  omap (fun kf => fragmentColumn (snd kf)) sel.

(** Values that [DISTINCT] and [GROUP BY] identify. *)
Definition sameValue (a b : value) : bool :=
  match a, b with
  | VNull, VNull => true
  | VText s, VText t => same s t
  | VDecimal p, VDecimal q => Qeq_bool p q
  | VInteger x, VInteger y => Z.eqb x y
  | VDecimal p, VInteger y => Qeq_bool p (inject_Z y)
  | VInteger x, VDecimal q => Qeq_bool (inject_Z x) q
  | _, _ => false
  end.

Fixpoint sameValues (l1 l2 : list value) : bool :=
  match l1, l2 with
  | [], [] => true
  | a :: l1', b :: l2' => sameValue a b && sameValues l1' l2'
  | _, _ => false
  end.

(** The order of [ORDER BY ... ASC]: NULL first, numbers by value, text by
    the collation; a number sorts before a text. *)
Definition valueLeb (a b : value) : bool :=
  match a, b with
  | VNull, _ => true
  | _, VNull => false
  | VText s, VText t => leb s t
  | VText _, _ => false
  | _, VText _ => true
  | VDecimal p, VDecimal q => Qle_bool p q
  | VDecimal p, VInteger y => Qle_bool p (inject_Z y)
  | VInteger x, VDecimal q => Qle_bool (inject_Z x) q
  | VInteger x, VInteger y => Z.leb x y
  end.

(** [FIELD(v, t1, t2, ...)]: the position of the first text that [v] is
    the same as, counting from 1; 0 when there is none. *)
Fixpoint fieldIndex (v : string) (texts : list string) (position : Z) : Z :=
  match texts with
  | [] => 0%Z
  | t :: texts' => if same v t then position else fieldIndex v texts' (position + 1)%Z
  end.

Definition sumOf (f : sale -> Q) (rows : list sale) : Q :=
  Qred (List.fold_right (fun r acc => (f r + acc)%Q) 0%Q rows).

(** An expression on one row. *)
Definition scalar (e : expr) : option (sale -> value) :=
  match e with
  | Column n =>
      match columnOf n with
      | Some (TextColumn f) => Some (fun r => VText (f r))
      | Some (DecimalColumn f) => Some (fun r => VDecimal (f r))
      | _ => None
      end
  | Call f false argument texts =>
      if String.eqb f "DATE_FORMAT" then
        match columnOf argument, texts with
        | Some (DateColumn d), [format] =>
            if dateFormatRead format
            then Some (fun r => VText (dateText format (d r)))
            else None
        | _, _ => None
        end
      else if String.eqb f "FIELD" then
        match columnOf argument, texts with
        | Some (TextColumn c), _ :: _ => Some (fun r => VInteger (fieldIndex (c r) texts 1))
        | _, _ => None
        end
      else None
  | Call _ true _ _ => None
  end.

Definition isAggregate (e : expr) : bool :=
  match e with
  | Call f _ _ _ => String.eqb f "SUM" || String.eqb f "COUNT"
  | Column _ => false
  end.

(** The value of an expression on the first row of a group. *)
Definition onFirst (f : sale -> value) (rows : list sale) : value :=
  match rows with
  | r :: _ => f r
  | [] => VNull
  end.

(** [SUM] over a group; NULL over no row. *)
Definition summed (f : sale -> Q) (rows : list sale) : value :=
  match rows with
  | _ :: _ => VDecimal (sumOf f rows)
  | [] => VNull
  end.

Definition counted (rows : list sale) : value := VInteger (Z.of_nat (length rows)).

Definition countedDistinct (f : sale -> string) (rows : list sale) : value :=
  VInteger (Z.of_nat (length (dedupeBy same (List.map f rows)))).

(** An expression on a group of rows: an aggregate, or an expression on
    the group's first row. *)
Definition measure (e : expr) : option (list sale -> value) :=
  match e with
  | Call f unique argument [] =>
      if String.eqb f "SUM" then
        match columnOf argument, unique with
        | Some (DecimalColumn c), false => Some (summed c)
        | _, _ => None
        end
      else if String.eqb f "COUNT" then
        match columnOf argument, unique with
        | Some (TextColumn c), true => Some (countedDistinct c)
        | Some _, false => Some counted
        | _, _ => None
        end
      else option_map onFirst (scalar e)
  | _ => option_map onFirst (scalar e)
  end.

(** *** Plans *)

(** How the selected rows are put together: each row by itself, all rows
    as one group (aggregates without [GROUP BY]), or grouped by a key. *)
Inductive grouping : Type :=
| PerRow
| Whole
| ByKey (key : sale -> list value).

(** A statement with its names resolved. *)
Record plan : Type := Plan {
  filters : list (sale -> string);
  gathering : grouping;
  outputs : list (string * (list sale -> value));
  unique : bool;
  ordering : option ((list sale -> value) * bool);
  bound : option nat
}.

Definition aliased (n : string) (i : item) : bool :=
  match alias i with
  | Some a => String.eqb (upper a) (upper n)
  | None =>
      match term i with
      | Column c => String.eqb (upper c) (upper n)
      | Call _ _ _ _ => false
      end
  end.

(** A name in [GROUP BY]: a column of the table, else an alias of the
    select list. *)
Definition groupKey (items : list item) (n : string) : option (sale -> value) :=
  match scalar (Column n) with
  | Some f => Some f
  | None =>
      match List.find (aliased n) items with
      | Some i => scalar (term i)
      | None => None
      end
  end.

(** A name in [ORDER BY]: an alias of the select list, else a column of
    the table. *)
Definition orderKey (items : list item) (e : expr) : option (list sale -> value) :=
  match e with
  | Column n =>
      match List.find (aliased n) items with
      | Some i => measure (term i)
      | None => measure e
      end
  | Call _ _ _ _ => measure e
  end.

Fixpoint traverse {A B : Type} (f : A -> option B) (l : list A) : option (list B) :=
  match l with
  | [] => Some []
  | x :: l' =>
      match f x, traverse f l' with
      | Some y, Some l'' => Some (y :: l'')
      | _, _ => None
      end
  end.

Definition textColumn (n : string) : option (sale -> string) :=
  match columnOf n with
  | Some (TextColumn f) => Some f
  | _ => None
  end.

Definition output (i : item) : option (string * (list sale -> value)) :=
  match measure (term i) with
  | Some f =>
      match alias i, term i with
      | Some a, _ => Some (a, f)
      | None, Column c => Some (c, f)
      | None, Call _ _ _ _ => None
      end
  | None => None
  end.

Definition compile (q : query) : option plan :=
  if negb (String.eqb (source q) "sales_data") then None
  else
    filters ← traverse textColumn (conditions q);
    gathering ←
      match groups q with
      | [] => Some (if existsb (fun i => isAggregate (term i)) (items q)
                    then Whole else PerRow)
      | names =>
          keys ← traverse (groupKey (items q)) names;
          Some (ByKey (fun r => List.map (fun k => k r) keys))
      end;
    outputs ← traverse output (items q);
    ordering ←
      match order q with
      | Some (e, descending) =>
          k ← orderKey (items q) e;
          Some (Some (k, descending))
      | None => Some None
      end;
    Some (Plan filters gathering outputs (distinct q) ordering (limit q)).

Definition compileText (sql : string) : option plan :=
  q ← parse sql; compile q.

(** *** Execution *)

(** The conjunction of [column = ?] tests, each placeholder bound to the
    parameter at its position. *)
Fixpoint satisfies (columns : list (sale -> string)) (ps : list jsval) (r : sale) : bool :=
  match columns, ps with
  | [], _ => true
  | c :: columns', p :: ps' => eqParam (c r) p && satisfies columns' ps' r
  | _ :: _, [] => false
  end.

Definition gather (g : grouping) (rows : list sale) : list (list sale) :=
  match g with
  | PerRow => List.map (fun r => [r]) rows
  | Whole => [rows]
  | ByKey key =>
      groupBy (fun r r' => sameValues (key r) (key r')) rows
  end.

Definition fields (p : plan) (unit : list sale) : list value :=
  List.map (fun o => snd o unit) (outputs p).

Definition inOrder (p : plan) (units : list (list sale)) : list (list sale) :=
  match ordering p with
  | Some (k, true) => sortBy (fun u v => valueLeb (k v) (k u)) units
  | Some (k, false) => sortBy (fun u v => valueLeb (k u) (k v)) units
  | None => units
  end.

Definition bounded (p : plan) (units : list (list sale)) : list (list sale) :=
  match bound p with
  | Some n => firstn n units
  | None => units
  end.

Context {dr : Driver}.

(** A value in a result row: text as a string, a count as a number, a
    decimal as the driver renders it. *)
Definition render (v : value) : jsval :=
  match v with
  | VNull => JNull
  | VText s => JStr s
  | VDecimal q => renderDecimal q
  | VInteger z => ofNumber (Binary64.round (inject_Z z))
  end.

Definition resultRow (p : plan) (unit : list sale) : row :=
  list_to_map (List.map (fun o => (fst o, render (snd o unit))) (outputs p)).

(** The rows of a statement: the table filtered, gathered into units, made
    distinct, ordered and bounded; one result row for each unit. *)
Definition rowsOf (p : plan) (ps : list jsval) (table : list sale) : list row :=
  let units := gather (gathering p) (List.filter (satisfies (filters p) ps) table) in
  let kept :=
    if unique p
    then dedupeBy (fun u v => sameValues (fields p u) (fields p v)) units
    else units in
  List.map (resultRow p) (bounded p (inOrder p kept)).

(** [connection.execute(sql, ps)] on a data store that holds [table]: the
    statement is refused when its text is not read, when it names what the
    table does not have, or when the parameters are not as many as its
    placeholders. *)
Definition run (table : list sale) (sql : string) (ps : list jsval) : outcome (list row) :=
  match parse sql with
  | None => Rejected (Error "You have an error in your SQL syntax")
  | Some q =>
      match compile q with
      | None => Rejected (Error "Unknown table, column or function")
      | Some p =>
          if (length ps =? length (filters p))%nat
          then Resolved (rowsOf p ps table)
          else Rejected (Error "Incorrect arguments to mysqld_stmt_execute")
      end
  end.

(** A data store that is up and holds [table]. *)
Definition store (table : list sale) : engine :=
  {| connect := fun _ => Resolved tt; execute := fun _ => run table |}.

(** The month of a sale, as [DATE_FORMAT(order_date, '%Y-%m')] writes it:
    the year in four digits, a hyphen, the month in two. *)
Definition monthOf (r : sale) : string := dateText "%Y-%m" (order_date r).

(** The first row of a unit under a column, or nothing. *)
Definition labelOf (key : sale -> string) (unit : list sale) : string :=
  match unit with
  | r :: _ => key r
  | [] => EmptyString
  end.

(** A group as a pair: its key and the sum of its revenue. *)
Definition summary (key : sale -> string) (unit : list sale) : string * Q :=
  (labelOf key unit, sumOf revenue unit).

(** The revenue of the rows whose key is [k]. *)
Definition total (key : sale -> string) (k : string) (rows : list sale) : Q :=
  List.fold_right
    (fun r acc => if same (key r) k then (revenue r + acc)%Q else acc) 0%Q rows.

(** Groups are kept apart: no two of them have the same key. *)
Definition apart (p q : string * Q) : Prop := same (fst p) (fst q) = false.

(** What the groups of some rows by a key are: no two groups with the same
    key; each group's key is the key of one of the rows and its value the
    revenue of the rows with that key; every row has its group. *)
Definition grouped (key : sale -> string) (g : list (string * Q)) (rows : list sale) : Prop :=
  StronglySorted apart g
  /\ (forall k s, In (k, s) g ->
        (s == total key k rows)%Q /\ exists r, In r rows /\ key r = k)
  /\ (forall r, In r rows -> exists k s, In (k, s) g /\ same (key r) k = true).

(** What a list of the distinct values of a column is: in ascending order
    with no two entries the same (each is strictly before all later ones),
    made of values of the column, and with an entry for every value. *)
Definition distinctSorted (vals l : list string) : Prop :=
  StronglySorted before l
  /\ (forall u, In u l -> In u vals)
  /\ (forall v, In v vals -> exists u, In u l /\ same v u = true).

(** Largest value first. *)
Definition byValueDesc (p q : string * Q) : Prop := (snd q <= snd p)%Q.

(** Earliest key first. *)
Definition byKeyAsc (p q : string * Q) : Prop := before (fst p) (fst q).

End Meaning.

(** The plans of the statements of server.js, for the parameters [sel]
    that contribute a fragment to the clause. *)
Section Plans.
Context {co : Collation}.

Definition kpisPlan (sel : list (string * string)) : plan :=
  {| filters := columnsOf sel;
     gathering := Whole;
     outputs := [ ("revenue", summed revenue); ("orders", counted);
                  ("customers", countedDistinct customer_id) ];
     unique := false;
     ordering := None;
     bound := None |}.

Definition growthPlan (sel : list (string * string)) : plan :=
  {| filters := columnsOf sel;
     gathering := ByKey (fun r => [VText (monthOf r)]);
     outputs := [ ("month_year", onFirst (fun r => VText (monthOf r)));
                  ("monthly_revenue", summed revenue) ];
     unique := false;
     ordering := Some (onFirst (fun r => VText (monthOf r)), false);
     bound := None |}.

Definition productsPlan (sel : list (string * string)) : plan :=
  {| filters := columnsOf sel;
     gathering := ByKey (fun r => [VText (product_name r)]);
     outputs := [ ("label", onFirst (fun r => VText (product_name r)));
                  ("value", summed revenue) ];
     unique := false;
     ordering := Some (summed revenue, true);
     bound := Some 5%nat |}.

Definition distinctPlan (name : string) (c : sale -> string) : plan :=
  {| filters := [];
     gathering := PerRow;
     outputs := [ (name, onFirst (fun r => VText (c r))) ];
     unique := true;
     ordering := Some (onFirst (fun r => VText (c r)), false);
     bound := None |}.

End Plans.

Section Rows.
Context {dr : Driver}.

(** A row of a metadata statement. *)
Definition valueRow (column v : string) : row := {[ column := JStr v ]}.

(** A row of a chart statement. *)
Definition chartRow (p : string * Q) : row :=
  {[ "label" := JStr (fst p); "value" := renderDecimal (snd p) ]}.

(** A row of the statement of monthly revenue. *)
Definition monthRow (p : string * Q) : row :=
  {[ "month_year" := JStr (fst p); "monthly_revenue" := renderDecimal (snd p) ]}.

End Rows.

(** Numbers in non-increasing order. *)
Definition nonIncreasing (l : list number) : Prop :=
  Sorted (fun a b => Binary64.le b a) l.

End Sql.

(** ** A runtime for the numeric conversions, and sample data *)

(** The text-reading built-ins as ECMAScript defines them, over strings
    that hold UTF-8.  Decimal text is read exactly and rounded once, to the
    nearest binary64 value. *)
Module Decimal.

Definition code (a : ascii) : Z := Z.of_nat (nat_of_ascii a).

(** White space of one byte (tab, line feed, vertical tab, form feed,
    carriage return, space). *)
Definition isSpace (a : ascii) : bool :=
  let n := nat_of_ascii a in
  ((9 <=? n) && (n <=? 13))%nat || (n =? 32)%nat.

(** White space of two bytes: U+00A0. *)
Definition isSpace2 (a b : ascii) : bool :=
  ((code a =? 194) && (code b =? 160))%Z.

(** White space of three bytes: U+1680, U+2000 to U+200A, U+2028, U+2029,
    U+202F, U+205F, U+3000, U+FEFF. *)
Definition isSpace3 (a b c : ascii) : bool :=
  let '(x, y, z) := (code a, code b, code c) in
  ((x =? 225) && (y =? 154) && (z =? 128)
   || (x =? 226) && (y =? 128)
      && ((128 <=? z) && (z <=? 138) || (z =? 168) || (z =? 169) || (z =? 175))
   || (x =? 226) && (y =? 129) && (z =? 159)
   || (x =? 227) && (y =? 128) && (z =? 128)
   || (x =? 239) && (y =? 187) && (z =? 191))%Z.

Fixpoint skipSpaces (s : string) : string :=
  match s with
  | String a s1 =>
      if isSpace a then skipSpaces s1
      else
        match s1 with
        | String b s2 =>
            if isSpace2 a b then skipSpaces s2
            else
              match s2 with
              | String c s3 => if isSpace3 a b c then skipSpaces s3 else s
              | EmptyString => s
              end
        | EmptyString => s
        end
  | EmptyString => EmptyString
  end.

(** The value of a character as a digit in a radix up to 36. *)
Definition digitIn (radix : Z) (a : ascii) : option Z :=
  let n := code a in
  let v := if ((48 <=? n) && (n <=? 57))%Z then (n - 48)%Z
           else if ((97 <=? n) && (n <=? 122))%Z then (n - 87)%Z
           else if ((65 <=? n) && (n <=? 90))%Z then (n - 55)%Z
           else radix in
  if (v <? radix)%Z then Some v else None.

Definition digit (a : ascii) : option Z := digitIn 10 a.

(** The digits at the head of [s]: their value after [acc], how many were
    read after [n], and what follows them. *)
Fixpoint readRadix (radix acc : Z) (n : nat) (s : string) : Z * nat * string :=
  match s with
  | String a s' =>
      match digitIn radix a with
      | Some d => readRadix radix (acc * radix + d)%Z (S n) s'
      | None => (acc, n, s)
      end
  | EmptyString => (acc, n, EmptyString)
  end.

Definition readDigits (acc : Z) (n : nat) (s : string) : Z * nat * string :=
  readRadix 10 acc n s.

(** An exponent part, [e] or [E], an optional sign and digits: its value
    and what follows; without digits there is no exponent part. *)
Definition readExponent (s : string) : Z * string :=
  match s with
  | String c s1 =>
      if Ascii.eqb c "e" || Ascii.eqb c "E" then
        let '(negative, s2) :=
          match s1 with
          | String "-"%char t => (true, t)
          | String "+"%char t => (false, t)
          | _ => (false, s1)
          end in
        let '(x, n, rest) := readDigits 0 0 s2 in
        if (n =? 0)%nat then (0%Z, s)
        else ((if negative then - x else x)%Z, rest)
      else (0%Z, s)
  | EmptyString => (0%Z, s)
  end.

(** An unsigned decimal literal at the head of [s], the longest there is:
    [Infinity], or digits with an optional fraction and exponent, or a
    fraction alone.  The value is exact. *)
Definition readUnsigned (s : string) : option (number * string) :=
  if String.prefix "Infinity" s
  then Some (Inf false, String.substring 8 (String.length s - 8) s)
  else
    let '(i, ni, rest) := readDigits 0 0 s in
    let mantissa :=
      match rest with
      | String "."%char rest' =>
          let '(f, nf, rest'') := readDigits 0 0 rest' in
          if (ni + nf =? 0)%nat then None
          else Some ((inject_Z i + inject_Z f / inject_Z (10 ^ Z.of_nat nf))%Q, rest'')
      | _ => if (ni =? 0)%nat then None else Some (inject_Z i, rest)
      end in
    match mantissa with
    | Some (m, rest') =>
        let '(x, rest'') := readExponent rest' in
        Some (Num (m * 10 ^ x)%Q, rest'')
    | None => None
    end.

Definition negate (n : number) : number :=
  match n with
  | NaN => NaN
  | Inf s => Inf (negb s)
  | Num q => Num (- q)%Q
  end.

Definition readSigned (s : string) : option (number * string) :=
  match s with
  | String "-"%char s' =>
      match readUnsigned s' with
      | Some (n, rest) => Some (negate n, rest)
      | None => None
      end
  | String "+"%char s' => readUnsigned s'
  | _ => readUnsigned s
  end.

(** The Number value of an exact one. *)
Definition toBinary64 (n : number) : number :=
  match n with
  | Num q => Binary64.round q
  | _ => n
  end.

(** [parseFloat]: the longest decimal literal after leading white space. *)
Definition parseFloatText (s : string) : number :=
  match readSigned (skipSpaces s) with
  | Some (n, _) => toBinary64 n
  | None => NaN
  end.

(** The radix of a [0x], [0o] or [0b] literal, and its digits. *)
Definition radixPrefix (s : string) : option (Z * string) :=
  match s with
  | String "0"%char (String c rest) =>
      if Ascii.eqb c "x" || Ascii.eqb c "X" then Some (16%Z, rest)
      else if Ascii.eqb c "o" || Ascii.eqb c "O" then Some (8%Z, rest)
      else if Ascii.eqb c "b" || Ascii.eqb c "B" then Some (2%Z, rest)
      else None
  | _ => None
  end.

Definition isEmpty (s : string) : bool :=
  match s with
  | EmptyString => true
  | _ => false
  end.

(** StringToNumber: the whole text, white space trimmed, is a decimal
    literal or an unsigned literal in radix 16, 8 or 2; empty text is 0. *)
Definition textToNumber (s : string) : number :=
  let t := skipSpaces s in
  if isEmpty t then Num 0%Q
  else
    match radixPrefix t with
    | Some (radix, digits) =>
        let '(v, n, rest) := readRadix radix 0 0 digits in
        if (0 <? n)%nat && isEmpty (skipSpaces rest)
        then Binary64.round (inject_Z v)
        else NaN
    | None =>
        match readSigned t with
        | Some (n, rest) => if isEmpty (skipSpaces rest) then toBinary64 n else NaN
        | None => NaN
        end
    end.

(** *** Number::toString *)

Fixpoint digitsBelow (fuel : nat) (z n : Z) : Z :=
  match fuel with
  | O => n
  | S fuel' => if (z <? 10)%Z then n else digitsBelow fuel' (z / 10)%Z (n + 1)%Z
  end.

Fixpoint digitsAbove (fuel : nat) (q : Q) (n : Z) : Z :=
  match fuel with
  | O => n
  | S fuel' => if Qle_bool 1 q then n else digitsAbove fuel' (q * 10)%Q (n - 1)%Z
  end.

(** The decimal position [m] of the leading digit of a positive rational:
    [10^m <= q < 10^(m+1)]. *)
Definition magnitude (q : Q) : Z :=
  if Qle_bool 1 q
  then digitsBelow (S (Z.to_nat (Z.log2 (Qfloor q)))) (Qfloor q) 0
  else digitsAbove (S (Z.to_nat (Z.log2 (Zpos (Qden q))))) q 0.

(** The shortest digits that read back as the positive number [q]: the
    least [k] for which some integer [s] of [k] digits has [s * 10^(n-k)]
    round to [q]; of two such, the one nearer to [q], the even one when
    they are equally near.  The result is [(s, k, n)]. *)
Fixpoint shortest (fuel : nat) (k : Z) (q : Q) (m : Z) : Z * Z * Z :=
  let unit := (10 ^ (m - k + 1))%Q in
  let low := Qfloor (q / unit) in
  let high := (low + 1)%Z in
  let reads s := match Binary64.round (inject_Z s * unit), Binary64.round q with
                 | Num a, Num b => Qeq_bool a b
                 | _, _ => false
                 end in
  let pick s := if (s =? 10 ^ k)%Z then ((10 ^ (k - 1))%Z, k, (m + 2)%Z)
                else (s, k, (m + 1)%Z) in
  match fuel with
  | O => pick low
  | S fuel' =>
      match reads low, reads high with
      | true, true =>
          match Qcompare (q - inject_Z low * unit) (inject_Z high * unit - q) with
          | Lt => pick low
          | Gt => pick high
          | Eq => if Z.even low then pick low else pick high
          end
      | true, false => pick low
      | false, true => pick high
      | false, false => shortest fuel' (k + 1)%Z q m
      end
  end.

Definition decimal (z : Z) : string := NilZero.string_of_uint (N.to_uint (Z.to_N z)).

Fixpoint zeros (n : nat) : string :=
  match n with
  | O => EmptyString
  | S n' => String "0" (zeros n')
  end.

(** Number::toString of a positive number. *)
Definition positiveText (q : Q) : string :=
  let '(s, k, n) := shortest 17 1 q (magnitude q) in
  let digits := decimal s in
  let len := Z.to_nat k in
  if ((k <=? n) && (n <=? 21))%Z
  then digits +:+ zeros (Z.to_nat (n - k))
  else if ((0 <? n) && (n <=? 21))%Z
  then String.substring 0 (Z.to_nat n) digits +:+ "."
       +:+ String.substring (Z.to_nat n) (len - Z.to_nat n) digits
  else if ((-6 <? n) && (n <=? 0))%Z
  then "0." +:+ zeros (Z.to_nat (- n)) +:+ digits
  else
    let e := (n - 1)%Z in
    let exponent := (if (e <? 0)%Z then "-" else "+") +:+ decimal (Z.abs e) in
    if (k =? 1)%Z then digits +:+ "e" +:+ exponent
    else String.substring 0 1 digits +:+ "."
         +:+ String.substring 1 (len - 1) digits +:+ "e" +:+ exponent.

Definition numberText (q : Q) : string :=
  match Qcompare q 0 with
  | Eq => "0"
  | Gt => positiveText q
  | Lt => "-" +:+ positiveText (- q)
  end.

(** ToString; an array prints its elements joined by commas, [undefined]
    and [null] among them as nothing. *)
Fixpoint textOf (v : jsval) : string :=
  match v with
  | JUndefined => "undefined"
  | JNull => "null"
  | JNaN => "NaN"
  | JInf s => if s then "-Infinity" else "Infinity"
  | JNum q => numberText q
  | JStr s => s
  | JArr l =>
      String.concat ","
        (List.map (fun e => match e with
                            | JUndefined | JNull => ""
                            | _ => textOf e
                            end) l)
  | JObj _ => "[object Object]"
  end.

(** [parseInt] without a radix: after white space and a sign, the digits
    of an integer in radix 16 behind [0x], in radix 10 otherwise; NaN when
    there is none. *)
Definition parseIntOf (v : jsval) : jsval :=
  let s := skipSpaces (textOf v) in
  let '(negative, t) :=
    match s with
    | String "-"%char t => (true, t)
    | String "+"%char t => (false, t)
    | _ => (false, s)
    end in
  let '(radix, digits) :=
    match t with
    | String "0"%char (String c rest) =>
        if Ascii.eqb c "x" || Ascii.eqb c "X" then (16%Z, rest) else (10%Z, t)
    | _ => (10%Z, t)
    end in
  let '(z, n, _) := readRadix radix 0 0 digits in
  if (n =? 0)%nat then JNaN
  else ofNumber (Binary64.round (inject_Z (if negative then - z else z))).

#[export] Instance runtime : JsRuntime := {|
  stringToNumber := textToNumber;
  parseFloatString := parseFloatText;
  objectToString := textOf;
  parseInt := parseIntOf
|}.

End Decimal.

(** The byte-wise collation: texts compare as their character codes do. *)
Module Binary.

Lemma leb_iff (a b : string) :
  String.leb a b = true <-> a = b \/ String_as_OT.lt a b.
Proof.
  unfold String.leb.
  pose proof (String_as_OT.cmp_eq a b) as Heq.
  pose proof (String_as_OT.cmp_lt a b) as Hlt.
  unfold String_as_OT.cmp in *.
  destruct (String.compare a b); split; intros H; auto; try discriminate H.
  - left. now apply Heq.
  - right. now apply Hlt.
  - destruct H as [H|H]; [apply Heq in H | apply Hlt in H]; discriminate H.
Qed.

Lemma leb_trans (a b c : string) :
  String.leb a b = true -> String.leb b c = true -> String.leb a c = true.
Proof.
  rewrite !leb_iff. intros [->|Hab] [->|Hbc]; auto.
  right. exact (String_as_OT.lt_trans _ _ _ Hab Hbc).
Qed.

(** A bound parameter equals a column value when it is that text. *)
Definition eqText (v : string) (p : jsval) : bool :=
  match p with
  | JStr s => String.eqb v s
  | _ => false
  end.

#[export] Instance collation : Sql.Collation := {|
  Sql.leb := String.leb;
  Sql.eqParam := eqText;
  Sql.leb_total := String.leb_total;
  Sql.leb_trans := leb_trans
|}.

End Binary.

(** A driver that renders a DECIMAL value as text with two decimals, as
    the default of the mysql2 driver does for a DECIMAL(n, 2) column. *)
Module Cents.

Definition text (q : Q) : string :=
  let cents := Qfloor (Qabs q * 100 + (1 # 2))%Q in
  (if Binary64.isNegative q then "-" else "")
  +:+ Decimal.decimal (cents / 100) +:+ "."
  +:+ Sql.padded 2 (Z.to_nat (cents mod 100)).

#[export] Instance driver : Sql.Driver := {|
  Sql.renderDecimal := fun q => JStr (text q)
|}.

End Cents.

Module Samples.
Import Exec.

(** The row of totals and the rows of monthly revenue, as the driver
    returns them: sums as decimal text, counts as numbers. *)
Definition kpiRow : row :=
  {[ "revenue" := JStr "550.00"; "orders" := JNum 3; "customers" := JNum 2 ]}.

(** The row of totals over no record: the sum is NULL, the counts 0. *)
Definition emptyTotals : row :=
  {[ "revenue" := JNull; "orders" := JNum 0; "customers" := JNum 0 ]}.

Definition monthRow (month amount : string) : row :=
  {[ "month_year" := JStr month; "monthly_revenue" := JStr amount ]}.

Definition months : list row :=
  [ monthRow "2023-01" "100.00"; monthRow "2023-02" "150.00";
    monthRow "2023-03" "300.00" ].

(** A data store that is up and answers the two statements of an
    unfiltered [/api/kpis] request. *)
Definition kpiStore : engine :=
  {| connect := fun _ => Resolved tt;
     execute := fun _ sql _ =>
       if String.eqb sql (Statements.kpisSql "") then Resolved [kpiRow]
       else if String.eqb sql (Statements.growthSql "") then Resolved months
       else Rejected (Error "unexpected statement") |}.

Definition regionRows : list row :=
  [ {[ "label" := JStr "North"; "value" := JStr "1200.50" ]};
    {[ "label" := JStr "South"; "value" := JStr "300.00" ]} ].

Definition sale (r p c g : string) (v : Q) (tier order customer : string)
    (m : Sql.calendarMonth) (d : nat) : Sql.sale :=
  {| Sql.region := r; Sql.product_name := p; Sql.sales_channel := c;
     Sql.product_category := g; Sql.revenue := v; Sql.customer_tier := tier;
     Sql.order_id := order; Sql.customer_id := customer;
     Sql.order_date := {| Sql.year := 2023; Sql.month := m; Sql.day := d |} |}.

(** Eight sales of six products over three months; January comes to
    80.00, February to 620.00 and March to 103.00. *)
Definition table : list Sql.sale :=
  [ sale "South" "Lamp" "Online" "Home" (4025 # 100) "Gold" "A1" "C1" Sql.Jan 9;
    sale "North" "Desk" "Retail" "Office" 250 "Platinum" "A2" "C2" Sql.Feb 2;
    sale "North" "Lamp" "Online" "Home" (3475 # 100) "Silver" "A3" "C3" Sql.Jan 17;
    sale "East" "Pen" "Retail" "Office" 5 "Bronze" "A4" "C4" Sql.Jan 30;
    sale "South" "Chair" "Online" "Office" (1205 # 10) "Gold" "A5" "C1" Sql.Feb 11;
    sale "West" "Rug" "Retail" "Home" 80 "Silver" "A6" "C3" Sql.Mar 5;
    sale "East" "Mug" "Online" "Home" 23 "Bronze" "A7" "C5" Sql.Mar 21;
    sale "North" "Desk" "Online" "Office" (2495 # 10) "Platinum" "A8" "C2" Sql.Feb 26 ].

(** A data store that is up and holds [table]: byte-wise collation, sums
    rendered as text with two decimals. *)
Definition salesStore : engine :=
  Sql.store (co := Binary.collation) (dr := Cents.driver) table.

End Samples.

(** * Properties *)

(** ** The filter builder *)

Section FilterFacts.
Import Filter.

Lemma countChar_append c s1 s2 :
  countChar c (s1 +:+ s2) = (countChar c s1 + countChar c s2)%nat.
Proof.
  induction s1 as [|a s1 IH]; simpl; [reflexivity|].
  rewrite IH. lia.
Qed.

(** Joining fragments that hold one placeholder each, with a separator
    that holds none, gives as many placeholders as fragments. *)
Lemma placeholders_join sep l :
  placeholders sep = 0%nat ->
  Forall (fun f => placeholders f = 1%nat) l ->
  placeholders (join sep l) = length l.
Proof.
  unfold placeholders, join. intros Hsep Hl.
  induction Hl as [|f l Hf Hl IH]; simpl; [reflexivity|].
  destruct l as [|g l'].
  - simpl. exact Hf.
  - rewrite !countChar_append, Hf, Hsep, IH. reflexivity.
Qed.

Lemma fragments_one_placeholder sel :
  incl sel recognized ->
  Forall (fun f => placeholders f = 1%nat) (fragmentsOf sel).
Proof.
  intros Hincl. unfold fragmentsOf. apply Forall_map, List.Forall_forall.
  intros kf Hin. apply Hincl in Hin. simpl in Hin.
  destruct Hin as [<-|[<-|[<-|[<-|[]]]]]; reflexivity.
Qed.

(** The two arrays are the fragments and the values of the active
    parameters, in the order of the [if] statements. *)
Lemma arrays_active query :
  arrays query = (fragmentsOf (active query), valuesOf query (active query)).
Proof.
  unfold arrays, pushIf, active, recognized. simpl.
  destruct (selected (prop query "region"));
    destruct (selected (prop query "product"));
    destruct (selected (prop query "channel"));
    destruct (selected (prop query "category")); reflexivity.
Qed.

Lemma active_incl query : incl (active query) recognized.
Proof. unfold active. apply incl_filter. Qed.

Lemma buildFilter_active query :
  buildFilter query =
  {| whereClause :=
       match active query with
       | [] => ""
       | _ :: _ => "WHERE " +:+ join " AND " (fragmentsOf (active query))
       end;
     params := valuesOf query (active query) |}.
Proof.
  unfold buildFilter. rewrite arrays_active.
  destruct (active query); reflexivity.
Qed.

(** The guard on a text value: it passes unless the text is empty or is
    ['All']; an absent parameter reads as [undefined] and does not pass. *)
Lemma selected_text s :
  selected (JStr s) = true <-> s <> "" /\ s <> "All".
Proof.
  unfold selected, truthy, strictNeqStr.
  rewrite andb_true_iff, !negb_true_iff, !String.eqb_neq. reflexivity.
Qed.

Lemma selected_absent (query : jsobject) k :
  query !! k = None -> selected (prop query k) = false.
Proof. unfold prop. now intros ->. Qed.

Lemma arrays_agree q1 q2 : agree q1 q2 -> arrays q1 = arrays q2.
Proof.
  intros H. unfold arrays, pushIf, prop.
  rewrite (H "region"), (H "product"), (H "channel"), (H "category");
    simpl; auto 10.
Qed.

End FilterFacts.

Section FilterClaims.
Import Filter.

Lemma arrays_same_selection q1 q2 :
  (forall k, In k (List.map fst recognized) ->
     selected (prop q1 k) = selected (prop q2 k)
     /\ (selected (prop q1 k) = true -> prop q1 k = prop q2 k)) ->
  arrays q1 = arrays q2.
Proof.
  intros H. unfold arrays, pushIf.
  destruct (H "region") as [Hr Hr']; [simpl; auto|].
  destruct (H "product") as [Hp Hp']; [simpl; auto|].
  destruct (H "channel") as [Hc Hc']; [simpl; auto|].
  destruct (H "category") as [Hg Hg']; [simpl; auto 10|].
  rewrite <- Hr, <- Hp, <- Hc, <- Hg.
  destruct (selected (prop q1 "region"));
    destruct (selected (prop q1 "product"));
    destruct (selected (prop q1 "channel"));
    destruct (selected (prop q1 "category"));
    rewrite <- ?Hr', <- ?Hp', <- ?Hc', <- ?Hg' by reflexivity; reflexivity.
Qed.

Lemma prefix_append s t : String.prefix s (s +:+ t) = true.
Proof. induction s as [|a s IH]; simpl; [destruct t; reflexivity|]. 
  destruct (ascii_dec a a); [exact IH | congruence].
Qed.

(** C1, as the code has it: for every query object, [buildFilter] returns
    a clause with as many [?] placeholders as there are parameters; the
    parameters are the values of region, product, channel, category, in
    that order, restricted to those that are truthy (present and not the
    empty string) and not ['All']; their fragments are joined with
    [' AND ']; and the clause is empty or begins with ['WHERE ']. *)
Theorem buildFilter_wellFormed (query : jsobject) : wellFormed active query.
Proof.
  unfold wellFormed. rewrite buildFilter_active. simpl.
  pose proof (fragments_one_placeholder (active query) (active_incl query)) as Hone.
  assert (Hlen : length (valuesOf query (active query))
                 = length (fragmentsOf (active query))).
  { unfold valuesOf, fragmentsOf. now rewrite !length_map. }
  destruct (active query) as [|kf sel] eqn:Hsel.
  - repeat split; auto.
  - repeat split.
    + unfold placeholders in *. rewrite countChar_append.
      change (countChar "?" "WHERE ") with 0%nat.
      rewrite Hlen. simpl Nat.add.
      apply (placeholders_join " AND " _ eq_refl Hone).
    + right. apply prefix_append.
Qed.

(** C1, as written, fails: a parameter that is present with the empty
    string as its value (as in [?region=]) is not ['All'], yet it adds no
    fragment and no parameter. *)
Lemma buildFilter_not_wellFormed_presentNotAll :
  ~ wellFormed presentNotAll {[ "region" := JStr "" ]}.
Proof.
  unfold wellFormed. intros (_ & Hparams & _).
  vm_compute in Hparams. discriminate Hparams.
Qed.

(** C5: query objects that agree on region, product, channel and category
    get the same pair from [buildFilter]; in particular a parameter outside
    these four (a customer tier, say) changes nothing. *)
Theorem buildFilter_agree (q1 q2 : jsobject) :
  agree q1 q2 ->
  buildFilter q1 = buildFilter q2
  /\ forall k v, ~ In k (List.map fst recognized) ->
       buildFilter (<[k := v]> q1) = buildFilter q2.
Proof.
  intros H.
  assert (Hext : forall a b, agree a b -> buildFilter a = buildFilter b).
  { intros a b Hab. unfold buildFilter. now rewrite (arrays_agree a b Hab). }
  split; [now apply Hext|].
  intros k v Hk. apply Hext. intros k' Hk'.
  rewrite lookup_insert_ne; [now apply H|].
  intros ->. contradiction.
Qed.

Lemma buildFilter_agree_witness :
  agree {[ "region" := JStr "North"; "tier" := JStr "Gold" ]}
        {[ "region" := JStr "North" ]}
  /\ buildFilter {[ "region" := JStr "North"; "tier" := JStr "Gold" ]}
     = buildFilter {[ "region" := JStr "North" ]}.
Proof.
  assert (Hag : agree {[ "region" := JStr "North"; "tier" := JStr "Gold" ]}
                      {[ "region" := JStr "North" ]}).
  { intros k [<-|[<-|[<-|[<-|[]]]]]; vm_compute; reflexivity. }
  split; [exact Hag|].
  exact (proj1 (buildFilter_agree _ _ Hag)).
Defined.

(** C9: for each recognized parameter, the value ['All'] is the same as no
    value: the pair that [buildFilter] returns is the one it returns when
    the parameter is absent. *)
Theorem buildFilter_All_absent (query : jsobject) (p : string) :
  In p (List.map fst recognized) ->
  buildFilter (<[p := JStr "All"]> query) = buildFilter (delete p query).
Proof.
  intros Hp. unfold buildFilter.
  rewrite (arrays_same_selection (<[p := JStr "All"]> query) (delete p query));
    [reflexivity|].
  intros k _. unfold prop.
  destruct (decide (p = k)) as [->|Hne].
  - rewrite lookup_insert_eq, lookup_delete_eq. split; [reflexivity|].
    intros Hsel. vm_compute in Hsel. discriminate Hsel.
  - rewrite lookup_insert_ne, lookup_delete_ne by assumption. auto.
Qed.

Lemma buildFilter_All_absent_witness :
  In "channel" (List.map fst recognized)
  /\ buildFilter (<["channel" := JStr "All"]> {[ "region" := JStr "North" ]})
     = buildFilter (delete "channel" {[ "region" := JStr "North" ]}).
Proof.
  assert (Hin : In "channel" (List.map fst recognized)) by (simpl; auto).
  split; [exact Hin|].
  exact (buildFilter_All_absent _ _ Hin).
Defined.

End FilterClaims.

(** ** The query executor *)

Section ExecFacts.
Import Exec.
Variable db : engine.

(** The three ways a call of [queryDatabase] goes. *)
Lemma queryDatabase_resolved sql ps w rows :
  connect db (attempts w) = Resolved tt ->
  execute db (attempts w) sql ps = Resolved rows ->
  queryDatabase db sql ps w =
  ({| attempts := S (attempts w);
      trace := (trace w ++ [ Acquired (attempts w);
                            ConsoleLog ["Executing SQL:"; preview sql];
                            Executed (attempts w) sql ps;
                            Ended (attempts w) ])%list |},
   inr rows).
Proof.
  intros Hc He.
  unfold queryDatabase, queryDatabaseBody, tryFinally, tryCatch, mbind, M_bind,
    bind, lift, createConnection, connectionExecute.
  simpl. rewrite Hc. simpl. rewrite He. simpl.
  unfold emit. simpl. rewrite <- !app_assoc. reflexivity.
Qed.

Lemma queryDatabase_execute_rejected sql ps w e :
  connect db (attempts w) = Resolved tt ->
  execute db (attempts w) sql ps = Rejected e ->
  queryDatabase db sql ps w =
  ({| attempts := S (attempts w);
      trace := (trace w ++ [ Acquired (attempts w);
                            ConsoleLog ["Executing SQL:"; preview sql];
                            Executed (attempts w) sql ps;
                            ConsoleError ["CRITICAL: Database Query Error:"; message e];
                            Ended (attempts w) ])%list |},
   inl (Error failedToFetch)).
Proof.
  intros Hc He.
  unfold queryDatabase, queryDatabaseBody, tryFinally, tryCatch, mbind, M_bind,
    bind, lift, createConnection, connectionExecute.
  simpl. rewrite Hc. simpl. rewrite He. simpl.
  unfold emit. simpl. rewrite <- !app_assoc. reflexivity.
Qed.

Lemma queryDatabase_connect_rejected sql ps w e :
  connect db (attempts w) = Rejected e ->
  queryDatabase db sql ps w =
  ({| attempts := S (attempts w);
      trace := (trace w ++ [ AcquireFailed e;
                            ConsoleError ["CRITICAL: Database Query Error:"; message e] ])%list |},
   inl (Error failedToFetch)).
Proof.
  intros Hc.
  unfold queryDatabase, queryDatabaseBody, tryFinally, tryCatch, mbind, M_bind,
    bind, lift, createConnection, connectionExecute.
  simpl. rewrite Hc. simpl.
  unfold emit. simpl. rewrite <- !app_assoc. reflexivity.
Qed.

End ExecFacts.

Section ExecClaims.
Import Exec.

(** C3: in every call of [queryDatabase], a connection that was acquired
    is released: [connection.end()] is the last thing the call does, after
    the statement has run or has thrown, and the rows or the error reach
    the caller only then.  When no connection could be acquired there is
    none to release, and the call throws. *)
Theorem queryDatabase_releases (db : engine) (sql : string) (ps : list jsval) (w : world) :
  let n := attempts w in
  let out := queryDatabase db sql ps w in
  match connect db n with
  | Resolved _ =>
      (exists evs,
          trace (fst out) = (trace w ++ Acquired n :: evs ++ [Ended n])%list
          /\ acquired evs = 0%nat /\ released evs = 0%nat)
      /\ match execute db n sql ps with
         | Resolved rows => snd out = inr rows
         | Rejected _ => snd out = inl (Error failedToFetch)
         end
  | Rejected _ =>
      (exists evs,
          trace (fst out) = (trace w ++ evs)%list
          /\ acquired evs = 0%nat /\ released evs = 0%nat)
      /\ snd out = inl (Error failedToFetch)
  end.
Proof.
  intros n out. subst n out.
  destruct (connect db (attempts w)) as [[]|e] eqn:Hc.
  - destruct (execute db (attempts w) sql ps) as [rows|e] eqn:He.
    + rewrite (queryDatabase_resolved db sql ps w rows Hc He). simpl.
      split; [|reflexivity]. eexists [_; _]. repeat split.
    + rewrite (queryDatabase_execute_rejected db sql ps w e Hc He). simpl.
      split; [|reflexivity]. eexists [_; _; _]. repeat split.
  - rewrite (queryDatabase_connect_rejected db sql ps w e Hc). simpl.
    split; [|reflexivity]. eexists. repeat split.
Qed.

End ExecClaims.

(** Closed equations are decided by evaluation. *)
Ltac by_evaluation :=
  match goal with
  | |- ?l = ?r => vm_cast_no_check (@eq_refl _ r)
  end.

(** ** The endpoint handlers *)

Section HandlerFacts.
Import Exec Handlers.
Context {rt : JsRuntime}.
Variable db : engine.

Ltac query_cases :=
  match goal with
  | |- context [queryDatabase ?d ?sql ?ps ?w] =>
      let Hc := fresh "Hc" in
      let He := fresh "He" in
      let n := eval simpl in (attempts w) in
      destruct (connect d n) as [[]|?] eqn:Hc;
      [ destruct (execute d n sql ps) as [?|?] eqn:He;
        [ rewrite (queryDatabase_resolved d sql ps w _ Hc He)
        | rewrite (queryDatabase_execute_rejected d sql ps w _ Hc He) ]
      | rewrite (queryDatabase_connect_rejected d sql ps w _ Hc) ]
  end.

Ltac unhealthy Hh :=
  match goal with
  | Hc : connect ?d ?n = Rejected _ |- _ =>
      destruct (Hh n) as [Hcn _]; rewrite Hcn in Hc; discriminate Hc
  | He : execute ?d ?n ?sql ?ps = Rejected _ |- _ =>
      destruct (Hh n) as [_ Hex]; destruct (Hex sql ps) as [? Hr];
      rewrite Hr in He; discriminate He
  end.

Lemma chartHandler_cases sql query :
  let f := Filter.buildFilter query in
  chartHandler db sql query start =
  match connect db 0 with
  | Resolved _ =>
      match execute db 0 (sql (Filter.whereClause f)) (Filter.params f) with
      | Resolved rows => 
         ({| attempts := 1; trace := [ Acquired 0;
                            ConsoleLog ["Executing SQL:"; preview (sql (Filter.whereClause f))];
                            Executed 0 (sql (Filter.whereClause f)) (Filter.params f);
                            Ended 0; Responded 200 (chartBody rows) ] |}, inr tt)
      | Rejected e => 
         ({| attempts := 1; trace := [ Acquired 0;
                            ConsoleLog ["Executing SQL:"; preview (sql (Filter.whereClause f))];
                            Executed 0 (sql (Filter.whereClause f)) (Filter.params f);
                            ConsoleError ["CRITICAL: Database Query Error:"; message e];
                            Ended 0; Responded 500 {[ "message" := JStr failedToFetch ]} ] |}, inr tt)
      end
  | Rejected e =>
         ({| attempts := 1; trace := [ AcquireFailed e;
                            ConsoleError ["CRITICAL: Database Query Error:"; message e];
                            Responded 500 {[ "message" := JStr failedToFetch ]} ] |}, inr tt)
  end.
Proof.
  intros f. unfold chartHandler, tryCatch, mbind, M_bind, bind. fold f.
  query_cases; reflexivity.
Qed.

Lemma handler_chart c : handler db (Chart c) = chartHandler db (chartSql c).
Proof. destruct c; reflexivity. Qed.

(** C7: for each chart endpoint, when the statement returns rows, the
    response body is [{labels, data}]: two arrays as long as the rows,
    [labels[i]] the [label] of row [i] and [data[i]] the [parseFloat] of its
    [value], in the order of the rows. *)
Theorem chart_response (c : chart) (query : jsobject) (rows : list row) :
  let f := Filter.buildFilter query in
  connect db 0 = Resolved tt ->
  execute db 0 (chartSql c (Filter.whereClause f)) (Filter.params f) = Resolved rows ->
  exists labels data,
    response (trace (serve db (Chart c) query))
      = Some (200%nat, {[ "labels" := JArr labels; "data" := JArr data ]})
    /\ length labels = length rows
    /\ length data = length rows
    /\ forall i r, rows !! i = Some r ->
         labels !! i = Some (prop r "label")
         /\ data !! i = Some (Js.parseFloat (prop r "value")).
Proof.
  intros f Hc He.
  exists (List.map (fun r => prop r "label") rows),
         (List.map (fun r => Js.parseFloat (prop r "value")) rows).
  unfold serve. rewrite handler_chart, chartHandler_cases. fold f.
  rewrite Hc, He. simpl. split; [reflexivity|].
  rewrite !length_map. split; [reflexivity|]. split; [reflexivity|].
  intros i r Hr. rewrite !list_lookup_fmap, Hr. split; reflexivity.
Qed.

Lemma queryDatabase_attempts sql ps w :
  attempts (fst (queryDatabase db sql ps w)) = S (attempts w).
Proof. query_cases; reflexivity. Qed.

(** C4, as the code has it: every call of [queryDatabase] asks for one
    connection, and a request makes one call on a chart endpoint, up to two
    on [/api/kpis] and up to four on [/api/metadata] (a call that fails ends
    the request); the connections acquired are all released before the
    response is sent; when the data store is available their number is
    the number of calls: one, two and four. *)
Theorem connections_per_request (e : endpoint) (query : jsobject) :
  let w := serve db e query in
  (forall sql ps w0, attempts (fst (queryDatabase db sql ps w0)) = S (attempts w0))
  /\ (1 <= attempts w <= calls e)%nat
  /\ (acquired (trace w) <= attempts w)%nat
  /\ released (trace w) = acquired (trace w)
  /\ (exists pre st body,
        trace w = (pre ++ [Responded st body])%list
        /\ acquired pre = acquired (trace w)
        /\ released pre = acquired (trace w))
  /\ (healthy db -> attempts w = calls e /\ acquired (trace w) = calls e).
Proof.
  intros w. split; [apply queryDatabase_attempts|]. subst w.
  destruct e as [|c|]; [| destruct c |];
    unfold serve, handler, kpisHandler, metadataHandler, salesHandler,
      productsHandler, regionsHandler, channelsHandler, tiersHandler,
      chartHandler, tryCatch, mbind, M_bind, bind;
    repeat query_cases; simpl;
    try (destruct (_ !! 0%nat); simpl);
    (split; [lia|]); (split; [vm_compute; lia|]); (split; [reflexivity|]);
    (split;
     [ match goal with
       | |- exists pre st body, ?t = _ /\ _ =>
           exists (removelast t); simpl; eexists _, _; repeat split
       end
     | intros Hh; first [ unhealthy Hh | split; reflexivity ] ]).
Qed.

Lemma lookup_last {A} (l : list A) (d : A) :
  l <> [] -> l !! (length l - 1)%nat = Some (List.last l d).
Proof.
  induction l as [|x l IH]; [congruence|]. intros _.
  destruct l as [|y l]; [reflexivity|].
  replace (length (x :: y :: l) - 1)%nat with (S (length (y :: l) - 1))
    by (simpl; lia).
  change (List.last (x :: y :: l) d) with (List.last (y :: l) d).
  change ((y :: l) !! (length (y :: l) - 1)%nat = Some (List.last (y :: l) d)).
  apply IH. discriminate.
Qed.

Lemma last_of_map {A B} (f : A -> B) (l : list A) (d : A) (d' : B) :
  l <> [] -> List.last (List.map f l) d' = f (List.last l d).
Proof.
  induction l as [|x l IH]; [congruence|]. intros _.
  destruct l as [|y l]; [reflexivity|].
  change (List.last (List.map f (y :: l)) d' = f (List.last (y :: l) d)).
  apply IH. discriminate.
Qed.

(** The growth figure of the handler is the first-to-last percentage
    change of the monthly revenues, in the order of the rows. *)
Lemma growthOf_firstToLast (rows : list row) :
  growthOf rows = firstToLast (List.map (fun r => prop r "monthly_revenue") rows).
Proof.
  destruct rows as [|r0 [|r1 rows]]; [reflexivity | reflexivity|].
  unfold growthOf, firstToLast.
  change (2 <=? length (r0 :: r1 :: rows))%nat with true.
  rewrite (lookup_last (r0 :: r1 :: rows) r0) by discriminate.
  cbn [lookup list_lookup List.map].
  change (prop r0 "monthly_revenue" :: prop r1 "monthly_revenue"
            :: List.map (fun r => prop r "monthly_revenue") rows)
    with (List.map (fun r => prop r "monthly_revenue") (r0 :: r1 :: rows)).
  rewrite (last_of_map (fun r : row => prop r "monthly_revenue") (r0 :: r1 :: rows) r0 JUndefined)
    by discriminate.
  reflexivity.
Qed.

Lemma growthOf_first_last (rows : list row) (r0 rl : row) :
  (2 <= length rows)%nat ->
  rows !! 0%nat = Some r0 ->
  rows !! (length rows - 1)%nat = Some rl ->
  growthOf rows =
    if Binary64.gt (Js.toNumber (prop r0 "monthly_revenue")) (Num 0)
    then Js.parseFloatToFixed1
           (percentChange (Js.toNumber (prop r0 "monthly_revenue"))
              (Js.toNumber (prop rl "monthly_revenue")))
    else JNum 0.
Proof.
  intros Hlen H0 Hl. unfold growthOf.
  apply Nat.leb_le in Hlen. rewrite Hlen, H0, Hl. reflexivity.
Qed.

Lemma growthOf_short (rows : list row) :
  (length rows < 2)%nat -> growthOf rows = JNum 0.
Proof.
  intros Hlen. unfold growthOf.
  apply Nat.leb_gt in Hlen. now rewrite Hlen.
Qed.

Lemma kpisObject_growth (k : row) (g : jsval) : kpisObject k g !! "growth" = Some g.
Proof.
  unfold kpisObject.
  rewrite !lookup_insert_ne by discriminate. apply lookup_insert_eq.
Qed.

Lemma kpis_response (query : jsobject) (k : row) (rest rows : list row) :
  let f := Filter.buildFilter query in
  connect db 0 = Resolved tt ->
  execute db 0 (Statements.kpisSql (Filter.whereClause f)) (Filter.params f)
    = Resolved (k :: rest) ->
  connect db 1 = Resolved tt ->
  execute db 1 (Statements.growthSql (Filter.whereClause f)) (Filter.params f)
    = Resolved rows ->
  response (trace (serve db Kpis query))
    = Some (200%nat, kpisObject k (growthOf rows)).
Proof.
  intros f Hc0 He0 Hc1 He1.
  unfold serve, handler, kpisHandler, tryCatch, mbind, M_bind, bind. fold f.
  rewrite (queryDatabase_resolved db _ _ start _ Hc0 He0).
  match goal with
  | |- context [queryDatabase db ?sql ?ps ?w] =>
      rewrite (queryDatabase_resolved db sql ps w rows Hc1 He1)
  end.
  reflexivity.
Qed.

End HandlerFacts.

(** ** Rounding to binary64 *)

Section Binary64Facts.
Import Binary64.
Local Open Scope Q_scope.

Lemma nearestEven_bounds (x : Q) :
  (Qfloor x <= nearestEven x <= Qfloor x + 1)%Z.
Proof.
  unfold nearestEven.
  destruct (Qcompare (x - inject_Z (Qfloor x)) (1 # 2)); [|lia|lia].
  destruct (Z.even (Qfloor x)); lia.
Qed.

Lemma nearestEven_nonneg (x : Q) : (0 <= x)%Q -> (0 <= nearestEven x)%Z.
Proof.
  intros Hx. pose proof (nearestEven_bounds x) as [Hlo _].
  pose proof (Qfloor_resp_le 0 x Hx) as Hf. change (Qfloor 0) with 0%Z in Hf. lia.
Qed.

Lemma nearestEven_Z (z : Z) : nearestEven (inject_Z z) = z.
Proof.
  unfold nearestEven. rewrite Qfloor_Z.
  destruct (Qcompare_spec (inject_Z z - inject_Z z) (1 # 2)) as [H|H|H];
    [exfalso; lra | reflexivity | exfalso; lra].
Qed.

Lemma nearestEven_mono (x y : Q) : (x <= y)%Q -> (nearestEven x <= nearestEven y)%Z.
Proof.
  intros Hxy.
  pose proof (Qfloor_resp_le x y Hxy) as Hf.
  destruct (Z.eq_dec (Qfloor x) (Qfloor y)) as [Heq|Hne].
  - unfold nearestEven. rewrite <- Heq.
    destruct (Qcompare_spec (x - inject_Z (Qfloor x)) (1 # 2)) as [Hx|Hx|Hx];
      destruct (Qcompare_spec (y - inject_Z (Qfloor x)) (1 # 2)) as [Hy|Hy|Hy];
      try (destruct (Z.even (Qfloor x))); try lia; exfalso; lra.
  - pose proof (nearestEven_bounds x). pose proof (nearestEven_bounds y). lia.
Qed.

Lemma pow2_pos (e : Z) : (0 < 2 ^ e)%Q.
Proof. now apply Qpower_0_lt. Qed.

Lemma pow2_plus (a b : Z) : (2 ^ (a + b) == 2 ^ a * 2 ^ b)%Q.
Proof. now apply Qpower_plus. Qed.

Lemma pow2_le (a b : Z) : (a <= b)%Z -> (2 ^ a <= 2 ^ b)%Q.
Proof. intros H. apply Qpower_le_compat_l; [exact H | discriminate]. Qed.

Lemma pow2_pred (e : Z) : (2 ^ e == 2 * 2 ^ (e - 1))%Q.
Proof.
  replace e with (1 + (e - 1))%Z at 1 by lia. rewrite pow2_plus. reflexivity.
Qed.

Lemma pow2_inject (k : Z) : (0 <= k)%Z -> (inject_Z (2 ^ k) == 2 ^ k)%Q.
Proof. intros H. now rewrite Zpower_Qpower. Qed.

(** A positive rational between powers of two given by the sizes of its
    numerator and denominator. *)
Lemma log2_bounds (a : Q) :
  (0 < a)%Q ->
  let e0 := (Z.log2 (Qnum a) - Z.log2 (Zpos (Qden a)) - 52)%Z in
  (2 ^ 51 * 2 ^ e0 < a)%Q /\ (a < 2 ^ 53 * 2 ^ e0)%Q.
Proof.
  intros Ha e0. destruct a as [n d].
  assert (Hn : (0 < n)%Z) by (unfold Qlt in Ha; simpl in Ha; lia).
  change (Qnum (n # d)) with n in e0. change (Qden (n # d)) with d in e0.
  set (k := Z.log2 n) in *. set (l := Z.log2 (Zpos d)) in *.
  destruct (Z.log2_spec n Hn) as [Hn1 Hn2]. fold k in Hn1, Hn2.
  destruct (Z.log2_spec (Zpos d) eq_refl) as [Hd1 Hd2]. fold l in Hd1, Hd2.
  assert (Hk : (0 <= k)%Z) by apply Z.log2_nonneg.
  assert (Hl : (0 <= l)%Z) by apply Z.log2_nonneg.
  rewrite Zle_Qle, pow2_inject in Hn1, Hd1 by lia.
  rewrite Zlt_Qlt, pow2_inject in Hn2, Hd2 by lia.
  assert (Hq : (n # d == inject_Z n / inject_Z (Zpos d))%Q) by apply Qmake_Qdiv.
  assert (Hdpos : (0 < inject_Z (Zpos d))%Q).
  { change 0%Q with (inject_Z 0). rewrite <- Zlt_Qlt. lia. }
  pose proof (pow2_pos k) as Pk. pose proof (pow2_pos l) as Pl.
  pose proof (pow2_pos e0) as Pe.
  assert (E1 : (2 ^ k == 2 ^ 52 * 2 ^ e0 * 2 ^ l)%Q).
  { rewrite <- !pow2_plus. replace (52 + e0 + l)%Z with k by (subst e0; lia).
    reflexivity. }
  assert (E2 : (2 ^ Z.succ k == 2 * 2 ^ k)%Q).
  { unfold Z.succ. rewrite Z.add_comm, pow2_plus. reflexivity. }
  assert (E3 : (2 ^ Z.succ l == 2 * 2 ^ l)%Q).
  { unfold Z.succ. rewrite Z.add_comm, pow2_plus. reflexivity. }
  change (2 ^ 51)%Q with (inject_Z (2 ^ 51)). change (2 ^ 53)%Q with (inject_Z (2 ^ 53)).
  change (2 ^ 52)%Q with (inject_Z (2 ^ 52)) in E1.
  rewrite Hq. split.
  - apply Qlt_shift_div_l; [exact Hdpos|].
    apply Qlt_le_trans with (2 ^ k)%Q; [|exact Hn1].
    rewrite E1.
    setoid_replace (inject_Z (2 ^ 52) * 2 ^ e0 * 2 ^ l)%Q
      with (inject_Z (2 ^ 51) * 2 ^ e0 * (2 * 2 ^ l))%Q
 using relation Qeq by (change (inject_Z (2 ^ 52)) with (inject_Z (2 ^ 51) * 2)%Q; ring).
    apply Qmult_lt_l; [|lra].
    apply Qmult_lt_0_compat; [reflexivity | exact Pe].
  - apply Qlt_shift_div_r; [exact Hdpos|].
    apply Qlt_le_trans with (2 ^ Z.succ k)%Q; [exact Hn2|].
    rewrite E2, E1.
    setoid_replace (2 * (inject_Z (2 ^ 52) * 2 ^ e0 * 2 ^ l))%Q
      with (inject_Z (2 ^ 53) * 2 ^ e0 * 2 ^ l)%Q
 using relation Qeq by (change (inject_Z (2 ^ 53)) with (inject_Z (2 ^ 52) * 2)%Q; ring).
    apply Qmult_le_l; [|exact Hd1].
    apply Qmult_lt_0_compat; [reflexivity | exact Pe].
Qed.

(** The exponent puts a positive rational below [2^53] units, and at or
    above [2^52] units unless the units are the smallest there are. *)
Lemma exponent_spec (a : Q) :
  (0 < a)%Q ->
  (-1074 <= exponent a)%Z
  /\ (a < 2 ^ 53 * 2 ^ exponent a)%Q
  /\ (exponent a = (-1074)%Z \/ (2 ^ 52 * 2 ^ exponent a <= a)%Q).
Proof.
  intros Ha. unfold exponent.
  destruct (log2_bounds a Ha) as [Hlo Hhi].
  set (e0 := (Z.log2 (Qnum a) - Z.log2 (Zpos (Qden a)) - 52)%Z) in *.
  set (e1 := if Qle_bool (2 ^ 52) (a / 2 ^ e0) then e0 else (e0 - 1)%Z).
  assert (H1 : (2 ^ 52 * 2 ^ e1 <= a)%Q /\ (a < 2 ^ 53 * 2 ^ e1)%Q).
  { subst e1. pose proof (pow2_pos e0) as Pe.
    destruct (Qle_bool (2 ^ 52) (a / 2 ^ e0)) eqn:E.
    - apply Qle_bool_iff in E. split; [|exact Hhi].
      apply (Qmult_le_compat_r _ _ (2 ^ e0)) in E; [|lra].
      unfold Qdiv in E. rewrite <- Qmult_assoc, (Qmult_comm (/ _)), Qmult_inv_r in E by lra.
      lra.
    - assert (Hlt : (a / 2 ^ e0 < 2 ^ 52)%Q).
      { apply Qnot_le_lt. intros H. apply Qle_bool_iff in H. congruence. }
      apply (Qmult_lt_compat_r _ _ (2 ^ e0)) in Hlt; [|lra].
      unfold Qdiv in Hlt.
      rewrite <- Qmult_assoc, (Qmult_comm (/ _)), Qmult_inv_r in Hlt by lra.
      pose proof (pow2_pred e0) as Hp.
      change (2 ^ 52)%Q with (2 * 2 ^ 51)%Q. change (2 ^ 53)%Q with (2 * 2 ^ 52)%Q.
      change (2 ^ 53)%Q with (2 * 2 ^ 52)%Q in Hhi.
      split.
      + setoid_replace (2 * 2 ^ 51 * 2 ^ (e0 - 1))%Q with (2 ^ 51 * (2 * 2 ^ (e0 - 1)))%Q using relation Qeq by ring.
        rewrite <- Hp. lra.
      + setoid_replace (2 * 2 ^ 52 * 2 ^ (e0 - 1))%Q with (2 ^ 52 * (2 * 2 ^ (e0 - 1)))%Q using relation Qeq by ring.
        rewrite <- Hp. lra. }
  destruct H1 as [H1 H2].
  split; [lia|].
  destruct (Z.max_spec e1 (-1074)) as [[Hlt ->]|[Hle ->]].
  - split; [|now left].
    apply Qlt_le_trans with (2 ^ 53 * 2 ^ e1)%Q; [exact H2|].
    apply Qmult_le_l; [reflexivity|]. apply pow2_le. lia.
  - split; [exact H2 | now right].
Qed.

Lemma exponent_mono (a b : Q) :
  (0 < a)%Q -> (a <= b)%Q -> (exponent a <= exponent b)%Z.
Proof.
  intros Ha Hab.
  destruct (exponent_spec a Ha) as (La & Ua & Ba).
  destruct (exponent_spec b (Qlt_le_trans _ _ _ Ha Hab)) as (Lb & Ub & Bb).
  destruct (Z.le_gt_cases (exponent a) (exponent b)) as [H|H]; [exact H|].
  exfalso. destruct Ba as [Ba|Ba]; [lia|].
  assert (Hp : (2 ^ 53 * 2 ^ exponent b <= 2 ^ 52 * 2 ^ exponent a)%Q).
  { rewrite (pow2_pred (exponent a)).
    change (2 ^ 53)%Q with (2 ^ 52 * 2)%Q.
    setoid_replace (2 ^ 52 * (2 * 2 ^ (exponent a - 1)))%Q
      with (2 ^ 52 * 2 * 2 ^ (exponent a - 1))%Q using relation Qeq by ring.
    apply Qmult_le_l; [reflexivity|]. apply pow2_le. lia. }
  lra.
Qed.

Lemma grid_nonneg (a : Q) : (0 < a)%Q -> (0 <= grid a)%Q.
Proof.
  intros Ha. unfold grid. pose proof (pow2_pos (exponent a)) as Pe.
  apply Qmult_le_0_compat; [|lra].
  change 0%Q with (inject_Z 0). rewrite <- Zle_Qle.
  apply nearestEven_nonneg. apply Qle_shift_div_l; [exact Pe | lra].
Qed.

Lemma grid_mono (a b : Q) : (0 < a)%Q -> (a <= b)%Q -> (grid a <= grid b)%Q.
Proof.
  intros Ha Hab.
  assert (Hb : (0 < b)%Q) by lra.
  pose proof (exponent_mono a b Ha Hab) as He.
  destruct (exponent_spec a Ha) as (La & Ua & Ba).
  destruct (exponent_spec b Hb) as (Lb & Ub & Bb).
  unfold grid.
  pose proof (pow2_pos (exponent a)) as Pa. pose proof (pow2_pos (exponent b)) as Pb.
  destruct (Z.eq_dec (exponent a) (exponent b)) as [Heq|Hne].
  - rewrite <- Heq. apply Qmult_le_compat_r; [|lra].
    rewrite <- Zle_Qle. apply nearestEven_mono.
    unfold Qdiv. apply Qmult_le_compat_r; [exact Hab|].
    apply Qlt_le_weak, Qinv_lt_0_compat, Pa.
  - destruct Bb as [Bb|Bb]; [lia|].
    apply Qle_trans with (2 ^ 53 * 2 ^ exponent a)%Q.
    + apply Qmult_le_compat_r; [|lra].
      change (2 ^ 53)%Q with (inject_Z (2 ^ 53)). rewrite <- Zle_Qle.
      apply Z.le_trans with (nearestEven (inject_Z (2 ^ 53)));
        [|rewrite nearestEven_Z; apply Z.le_refl].
      apply nearestEven_mono.
      apply Qle_shift_div_r; [exact Pa|]. change (inject_Z (2 ^ 53)) with (2 ^ 53)%Q. lra.
    + apply Qle_trans with (2 ^ 52 * 2 ^ exponent b)%Q.
      * rewrite (pow2_pred (exponent b)).
        change (2 ^ 53)%Q with (2 ^ 52 * 2)%Q.
        setoid_replace (2 ^ 52 * (2 * 2 ^ (exponent b - 1)))%Q
          with (2 ^ 52 * 2 * 2 ^ (exponent b - 1))%Q using relation Qeq by ring.
        apply Qmult_le_l; [reflexivity|]. apply pow2_le. lia.
      * apply Qmult_le_compat_r; [|lra].
        change (2 ^ 52)%Q with (inject_Z (2 ^ 52)). rewrite <- Zle_Qle.
        apply Z.le_trans with (nearestEven (inject_Z (2 ^ 52)));
          [rewrite nearestEven_Z; apply Z.le_refl|].
        apply nearestEven_mono.
        apply Qle_shift_div_l; [exact Pb|]. change (inject_Z (2 ^ 52)) with (2 ^ 52)%Q. lra.
Qed.

Lemma number_le_trans (x y z : number) : le x y -> le y z -> le x z.
Proof.
  destruct x as [|[]|a], y as [|[]|b], z as [|[]|c]; simpl; try tauto.
  apply Qle_trans.
Qed.

(** Rounding keeps the sign. *)
Lemma round_nonneg (q : Q) : (0 <= q)%Q -> le (Num 0) (round q).
Proof.
  intros Hq. unfold round.
  destruct (Qcompare_spec q 0) as [H|H|H].
  - apply Qle_refl.
  - exfalso. lra.
  - unfold nearest. destruct (Qle_bool (2 ^ 1024) (grid q)); unfold le; [exact I|].
    rewrite Qred_correct. now apply grid_nonneg.
Qed.

Lemma round_nonpos (q : Q) : (q <= 0)%Q -> le (round q) (Num 0).
Proof.
  intros Hq. unfold round.
  destruct (Qcompare_spec q 0) as [H|H|H].
  - apply Qle_refl.
  - unfold nearest. destruct (Qle_bool (2 ^ 1024) (grid (- q))); unfold le; [exact I|].
    rewrite !Qred_correct.
    assert (0 <= grid (- q))%Q by (apply grid_nonneg; lra). lra.
  - exfalso. lra.
Qed.

(** Rounding keeps the order. *)
Lemma round_mono (x y : Q) : (x <= y)%Q -> le (round x) (round y).
Proof.
  intros Hxy.
  destruct (Qlt_le_dec 0 x) as [Hx|Hx].
  - (* both positive *)
    assert (Hy : (0 < y)%Q) by lra.
    unfold round.
    destruct (Qcompare_spec x 0) as [Cx|Cx|Cx]; [exfalso; lra | exfalso; lra |].
    destruct (Qcompare_spec y 0) as [Cy|Cy|Cy]; [exfalso; lra | exfalso; lra |].
    unfold nearest.
    pose proof (grid_mono x y Hx Hxy) as Hg.
    destruct (Qle_bool (2 ^ 1024) (grid y)) eqn:Ey.
    + destruct (Qle_bool (2 ^ 1024) (grid x)); exact I.
    + destruct (Qle_bool (2 ^ 1024) (grid x)) eqn:Ex.
      * apply Qle_bool_iff in Ex.
        assert (H : (2 ^ 1024 <= grid y)%Q) by (eapply Qle_trans; eassumption).
        apply Qle_bool_iff in H. congruence.
      * unfold le. now rewrite !Qred_correct.
  - destruct (Qlt_le_dec y 0) as [Hy|Hy].
    + (* both negative *)
      assert (Hx' : (x < 0)%Q) by lra.
      unfold round.
      destruct (Qcompare_spec x 0) as [Cx|Cx|Cx]; [exfalso; lra | | exfalso; lra].
      destruct (Qcompare_spec y 0) as [Cy|Cy|Cy]; [exfalso; lra | | exfalso; lra].
      unfold nearest.
      assert (Hg : (grid (- y) <= grid (- x))%Q) by (apply grid_mono; lra).
      destruct (Qle_bool (2 ^ 1024) (grid (- x))) eqn:Ex;
        [destruct (Qle_bool (2 ^ 1024) (grid (- y))); exact I|].
      destruct (Qle_bool (2 ^ 1024) (grid (- y))) eqn:Ey.
      * apply Qle_bool_iff in Ey.
        assert (H : (2 ^ 1024 <= grid (- x))%Q) by (eapply Qle_trans; eassumption).
        apply Qle_bool_iff in H. congruence.
      * unfold le. rewrite !Qred_correct. lra.
    + exact (number_le_trans _ _ _ (round_nonpos x Hx) (round_nonneg y Hy)).
Qed.

Lemma isNegative_pos (a : Q) : 0 < a -> isNegative a = false.
Proof.
  intros Ha. unfold isNegative.
  assert (H : Qle_bool 0 a = true) by (apply Qle_bool_iff; lra).
  now rewrite H.
Qed.

Lemma Qeq_bool_pos (a : Q) : 0 < a -> Qeq_bool a 0 = false.
Proof.
  intros Ha. destruct (Qeq_bool a 0) eqn:E; [|reflexivity].
  apply Qeq_bool_iff in E. exfalso. lra.
Qed.

(** The sign of a difference, of a quotient by a positive number and of a
    product with one. *)
Lemma sub_nonneg (a b : Q) : a <= b -> le (Num 0) (sub (Num b) (Num a)).
Proof. intros H. apply round_nonneg. lra. Qed.

Lemma sub_nonpos (a b : Q) : b <= a -> le (sub (Num b) (Num a)) (Num 0).
Proof. intros H. apply round_nonpos. lra. Qed.

Lemma div_nonneg (x : number) (a : Q) :
  0 < a -> le (Num 0) x -> le (Num 0) (div x (Num a)).
Proof.
  intros Ha. destruct x as [|[]|v]; simpl; try tauto.
  - intros _. now rewrite (isNegative_pos a Ha).
  - intros Hv. rewrite (Qeq_bool_pos a Ha). apply round_nonneg.
    apply Qle_shift_div_l; [exact Ha | lra].
Qed.

Lemma div_nonpos (x : number) (a : Q) :
  0 < a -> le x (Num 0) -> le (div x (Num a)) (Num 0).
Proof.
  intros Ha. destruct x as [|[]|v]; simpl; try tauto.
  - intros _. now rewrite (isNegative_pos a Ha).
  - intros Hv. rewrite (Qeq_bool_pos a Ha). apply round_nonpos.
    apply Qle_shift_div_r; [exact Ha | lra].
Qed.

Lemma mul_nonneg (x : number) (k : Q) :
  0 < k -> le (Num 0) x -> le (Num 0) (mul x (Num k)).
Proof.
  intros Hk. destruct x as [|[]|v]; simpl; try tauto.
  - intros _. now rewrite (Qeq_bool_pos k Hk), (isNegative_pos k Hk).
  - intros Hv. apply round_nonneg. apply Qmult_le_0_compat; lra.
Qed.

Lemma mul_nonpos (x : number) (k : Q) :
  0 < k -> le x (Num 0) -> le (mul x (Num k)) (Num 0).
Proof.
  intros Hk. destruct x as [|[]|v]; simpl; try tauto.
  - intros _. now rewrite (Qeq_bool_pos k Hk), (isNegative_pos k Hk).
  - intros Hv. apply round_nonpos.
    assert (0 <= (- v) * k) by (apply Qmult_le_0_compat; lra). lra.
Qed.

End Binary64Facts.

(** ** Sorting, duplicate removal and grouping *)

Section RelationalFacts.
Import Relational.
Context {A : Type}.

Lemma StronglySorted_weaken (R R' : A -> A -> Prop) (P : A -> Prop) (l : list A) :
  (forall a b, P a -> P b -> R a b -> R' a b) ->
  Forall P l -> StronglySorted R l -> StronglySorted R' l.
Proof.
  intros Himp HP Hs. induction Hs as [|a l Hs IH Ha]; [constructor|].
  apply Forall_cons_iff in HP. destruct HP as [Pa Pl].
  constructor; [now apply IH|].
  rewrite List.Forall_forall in *. intros b Hb. apply Himp; auto.
Qed.

Lemma StronglySorted_both (R1 R2 : A -> A -> Prop) (l : list A) :
  StronglySorted R1 l -> StronglySorted R2 l ->
  StronglySorted (fun a b => R1 a b /\ R2 a b) l.
Proof.
  intros H1. induction H1 as [|a l H1 IH Ha]; intros H2; [constructor|].
  apply StronglySorted_inv in H2. destruct H2 as [H2 Ha2].
  constructor; [now apply IH|].
  rewrite List.Forall_forall in *. intros b Hb. split; auto.
Qed.

Lemma StronglySorted_map {B : Type} (f : B -> A) (R : A -> A -> Prop) (l : list B) :
  StronglySorted (fun a b => R (f a) (f b)) l -> StronglySorted R (List.map f l).
Proof.
  intros Hs. induction Hs as [|a l Hs IH Ha]; simpl; constructor; [exact IH|].
  apply Forall_map. exact Ha.
Qed.

(** A list whose entries are pairwise in a symmetric relation stays so
    when it is put in another order. *)
Lemma StronglySorted_perm (R : A -> A -> Prop) (l l' : list A) :
  (forall a b, R a b -> R b a) ->
  Permutation l l' -> StronglySorted R l -> StronglySorted R l'.
Proof.
  intros Hsym Hp. induction Hp as [|x l l' Hp IH|x y l|l l' l'' Hp1 IH1 Hp2 IH2];
    intros Hs.
  - constructor.
  - apply StronglySorted_inv in Hs. destruct Hs as [Hl Hx].
    constructor; [now apply IH|].
    eapply Permutation_Forall; eassumption.
  - apply StronglySorted_inv in Hs. destruct Hs as [Hs Hy].
    apply StronglySorted_inv in Hs. destruct Hs as [Hl Hx].
    apply Forall_cons_iff in Hy. destruct Hy as [Hyx Hy].
    repeat constructor; auto.
  - auto.
Qed.

Lemma StronglySorted_firstn (R : A -> A -> Prop) n l :
  StronglySorted R l -> StronglySorted R (firstn n l).
Proof.
  revert l. induction n as [|n IH]; intros [|x l] Hs; simpl; try constructor.
  - apply IH. now apply StronglySorted_inv in Hs.
  - apply StronglySorted_inv in Hs. destruct Hs as [_ Hx].
    apply List.Forall_forall. intros y Hy.
    rewrite List.Forall_forall in Hx. apply Hx.
    rewrite <- (firstn_skipn n l). apply in_or_app. now left.
Qed.

(** In a sorted list, whatever lies beyond the first [n] entries comes
    after each of them. *)
Lemma StronglySorted_beyond (R : A -> A -> Prop) n l p q :
  StronglySorted R l -> In p (firstn n l) -> In q (skipn n l) -> R p q.
Proof.
  revert l. induction n as [|n IH]; intros [|x l] Hs Hp Hq; simpl in *; try tauto.
  apply StronglySorted_inv in Hs. destruct Hs as [Hl Hx].
  destruct Hp as [<-|Hp]; [|now apply (IH l)].
  rewrite List.Forall_forall in Hx. apply Hx.
  rewrite <- (firstn_skipn n l). apply in_or_app. now right.
Qed.

Section Sorting.
Variable le : A -> A -> bool.

Lemma insertBy_perm x l : Permutation (insertBy le x l) (x :: l).
Proof.
  induction l as [|y l IH]; simpl; [reflexivity|].
  destruct (le x y); [reflexivity|].
  rewrite IH. apply perm_swap.
Qed.

(** [ORDER BY] puts the rows in another order, nothing more. *)
Lemma sortBy_perm l : Permutation (sortBy le l) l.
Proof.
  induction l as [|x l IH]; simpl; [constructor|].
  rewrite insertBy_perm. now constructor.
Qed.

Hypothesis le_total : forall a b, le a b = true \/ le b a = true.
Hypothesis le_trans : forall a b c, le a b = true -> le b c = true -> le a c = true.

Lemma insertBy_sorted x l :
  StronglySorted (fun a b => le a b = true) l ->
  StronglySorted (fun a b => le a b = true) (insertBy le x l).
Proof.
  induction l as [|y l IH]; simpl; intros Hs.
  - constructor; constructor.
  - apply StronglySorted_inv in Hs. destruct Hs as [Hl Hy].
    destruct (le x y) eqn:Hxy.
    + constructor; [now constructor|].
      constructor; [exact Hxy|].
      eapply List.Forall_impl; [|exact Hy]. intros z Hz. exact (le_trans x y z Hxy Hz).
    + constructor; [now apply IH|].
      eapply Permutation_Forall; [symmetry; apply insertBy_perm|].
      constructor; [|exact Hy].
      destruct (le_total x y) as [H|H]; [congruence | exact H].
Qed.

(** [ORDER BY] leaves the rows in order. *)
Lemma sortBy_sorted l : StronglySorted (fun a b => le a b = true) (sortBy le l).
Proof.
  induction l as [|x l IH]; simpl; [constructor | now apply insertBy_sorted].
Qed.

End Sorting.

Lemma sortBy_map {B : Type} (f : B -> A) (le : A -> A -> bool) (l : list B) :
  sortBy le (List.map f l) = List.map f (sortBy (fun a b => le (f a) (f b)) l).
Proof.
  induction l as [|x l IH]; simpl; [reflexivity|]. rewrite IH.
  generalize (sortBy (fun a b => le (f a) (f b)) l) as s.
  induction s as [|y s IHs]; simpl; [reflexivity|].
  destruct (le (f x) (f y)); simpl; [reflexivity | now rewrite IHs].
Qed.

Lemma sortBy_ext (le le' : A -> A -> bool) (l : list A) :
  (forall a b, le a b = le' a b) -> sortBy le l = sortBy le' l.
Proof.
  intros Hext. induction l as [|x l IH]; simpl; [reflexivity|]. rewrite IH.
  generalize (sortBy le' l) as s.
  induction s as [|y s IHs]; simpl; [reflexivity|].
  rewrite Hext. destruct (le' x y); [reflexivity | now rewrite IHs].
Qed.

Section Distinct.
Variable eq : A -> A -> bool.

Lemma dedupeBy_incl l : incl (dedupeBy eq l) l.
Proof.
  induction l as [|x l IH]; simpl; [apply incl_refl|].
  destruct (existsb (eq x) (dedupeBy eq l)).
  - now apply incl_tl.
  - intros y [<-|Hy]; [now left | right; now apply IH].
Qed.

(** [DISTINCT] leaves no two rows that are the same. *)
Lemma dedupeBy_apart l : StronglySorted (fun a b => eq a b = false) (dedupeBy eq l).
Proof.
  induction l as [|x l IH]; simpl; [constructor|].
  destruct (existsb (eq x) (dedupeBy eq l)) eqn:E; [exact IH|].
  constructor; [exact IH|].
  apply List.Forall_forall. intros y Hy.
  destruct (eq x y) eqn:Exy; [|reflexivity].
  assert (H : existsb (eq x) (dedupeBy eq l) = true)
    by (apply existsb_exists; eauto).
  congruence.
Qed.

(** [DISTINCT] keeps a row for each row there was. *)
Lemma dedupeBy_covers l x :
  (forall a, eq a a = true) ->
  In x l -> exists y, In y (dedupeBy eq l) /\ eq x y = true.
Proof.
  intros Hrefl. induction l as [|z l IH]; simpl; [intros []|].
  intros [->|Hx].
  - destruct (existsb (eq x) (dedupeBy eq l)) eqn:E.
    + apply existsb_exists in E. exact E.
    + exists x. split; [now left | apply Hrefl].
  - destruct (IH Hx) as (y & Hy & Hxy).
    exists y. split; [|exact Hxy].
    destruct (existsb (eq z) (dedupeBy eq l)); [exact Hy | now right].
Qed.

End Distinct.

Lemma existsb_over_map {B : Type} (f : B -> A) (p : A -> bool) (l : list B) :
  existsb p (List.map f l) = existsb (fun b => p (f b)) l.
Proof. induction l as [|x l IH]; simpl; [reflexivity | now rewrite IH]. Qed.

Lemma existsb_pointwise (p p' : A -> bool) (l : list A) :
  (forall a, p a = p' a) -> existsb p l = existsb p' l.
Proof.
  intros Hext. induction l as [|x l IH]; simpl; [reflexivity | now rewrite Hext, IH].
Qed.

Lemma dedupeBy_map {B : Type} (f : B -> A) (eq : A -> A -> bool) (l : list B) :
  dedupeBy eq (List.map f l) = List.map f (dedupeBy (fun a b => eq (f a) (f b)) l).
Proof.
  induction l as [|x l IH]; simpl; [reflexivity|]. rewrite IH.
  rewrite existsb_over_map.
  destruct (existsb _ _); reflexivity.
Qed.

Lemma dedupeBy_ext (eq eq' : A -> A -> bool) (l : list A) :
  (forall a b, eq a b = eq' a b) -> dedupeBy eq l = dedupeBy eq' l.
Proof.
  intros Hext. induction l as [|x l IH]; simpl; [reflexivity|]. rewrite IH.
  rewrite (existsb_pointwise (eq x) (eq' x)) by (intros ?; apply Hext).
  reflexivity.
Qed.

Section Groups.
Variable eq : A -> A -> bool.
Hypothesis eq_refl' : forall a, eq a a = true.
Hypothesis eq_sym : forall a b, eq a b = eq b a.
Hypothesis eq_trans : forall a b c, eq a b = true -> eq b c = true -> eq a c = true.

Lemma addRow_heads x groups g :
  In g (addRow eq x groups) ->
  head g = Some x \/ exists g', In g' groups /\ head g = head g'.
Proof.
  induction groups as [|h groups IH]; simpl.
  - intros [<-|[]]. now left.
  - destruct h as [|y h0].
    + intros [<-|H]; [right; exists []; auto|].
      destruct (IH H) as [Hx|(g' & Hg' & Hh)]; [now left|].
      right. exists g'. auto.
    + destruct (eq x y).
      * intros [<-|H]; right; [exists (y :: h0); auto | exists g; auto].
      * intros [<-|H]; [right; exists (y :: h0); auto|].
        destruct (IH H) as [Hx|(g' & Hg' & Hh)]; [now left|].
        right. exists g'. auto.
Qed.

Lemma addRow_step x groups seen :
  StronglySorted (apartGroups eq) groups ->
  Forall (groupOf eq seen) groups ->
  (forall z, In z seen -> eq z x = true ->
     exists g y, In g groups /\ head g = Some y /\ eq x y = true) ->
  StronglySorted (apartGroups eq) (addRow eq x groups)
  /\ Forall (groupOf eq (seen ++ [x])) (addRow eq x groups)
  /\ (exists g y, In g (addRow eq x groups) /\ head g = Some y /\ eq x y = true)
  /\ (forall g, In g groups -> exists g', In g' (addRow eq x groups) /\ head g' = head g).
Proof.
  induction groups as [|h groups IH]; intros Hs Hg Hcov.
  - simpl. split; [repeat constructor|]. split; [|split].
    + repeat constructor. exists x. split; [reflexivity|].
      rewrite List.filter_app. simpl. rewrite eq_refl'.
      assert (Hnone : List.filter (fun z => eq z x) seen = []).
      { destruct (List.filter (fun z => eq z x) seen) as [|z l] eqn:E; [reflexivity|].
        assert (Hz : In z (List.filter (fun z => eq z x) seen)) by (rewrite E; now left).
        apply filter_In in Hz. destruct Hz as [Hz Hzx].
        destruct (Hcov z Hz Hzx) as (g & _ & [] & _). }
      now rewrite Hnone.
    + exists [x], x. split; [now left|]. split; [reflexivity | apply eq_refl'].
    + intros g [].
  - apply StronglySorted_inv in Hs. destruct Hs as [Hs Hh].
    apply Forall_cons_iff in Hg. destruct Hg as [(y & Hy & Hfil) Hg].
    destruct h as [|y' h0]; [discriminate Hy|].
    simpl in Hy. injection Hy as ->. simpl.
    destruct (eq x y) eqn:Exy.
    + split; [|split; [|split]].
      * constructor; [exact Hs|].
        eapply List.Forall_impl; [|exact Hh].
        intros g Hap u v Hu Hv. simpl in Hu. injection Hu as <-.
        apply Hap; [reflexivity | exact Hv].
      * constructor.
        -- exists y. split; [reflexivity|].
           rewrite List.filter_app. simpl. rewrite Exy. now rewrite <- Hfil.
        -- rewrite List.Forall_forall in *. intros g Hin.
           destruct (Hg g Hin) as (u & Hu & Hgu).
           exists u. split; [exact Hu|].
           rewrite List.filter_app. simpl.
           assert (Exu : eq x u = false).
           { destruct (eq x u) eqn:E; [|reflexivity].
             rewrite (eq_sym x y) in Exy.
             pose proof (eq_trans y x u Exy E) as Hyu.
             rewrite (Hh g Hin y u eq_refl Hu) in Hyu. discriminate Hyu. }
           rewrite Exu, app_nil_r. exact Hgu.
      * exists ((y :: h0) ++ [x])%list, y. split; [now left|]. split; [reflexivity | exact Exy].
      * intros g [<-|Hin]; [eexists; split; [now left | reflexivity]|].
        exists g. split; [now right | reflexivity].
    + assert (Hcov' : forall z, In z seen -> eq z x = true ->
                exists g u, In g groups /\ head g = Some u /\ eq x u = true).
      { intros z Hz Hzx. destruct (Hcov z Hz Hzx) as (g & u & [<-|Hin] & Hu & Hxu).
        - simpl in Hu. injection Hu as <-. congruence.
        - exists g, u. auto. }
      destruct (IH Hs Hg Hcov') as (Hs' & Hg' & (g1 & y1 & Hin1 & Hy1 & Hxy1) & Hold).
      split; [|split; [|split]].
      * constructor; [exact Hs'|].
        apply List.Forall_forall. intros g Hin u v Hu Hv.
        simpl in Hu. injection Hu as <-.
        destruct (addRow_heads x groups g Hin) as [Hx|(g' & Hin' & Hh')].
        -- rewrite Hx in Hv. injection Hv as <-. now rewrite eq_sym.
        -- rewrite List.Forall_forall in Hh.
           apply (Hh g' Hin' y v eq_refl). now rewrite <- Hh'.
      * constructor; [|exact Hg'].
        exists y. split; [reflexivity|].
        rewrite List.filter_app. simpl. rewrite Exy, app_nil_r. exact Hfil.
      * exists g1, y1. split; [now right|]. auto.
      * intros g [<-|Hin]; [eexists; split; [now left | reflexivity]|].
        destruct (Hold g Hin) as (g' & Hin' & Hh'). exists g'. split; [now right | exact Hh'].
Qed.

Lemma groupBy_fold (l seen : list A) (groups : list (list A)) :
  StronglySorted (apartGroups eq) groups ->
  Forall (groupOf eq seen) groups ->
  (forall z, In z seen -> exists g y, In g groups /\ head g = Some y /\ eq z y = true) ->
  let result := List.fold_left (fun groups x => addRow eq x groups) l groups in
  StronglySorted (apartGroups eq) result
  /\ Forall (groupOf eq (seen ++ l)) result
  /\ (forall z, In z (seen ++ l) ->
        exists g y, In g result /\ head g = Some y /\ eq z y = true).
Proof.
  revert seen groups. induction l as [|x l IH]; intros seen groups Hs Hg Hcov; simpl.
  - rewrite app_nil_r. auto.
  - replace (seen ++ x :: l)%list with ((seen ++ [x]) ++ l)%list
      by now rewrite <- app_assoc.
    assert (Hcovx : forall z, In z seen -> eq z x = true ->
              exists g y, In g groups /\ head g = Some y /\ eq x y = true).
    { intros z Hz Hzx. destruct (Hcov z Hz) as (g & y & Hin & Hy & Hzy).
      exists g, y. split; [exact Hin|]. split; [exact Hy|].
      rewrite eq_sym in Hzx. exact (eq_trans x z y Hzx Hzy). }
    destruct (addRow_step x groups seen Hs Hg Hcovx) as (Hs' & Hg' & Hnew & Hold).
    apply IH; [exact Hs' | exact Hg'|].
    intros z Hz. apply in_app_or in Hz. destruct Hz as [Hz|[<-|[]]].
    + destruct (Hcov z Hz) as (g & y & Hin & Hy & Hzy).
      destruct (Hold g Hin) as (g' & Hin' & Hh'). exists g', y.
      split; [exact Hin'|]. split; [congruence | exact Hzy].
    + exact Hnew.
Qed.

(** [GROUP BY] puts the rows in groups: no two groups are the same, each
    group holds the rows that are the same as its first row, and every row
    has its group. *)
Lemma groupBy_spec (l : list A) :
  StronglySorted (apartGroups eq) (groupBy eq l)
  /\ Forall (groupOf eq l) (groupBy eq l)
  /\ (forall z, In z l ->
        exists g y, In g (groupBy eq l) /\ head g = Some y /\ eq z y = true).
Proof.
  apply (groupBy_fold l [] []); [constructor | constructor | intros z []].
Qed.

End Groups.

Lemma addRow_ext (eq eq' : A -> A -> bool) x groups :
  (forall a b, eq a b = eq' a b) -> addRow eq x groups = addRow eq' x groups.
Proof.
  intros Hext. induction groups as [|[|y g] groups IH]; simpl; [reflexivity|..].
  - now rewrite IH.
  - rewrite Hext, IH. reflexivity.
Qed.

Lemma groupBy_ext (eq eq' : A -> A -> bool) (l : list A) :
  (forall a b, eq a b = eq' a b) -> groupBy eq l = groupBy eq' l.
Proof.
  intros Hext. unfold groupBy. generalize (@nil (list A)) as groups.
  induction l as [|x l IH]; intros groups; simpl; [reflexivity|].
  rewrite (addRow_ext eq eq' x groups Hext). apply IH.
Qed.

End RelationalFacts.

(** ** The statements over the sales table *)

Section SqlFacts.
Import Sql Relational.
Context {co : Collation}.

Lemma same_refl a : same a a = true.
Proof. unfold same. destruct (leb_total a a) as [H|H]; now rewrite H. Qed.

Lemma same_sym a b : same a b = same b a.
Proof. unfold same. apply andb_comm. Qed.

Lemma same_trans a b c : same a b = true -> same b c = true -> same a c = true.
Proof.
  unfold same. rewrite !andb_true_iff. intros [Hab Hba] [Hbc Hcb].
  split; eauto using leb_trans.
Qed.

Lemma before_trans a b c : before a b -> before b c -> before a c.
Proof.
  intros [Hab Hba] [Hbc Hcb]. split.
  - exact (leb_trans a b c Hab Hbc).
  - destruct (leb c a) eqn:Hca; [|reflexivity].
    rewrite (leb_trans c a b Hca Hab) in Hcb. discriminate Hcb.
Qed.

(** Texts in order that are not the same are strictly in order. *)
Lemma leb_apart_before a b : leb a b = true -> same a b = false -> before a b.
Proof.
  unfold same, before. intros Hab Hs. rewrite Hab in Hs. simpl in Hs. auto.
Qed.

Lemma Zleb_Qle_bool (x y : Z) : Z.leb x y = Qle_bool (inject_Z x) (inject_Z y).
Proof. unfold Qle_bool. simpl. now rewrite !Z.mul_1_r. Qed.

Lemma Qle_bool_total (p q : Q) : Qle_bool p q = true \/ Qle_bool q p = true.
Proof.
  rewrite !Qle_bool_iff. destruct (Qlt_le_dec p q) as [H|H]; [left | right]; lra.
Qed.

Lemma Qle_bool_trans (p q r : Q) :
  Qle_bool p q = true -> Qle_bool q r = true -> Qle_bool p r = true.
Proof. rewrite !Qle_bool_iff. apply Qle_trans. Qed.

(** The order of [ORDER BY] compares any two values, and is transitive. *)
Lemma valueLeb_total (a b : value) : valueLeb a b = true \/ valueLeb b a = true.
Proof.
  destruct a, b; simpl; auto using leb_total, Qle_bool_total;
    rewrite !Zleb_Qle_bool; apply Qle_bool_total.
Qed.

Lemma valueLeb_trans (a b c : value) :
  valueLeb a b = true -> valueLeb b c = true -> valueLeb a c = true.
Proof.
  destruct a, b, c; simpl; try (intros; congruence);
    rewrite ?Zleb_Qle_bool; eauto using leb_trans, Qle_bool_trans.
Qed.

Lemma columnsOf_cons (kf : string * string) (sel : list (string * string)) :
  columnsOf (kf :: sel)
  = match fragmentColumn (snd kf) with
    | Some c => c :: columnsOf sel
    | None => columnsOf sel
    end.
Proof. reflexivity. Qed.

(** The tests of the parsed clause are the conjunction that the fragments
    of [buildFilter] stand for. *)
Lemma columnsOf_holds (sel : list (string * string)) (vals : list jsval) (r : sale) :
  incl sel Filter.recognized ->
  holds (List.map snd sel) vals r = satisfies (columnsOf sel) vals r.
Proof.
  revert vals. induction sel as [|kf sel IH]; intros vals Hincl; [reflexivity|].
  assert (Hkf : In kf Filter.recognized) by (apply Hincl; now left).
  assert (Hsel : incl sel Filter.recognized) by (intros x Hx; apply Hincl; now right).
  simpl in Hkf.
  rewrite columnsOf_cons.
  destruct Hkf as [<-|[<-|[<-|[<-|[]]]]];
    (destruct vals as [|v vals]; [reflexivity|]);
    cbn [List.map snd holds fragmentColumn String.eqb Ascii.eqb Bool.eqb satisfies];
    now rewrite IH.
Qed.

Lemma filter_all {A} (f : A -> bool) (l : list A) :
  (forall x, f x = true) -> List.filter f l = l.
Proof.
  intros Hf. induction l as [|x l IH]; simpl; [reflexivity|].
  now rewrite Hf, IH.
Qed.

(** The rows that the parsed clause selects are those of [fromWhere]. *)
Lemma where_rows (query : jsobject) (table : list sale) :
  List.filter
    (satisfies (columnsOf (Filter.active query))
       (Filter.params (Filter.buildFilter query))) table
  = fromWhere query table.
Proof.
  unfold fromWhere. rewrite arrays_active, buildFilter_active.
  cbn [Filter.params]. apply List.filter_ext. intros r.
  symmetry. apply columnsOf_holds, active_incl.
Qed.

Lemma active_choice (query : jsobject) :
  In (Filter.active query) (Filter.choices Filter.recognized).
Proof.
  unfold Filter.active, Filter.recognized.
  cbn [List.filter fst].
  destruct (Filter.selected (prop query "region"));
    destruct (Filter.selected (prop query "product"));
    destruct (Filter.selected (prop query "channel"));
    destruct (Filter.selected (prop query "category"));
    cbn; auto 20.
Qed.

Lemma columnsOf_length (sel : list (string * string)) :
  In sel (Filter.choices Filter.recognized) -> length (columnsOf sel) = length sel.
Proof.
  cbn. intros H.
  repeat (destruct H as [<-|H]; [reflexivity|]). destruct H.
Qed.

Section Totals.
Variable key : sale -> string.

Lemma total_app k rows1 rows2 :
  (total key k (rows1 ++ rows2) == total key k rows1 + total key k rows2)%Q.
Proof.
  induction rows1 as [|r rows1 IH]; simpl; [ring|].
  destruct (same (key r) k); rewrite IH; ring.
Qed.

Lemma total_none k rows :
  (forall r, In r rows -> same (key r) k = false) -> (total key k rows == 0)%Q.
Proof.
  induction rows as [|r rows IH]; simpl; intros H; [reflexivity|].
  rewrite (H r (or_introl eq_refl)). apply IH. intros r' Hr'. apply H. now right.
Qed.

(** The sum over the rows of a group is the revenue of the rows with the
    group's key. *)
Lemma sumOf_total k rows :
  (sumOf revenue (List.filter (fun z => same (key z) k) rows) == total key k rows)%Q.
Proof.
  unfold sumOf. rewrite Qred_correct.
  induction rows as [|r rows IH]; simpl; [reflexivity|].
  destruct (same (key r) k); simpl; now rewrite IH.
Qed.

Lemma head_cons {A} (g : list A) (y : A) : head g = Some y -> exists g', g = y :: g'.
Proof. destruct g as [|z g]; simpl; [discriminate|]. intros [= ->]. now exists g. Qed.

Lemma groupOf_label rows g :
  groupOf (fun r r' => same (key r) (key r')) rows g ->
  exists y g', g = y :: g' /\ In y rows
    /\ g = List.filter (fun z => same (key z) (key y)) rows.
Proof.
  intros (y & Hy & Hg). destruct (head_cons g y Hy) as [g' ->].
  exists y, g'. split; [reflexivity|]. split; [|exact Hg].
  assert (Hin : In y (y :: g')) by now left.
  rewrite Hg in Hin. now apply filter_In in Hin.
Qed.

(** The groups that [GROUP BY] makes, each with its key and its sum, are
    the groups of the rows. *)
Lemma groups_grouped (rows : list sale) (groups : list (list sale)) :
  StronglySorted (apartGroups (fun r r' => same (key r) (key r'))) groups ->
  Forall (groupOf (fun r r' => same (key r) (key r')) rows) groups ->
  (forall z, In z rows ->
     exists g y, In g groups /\ head g = Some y /\ same (key z) (key y) = true) ->
  grouped key (List.map (summary key) groups) rows.
Proof.
  intros Hs Hg Hcov. split; [|split].
  - apply StronglySorted_map.
    eapply StronglySorted_weaken; [|exact Hg | exact Hs].
    intros g h Pg Ph Hap.
    destruct (groupOf_label rows g Pg) as (y & g' & -> & _).
    destruct (groupOf_label rows h Ph) as (z & h' & -> & _).
    exact (Hap y z eq_refl eq_refl).
  - intros k s Hin. apply in_map_iff in Hin. destruct Hin as (g & Hsum & Hin).
    rewrite List.Forall_forall in Hg.
    destruct (groupOf_label rows g (Hg g Hin)) as (y & g' & Hshape & Hy & Hfil).
    assert (Hl : labelOf key g = key y) by (rewrite Hshape; reflexivity).
    unfold summary in Hsum. injection Hsum as <- <-.
    rewrite Hl. split; [|now exists y].
    rewrite Hfil. apply sumOf_total.
  - intros z Hz. destruct (Hcov z Hz) as (g & y & Hin & Hy & Hsame).
    exists (key y), (sumOf revenue g). split; [|exact Hsame].
    apply in_map_iff. exists g. split; [|exact Hin].
    destruct (head_cons g y Hy) as [g' ->]. reflexivity.
Qed.

Lemma grouped_perm (g g' : list (string * Q)) (rows : list sale) :
  Permutation g g' -> grouped key g rows -> grouped key g' rows.
Proof.
  intros Hp (Hs & Hsum & Hcov). split; [|split].
  - apply (StronglySorted_perm apart g g'); [|exact Hp | exact Hs].
    unfold apart. intros a b. now rewrite same_sym.
  - intros k s Hin. apply Hsum. eapply Permutation_in; [symmetry|]; eassumption.
  - intros r Hr. destruct (Hcov r Hr) as (k & s & Hin & Hsame).
    exists k, s. split; [eapply Permutation_in; eassumption | exact Hsame].
Qed.

(** [GROUP BY key] on the rows, as the engine gathers them. *)
Lemma gather_grouped (rows : list sale) :
  let groups := groupBy (fun r r' => sameValues [VText (key r)] [VText (key r')]) rows in
  grouped key (List.map (summary key) groups) rows
  /\ Forall (fun g => g <> []) groups.
Proof.
  intros groups. subst groups.
  rewrite (groupBy_ext _ (fun r r' => same (key r) (key r')))
    by (intros a b; cbn; apply andb_true_r).
  destruct (groupBy_spec (fun r r' => same (key r) (key r'))
              (fun a => same_refl (key a))
              (fun a b => same_sym (key a) (key b))
              (fun a b c => same_trans (key a) (key b) (key c)) rows)
    as (Hs & Hg & Hcov).
  split; [now apply groups_grouped|].
  eapply List.Forall_impl; [|exact Hg].
  intros g (y & Hy & _) ->. discriminate Hy.
Qed.

End Totals.

(** The values of a column, made distinct and put in order. *)
Lemma distinct_values (c : sale -> string) (table : list sale) :
  distinctSorted (List.map c table)
    (List.map c
       (sortBy (fun r r' => leb (c r) (c r'))
          (dedupeBy (fun r r' => same (c r) (c r')) table))).
Proof.
  set (kept := dedupeBy (fun r r' => same (c r) (c r')) table).
  set (sorted := sortBy (fun r r' => leb (c r) (c r')) kept).
  assert (Hperm : Permutation sorted kept) by apply sortBy_perm.
  split; [|split].
  - apply StronglySorted_map.
    apply (StronglySorted_weaken
             (fun a b => leb (c a) (c b) = true /\ same (c a) (c b) = false)
             _ (fun _ => True)).
    + intros a b _ _ [Hle Hap]. now apply leb_apart_before.
    + apply List.Forall_forall. auto.
    + apply StronglySorted_both.
      * apply sortBy_sorted.
        -- intros a b. apply leb_total.
        -- intros a b d. apply leb_trans.
      * apply (StronglySorted_perm _ kept sorted);
          [|now symmetry | apply dedupeBy_apart].
        intros a b. now rewrite same_sym.
  - intros u Hu. apply in_map_iff in Hu. destruct Hu as (r & <- & Hr).
    apply in_map. apply (dedupeBy_incl (fun r r' => same (c r) (c r')) table).
    eapply Permutation_in; eassumption.
  - intros v Hv. apply in_map_iff in Hv. destruct Hv as (r & <- & Hr).
    destruct (dedupeBy_covers (fun r r' => same (c r) (c r')) table r
                (fun a => same_refl (c a)) Hr) as (y & Hy & Hsame).
    exists (c y). split; [|exact Hsame].
    apply in_map. eapply Permutation_in; [symmetry|]; eassumption.
Qed.

End SqlFacts.

(** ** The statements of server.js, from their text to their rows *)

Section StatementFacts.
Import Exec Sql Relational Statements.
Context {co : Collation}.

Ltac each_choice :=
  let l := eval vm_compute in (Filter.choices Filter.recognized) in
  change (Filter.choices Filter.recognized) with l;
  repeat (apply List.Forall_cons; [by_evaluation|]); apply List.Forall_nil.

(** The text of each statement, with the clause of any choice of
    parameters in it, is read as its plan. *)
Lemma compile_kpis :
  Forall (fun sel => compileText (kpisSql (Filter.clause sel)) = Some (kpisPlan sel))
    (Filter.choices Filter.recognized).
Proof. each_choice. Qed.

Lemma compile_growth :
  Forall (fun sel => compileText (growthSql (Filter.clause sel)) = Some (growthPlan sel))
    (Filter.choices Filter.recognized).
Proof. each_choice. Qed.

Lemma compile_products :
  Forall (fun sel => compileText (productsSql (Filter.clause sel)) = Some (productsPlan sel))
    (Filter.choices Filter.recognized).
Proof. each_choice. Qed.

Lemma compile_distinct :
  compileText (distinctSql "region") = Some (distinctPlan "region" region)
  /\ compileText (distinctSql "product_name")
     = Some (distinctPlan "product_name" product_name)
  /\ compileText (distinctSql "sales_channel")
     = Some (distinctPlan "sales_channel" sales_channel)
  /\ compileText (distinctSql "product_category")
     = Some (distinctPlan "product_category" product_category).
Proof. repeat split; by_evaluation. Qed.

Context {dr : Driver}.

Lemma run_compiled (sql : string) (p : plan) (ps : list jsval) (table : list sale) :
  compileText sql = Some p ->
  length ps = length (filters p) ->
  run table sql ps = Resolved (rowsOf p ps table).
Proof.
  unfold compileText, run. intros Hc Hl.
  destruct (parse sql) as [q|]; [|discriminate Hc].
  cbn in Hc. rewrite Hc, Hl, Nat.eqb_refl. reflexivity.
Qed.

(** A statement built from the clause of [buildFilter] runs as its plan,
    on the rows of [fromWhere]. *)
Lemma run_filtered (template : string -> string)
    (planOf : list (string * string) -> plan) :
  Forall (fun sel => compileText (template (Filter.clause sel)) = Some (planOf sel))
    (Filter.choices Filter.recognized) ->
  (forall sel, filters (planOf sel) = columnsOf sel) ->
  forall (query : jsobject) (table : list sale),
    let f := Filter.buildFilter query in
    run table (template (Filter.whereClause f)) (Filter.params f)
    = Resolved (rowsOf (planOf (Filter.active query)) (Filter.params f) table)
    /\ List.filter (satisfies (filters (planOf (Filter.active query))) (Filter.params f))
         table
       = fromWhere query table.
Proof.
  intros Hall Hf query table f. subst f. split.
  - apply run_compiled.
    + rewrite List.Forall_forall in Hall.
      rewrite buildFilter_active. exact (Hall _ (active_choice query)).
    + rewrite Hf, (columnsOf_length _ (active_choice query)), buildFilter_active.
      cbn [Filter.params]. unfold Filter.valuesOf. apply length_map.
  - rewrite Hf. apply where_rows.
Qed.

(** The totals statement gives one row, whatever the rows selected. *)
Lemma kpis_rows (sel : list (string * string)) (ps : list jsval) (table : list sale) :
  rowsOf (kpisPlan sel) ps table
  = [resultRow (kpisPlan sel) (List.filter (satisfies (columnsOf sel) ps) table)].
Proof. reflexivity. Qed.

(** The sum of a group is a fraction in lowest terms. *)
Lemma sumOf_reduced (f : sale -> Q) (rows : list sale) :
  sumOf f rows = Qred (sumOf f rows).
Proof. unfold sumOf. symmetry. apply Qred_complete, Qred_correct. Qed.

(** The top-products statement: the product groups of the selected rows,
    largest revenue first, the first five of them. *)
Lemma products_rows (sel : list (string * string)) (ps : list jsval) (table : list sale) :
  let rows := List.filter (satisfies (columnsOf sel) ps) table in
  exists top rest : list (string * Q),
    rowsOf (productsPlan sel) ps table = List.map chartRow top
    /\ grouped product_name (top ++ rest) rows
    /\ length top = Nat.min 5 (length (top ++ rest))
    /\ StronglySorted byValueDesc top
    /\ (forall p q, In p top -> In q rest -> byValueDesc p q)
    /\ Forall (fun p => snd p = Qred (snd p)) top.
Proof.
  intros rows.
  destruct (gather_grouped product_name rows) as [Hgr Hne].
  set (groups := groupBy (fun r r' => sameValues [VText (product_name r)]
                                        [VText (product_name r')]) rows) in *.
  set (sorted := sortBy (fun u v => valueLeb (summed revenue v) (summed revenue u)) groups).
  assert (Hperm : Permutation sorted groups) by apply sortBy_perm.
  assert (Hne' : Forall (fun g => g <> []) sorted)
    by (eapply Permutation_Forall; [symmetry|]; eassumption).
  assert (Hs : StronglySorted
                 (fun u v => byValueDesc (summary product_name u) (summary product_name v))
                 sorted).
  { apply (StronglySorted_weaken
             (fun u v => valueLeb (summed revenue v) (summed revenue u) = true)
             _ (fun g => g <> [])); [|exact Hne'|].
    - intros [|a u] [|b v] Hu Hv; try contradiction.
      unfold byValueDesc, summary, summed. cbn [snd valueLeb].
      intros H. now apply Qle_bool_iff.
    - apply sortBy_sorted.
      + intros a b. apply valueLeb_total.
      + intros a b c Hab Hbc. exact (valueLeb_trans _ _ _ Hbc Hab). }
  exists (List.map (summary product_name) (firstn 5 sorted)),
         (List.map (summary product_name) (skipn 5 sorted)).
  split; [|split; [|split; [|split; [|split]]]].
  - change (rowsOf (productsPlan sel) ps table)
      with (List.map (resultRow (productsPlan sel)) (firstn 5 sorted)).
    rewrite List.map_map. apply List.map_ext_in. intros u Hu.
    assert (Hin : In u sorted).
    { rewrite <- (firstn_skipn 5 sorted). apply in_or_app. now left. }
    rewrite List.Forall_forall in Hne'. specialize (Hne' u Hin).
    destruct u as [|a u]; [contradiction | reflexivity].
  - rewrite <- List.map_app, firstn_skipn.
    apply (grouped_perm product_name (List.map (summary product_name) groups));
      [|exact Hgr].
    apply Permutation_map. now symmetry.
  - rewrite <- List.map_app, firstn_skipn, !length_map. apply length_firstn.
  - apply StronglySorted_map, StronglySorted_firstn, Hs.
  - intros p q Hp Hq.
    apply in_map_iff in Hp. destruct Hp as (u & <- & Hu).
    apply in_map_iff in Hq. destruct Hq as (v & <- & Hv).
    exact (StronglySorted_beyond _ 5 sorted u v Hs Hu Hv).
  - apply Forall_map, List.Forall_forall. intros u _. apply sumOf_reduced.
Qed.

(** The statement of monthly revenue: the month groups of the selected
    rows, earliest month first. *)
Lemma growth_rows (sel : list (string * string)) (ps : list jsval) (table : list sale) :
  let rows := List.filter (satisfies (columnsOf sel) ps) table in
  exists months : list (string * Q),
    rowsOf (growthPlan sel) ps table = List.map monthRow months
    /\ grouped monthOf months rows
    /\ StronglySorted byKeyAsc months.
Proof.
  intros rows.
  destruct (gather_grouped monthOf rows) as [Hgr Hne].
  set (groups := groupBy (fun r r' => sameValues [VText (monthOf r)]
                                        [VText (monthOf r')]) rows) in *.
  set (key := onFirst (fun r => VText (monthOf r))).
  set (sorted := sortBy (fun u v => valueLeb (key u) (key v)) groups).
  assert (Hperm : Permutation sorted groups) by apply sortBy_perm.
  assert (Hne' : Forall (fun g => g <> []) sorted)
    by (eapply Permutation_Forall; [symmetry|]; eassumption).
  assert (Hgr' : grouped monthOf (List.map (summary monthOf) sorted) rows).
  { apply (grouped_perm monthOf (List.map (summary monthOf) groups)); [|exact Hgr].
    apply Permutation_map. now symmetry. }
  exists (List.map (summary monthOf) sorted).
  split; [|split; [exact Hgr'|]].
  - change (rowsOf (growthPlan sel) ps table)
      with (List.map (resultRow (growthPlan sel)) sorted).
    rewrite List.map_map. apply List.map_ext_in. intros u Hu.
    rewrite List.Forall_forall in Hne'. specialize (Hne' u Hu).
    destruct u as [|a u]; [contradiction | reflexivity].
  - apply (StronglySorted_weaken
             (fun p q => leb (fst p) (fst q) = true /\ apart p q)
             _ (fun _ => True)).
    + intros p q _ _ [Hle Hap]. now apply leb_apart_before.
    + apply List.Forall_forall. auto.
    + apply StronglySorted_both; [|apply Hgr'].
      apply StronglySorted_map.
      apply (StronglySorted_weaken
               (fun u v => valueLeb (key u) (key v) = true)
               _ (fun g => g <> [])); [|exact Hne'|].
      * intros [|a u] [|b v] Hu Hv; try contradiction. auto.
      * apply sortBy_sorted.
        -- intros a b. apply valueLeb_total.
        -- intros a b c. apply valueLeb_trans.
Qed.

(** A metadata statement: the values of its column, made distinct and put
    in order. *)
Lemma distinct_rows (name : string) (c : sale -> string) (table : list sale) :
  rowsOf (distinctPlan name c) [] table
  = List.map (valueRow name)
      (List.map c
         (sortBy (fun r r' => leb (c r) (c r'))
            (dedupeBy (fun r r' => same (c r) (c r')) table))).
Proof.
  set (key := onFirst (fun r => VText (c r))).
  change (rowsOf (distinctPlan name c) [] table)
    with (List.map (resultRow (distinctPlan name c))
            (sortBy (fun u v => valueLeb (key u) (key v))
               (dedupeBy (fun u v => sameValues [key u] [key v])
                  (List.map (fun r => [r]) (List.filter (fun _ => true) table))))).
  rewrite filter_all by reflexivity.
  rewrite dedupeBy_map, sortBy_map, !List.map_map.
  rewrite (dedupeBy_ext _ (fun r r' => same (c r) (c r')))
    by (intros a b; cbn; apply andb_true_r).
  reflexivity.
Qed.

End StatementFacts.

(** ** The endpoints over a data store that holds the sales table *)

Section SqlClaims.
Import Exec Handlers Sql Relational.
Context {rt : JsRuntime} {co : Collation} {dr : Driver}.
Variable db : engine.


Lemma column_valueRow (c : string) (l : list string) :
  column c (List.map (valueRow c) l) = JArr (List.map JStr l).
Proof.
  unfold column. f_equal. rewrite List.map_map. apply List.map_ext.
  intros v. unfold prop, valueRow. now rewrite lookup_singleton_eq.
Qed.

(** How the data store answers a metadata statement. *)
Lemma run_distinct (table : list sale) :
  let values c :=
    List.map c (sortBy (fun r r' => leb (c r) (c r'))
                  (dedupeBy (fun r r' => same (c r) (c r')) table)) in
  run table (Statements.distinctSql "region") []
    = Resolved (List.map (valueRow "region") (values region))
  /\ run table (Statements.distinctSql "product_name") []
     = Resolved (List.map (valueRow "product_name") (values product_name))
  /\ run table (Statements.distinctSql "sales_channel") []
     = Resolved (List.map (valueRow "sales_channel") (values sales_channel))
  /\ run table (Statements.distinctSql "product_category") []
     = Resolved (List.map (valueRow "product_category") (values product_category)).
Proof.
  intros values. subst values.
  destruct compile_distinct as (H0 & H1 & H2 & H3).
  repeat split; rewrite <- distinct_rows; now apply run_compiled.
Qed.

(** C8: from a data store that holds the sales table, [/api/metadata]
    answers with the distinct values of [region], [product_name],
    [sales_channel] and [product_category] in the table, under [regions],
    [products], [channels] and [categories], each list in ascending order
    with no value twice. *)
Theorem metadata_response (table : list sale) (query : jsobject) :
  (forall n, (n < 4)%nat -> connect db n = Resolved tt) ->
  (forall n sql ps, execute db n sql ps = run table sql ps) ->
  exists regions products channels categories,
    response (trace (serve db Metadata query))
      = Some (200%nat,
              {[ "regions" := JArr (List.map JStr regions);
                 "products" := JArr (List.map JStr products);
                 "channels" := JArr (List.map JStr channels);
                 "categories" := JArr (List.map JStr categories) ]})
    /\ distinctSorted (List.map region table) regions
    /\ distinctSorted (List.map product_name table) products
    /\ distinctSorted (List.map sales_channel table) channels
    /\ distinctSorted (List.map product_category table) categories.
Proof.
  intros Hc Hrun.
  destruct (run_distinct table) as (H0 & H1 & H2 & H3).
  rewrite <- (Hrun 0%nat) in H0. rewrite <- (Hrun 1%nat) in H1.
  rewrite <- (Hrun 2%nat) in H2. rewrite <- (Hrun 3%nat) in H3.
  eexists _, _, _, _.
  split; [|repeat split; apply distinct_values].
  unfold serve, handler, metadataHandler, tryCatch, mbind, M_bind, bind.
  rewrite (queryDatabase_resolved db _ _ start _ (Hc 0%nat ltac:(lia)) H0).
  repeat match goal with
  | |- context [queryDatabase db ?sql ?ps ?w] =>
      first
        [ rewrite (queryDatabase_resolved db sql ps w _ (Hc 1%nat ltac:(lia)) H1)
        | rewrite (queryDatabase_resolved db sql ps w _ (Hc 2%nat ltac:(lia)) H2)
        | rewrite (queryDatabase_resolved db sql ps w _ (Hc 3%nat ltac:(lia)) H3) ]
  end.
  unfold resJson. simpl. rewrite !column_valueRow. reflexivity.
Qed.

Lemma chartBody_chartRow (l : list (string * Q)) :
  chartBody (List.map chartRow l)
  = {[ "labels" := JArr (List.map (fun p => JStr (fst p)) l);
       "data" := JArr (List.map (fun p => Js.parseFloat (renderDecimal (snd p))) l) ]}.
Proof.
  unfold chartBody.
  assert (Hl : List.map (fun r => prop r "label") (List.map chartRow l)
               = List.map (fun p => JStr (fst p)) l).
  { rewrite List.map_map. apply List.map_ext. intros p. unfold prop, chartRow.
    now rewrite lookup_insert_eq. }
  assert (Hd : List.map (fun r => Js.parseFloat (prop r "value")) (List.map chartRow l)
               = List.map (fun p => Js.parseFloat (renderDecimal (snd p))) l).
  { rewrite List.map_map. apply List.map_ext. intros p. unfold prop, chartRow.
    rewrite lookup_insert_ne by discriminate.
    now rewrite lookup_singleton_eq. }
  now rewrite Hl, Hd.
Qed.

(** Rounding sums that are in order leaves numbers that are in order. *)
Lemma rounded_nonIncreasing (l : list (string * Q)) :
  StronglySorted byValueDesc l ->
  nonIncreasing (List.map (fun p => Binary64.round (snd p)) l).
Proof.
  intros Hs. apply StronglySorted_Sorted in Hs. unfold nonIncreasing.
  induction Hs as [|p l Hl IH Hhd]; simpl; constructor; [exact IH|].
  destruct Hhd as [|q l Hpq]; simpl; constructor.
  apply round_mono. exact Hpq.
Qed.

(** C10: from a data store that holds the sales table, [/api/products]
    answers with the top five products by revenue under the filter: the
    rows selected by the filter fall into groups by product, each with the
    sum of its revenue; the response holds the five groups of largest sum
    (all of them when there are fewer), largest first, no group left out
    having a larger sum than one that is in; and when the driver's
    rendering of each sum reads back as its nearest binary64 value, the
    values sent are those numbers, in non-increasing order. *)
Theorem products_response (table : list sale) (query : jsobject) :
  let rows := fromWhere query table in
  connect db 0 = Resolved tt ->
  (forall sql ps, execute db 0 sql ps = run table sql ps) ->
  (forall r, In r rows ->
     let s := Qred (total product_name (product_name r) rows) in
     Js.parseFloat (renderDecimal s) = ofNumber (Binary64.round s)) ->
  exists top rest : list (string * Q),
    response (trace (serve db (Chart Products) query))
      = Some (200%nat,
              {[ "labels" := JArr (List.map (fun p => JStr (fst p)) top);
                 "data" := JArr (List.map (fun p => ofNumber (Binary64.round (snd p)))
                                   top) ]})
    /\ grouped product_name (top ++ rest) rows
    /\ length top = Nat.min 5 (length (top ++ rest))
    /\ StronglySorted byValueDesc top
    /\ (forall p q, In p top -> In q rest -> (snd q <= snd p)%Q)
    /\ nonIncreasing (List.map (fun p => Binary64.round (snd p)) top).
Proof.
  intros rows Hc Hrun Hread.
  destruct (run_filtered Statements.productsSql productsPlan compile_products
              (fun sel => eq_refl) query table) as [He Hrows].
  cbn [filters productsPlan] in Hrows.
  destruct (products_rows (Filter.active query)
              (Filter.params (Filter.buildFilter query)) table)
    as (top & rest & Hres & Hgr & Hlen & Hs & Hbeyond & Hred).
  rewrite Hrows in Hgr. fold rows in Hgr.
  rewrite Hres, <- (Hrun _ _) in He.
  exists top, rest.
  split; [|split; [exact Hgr|split; [exact Hlen|split; [exact Hs|split; [exact Hbeyond|]]]]].
  - unfold serve. rewrite (handler_chart db Products), chartHandler_cases.
    cbn [chartSql]. rewrite Hc, He. cbn [response trace List.fold_left].
    rewrite chartBody_chartRow.
    assert (Hdata : List.map (fun p => Js.parseFloat (renderDecimal (snd p))) top
                    = List.map (fun p => ofNumber (Binary64.round (snd p))) top).
    { apply List.map_ext_in. intros [k s] Hin. cbn [snd].
      destruct Hgr as (_ & Hsum & _).
      destruct (Hsum k s (in_or_app _ _ _ (or_introl Hin))) as [Heq (r & Hr & <-)].
      rewrite List.Forall_forall in Hred. specialize (Hred _ Hin). cbn [snd] in Hred.
      rewrite Hred, (Qred_complete _ _ Heq). apply (Hread r Hr). }
    now rewrite Hdata.
  - now apply rounded_nonIncreasing.
Qed.

Lemma prop_monthRow (p : string * Q) :
  prop (monthRow p) "monthly_revenue" = renderDecimal (snd p).
Proof.
  unfold prop, monthRow. rewrite lookup_insert_ne by discriminate.
  now rewrite lookup_singleton_eq.
Qed.

(** C2, as the code has it: from a data store that holds the sales table,
    the growth figure that [/api/kpis] returns is the percentage change in
    monthly revenue from the first month to the last month of the filtered
    data set: the rows selected by the filter fall into months, each with
    the sum of its revenue, the months in ascending order, and the figure
    is computed in binary64 from the revenue of the first of them and of
    the last, to one decimal; it is 0 with fewer than two months or when
    the first month's revenue is not positive. *)
Theorem kpis_growth_first_to_last (table : list sale) (query : jsobject) :
  (forall n, (n < 2)%nat -> connect db n = Resolved tt) ->
  (forall n sql ps, execute db n sql ps = run table sql ps) ->
  exists (body : jsobject) (months : list (string * Q)),
    response (trace (serve db Kpis query)) = Some (200%nat, body)
    /\ grouped monthOf months (fromWhere query table)
    /\ StronglySorted byKeyAsc months
    /\ body !! "growth"
       = Some (firstToLast (List.map (fun m => renderDecimal (snd m)) months)).
Proof.
  intros Hc Hrun.
  destruct (run_filtered Statements.kpisSql kpisPlan compile_kpis
              (fun sel => eq_refl) query table) as [He0 _].
  destruct (run_filtered Statements.growthSql growthPlan compile_growth
              (fun sel => eq_refl) query table) as [He1 Hrows].
  cbn [filters growthPlan] in Hrows.
  destruct (growth_rows (Filter.active query)
              (Filter.params (Filter.buildFilter query)) table)
    as (months & Hres & Hgr & Hs).
  rewrite Hrows in Hgr.
  rewrite kpis_rows, <- (Hrun 0%nat) in He0.
  rewrite Hres, <- (Hrun 1%nat) in He1.
  eexists _, months.
  split; [|split; [exact Hgr|split; [exact Hs|]]].
  - exact (kpis_response db query _ [] _ (Hc 0%nat ltac:(lia)) He0
             (Hc 1%nat ltac:(lia)) He1).
  - rewrite kpisObject_growth, growthOf_firstToLast, List.map_map.
    rewrite (List.map_ext _ _ prop_monthRow). reflexivity.
Qed.

End SqlClaims.

(** ** The handlers on sample data *)

Import Exec Handlers.

Lemma kpiStore_totals :
  execute Samples.kpiStore 0
    (Statements.kpisSql (Filter.whereClause (Filter.buildFilter ∅)))
    (Filter.params (Filter.buildFilter ∅))
  = Resolved [Samples.kpiRow].
Proof. by_evaluation. Qed.

Lemma kpiStore_months :
  execute Samples.kpiStore 1
    (Statements.growthSql (Filter.whereClause (Filter.buildFilter ∅)))
    (Filter.params (Filter.buildFilter ∅))
  = Resolved Samples.months.
Proof. by_evaluation. Qed.

Lemma months_revenue (i : nat) (r : row) :
  Samples.months !! i = Some r ->
  Js.toNumber (rt := Decimal.runtime) (prop r "monthly_revenue")
  = match i with
    | 0%nat => Num 100
    | 1%nat => Num 150
    | _ => Num 300
    end.
Proof.
  destruct i as [|[|[|i]]]; simpl; intros H;
    [injection H as <- ..| discriminate H]; by_evaluation.
Qed.

Lemma months_growth : growthOf (rt := Decimal.runtime) Samples.months = JNum 200.
Proof. by_evaluation. Qed.

(** C2, as written, fails: with monthly revenues 100, 150 and 300 the
    figure is 200 (first month to last), which is the change between no
    month and the month right after it (those are 50 and 100). *)
Lemma kpis_growth_not_month_over_month :
  exists body g,
    response (trace (serve (rt := Decimal.runtime) Samples.kpiStore Kpis ∅))
      = Some (200%nat, body)
    /\ body !! "growth" = Some g
    /\ ~ monthOverMonth (rt := Decimal.runtime) Samples.months g.
Proof.
  exists (kpisObject (rt := Decimal.runtime) Samples.kpiRow
            (growthOf (rt := Decimal.runtime) Samples.months)), (JNum 200).
  split.
  { exact (kpis_response (rt := Decimal.runtime) Samples.kpiStore ∅ Samples.kpiRow [] Samples.months
             eq_refl kpiStore_totals eq_refl kpiStore_months). }
  split.
  { rewrite kpisObject_growth, months_growth. reflexivity. }
  intros (i & r & r' & a & b & g & Hi & HSi & Ha & Hb & Hg & Heq).
  injection Hg as <-.
  rewrite (months_revenue i r Hi) in Ha.
  rewrite (months_revenue (S i) r' HSi) in Hb.
  destruct i as [|[|i]].
  - injection Ha as <-. injection Hb as <-.
    apply Qle_bool_iff in Heq. discriminate Heq.
  - injection Ha as <-. injection Hb as <-.
    apply Qle_bool_iff in Heq. discriminate Heq.
  - discriminate HSi.
Qed.

Lemma kpis_growth_first_to_last_witness :
  exists (body : jsobject) (months : list (string * Q)),
    response (trace (serve (rt := Decimal.runtime) Samples.salesStore Kpis ∅))
      = Some (200%nat, body)
    /\ Sql.grouped (co := Binary.collation) Sql.monthOf months
         (Sql.fromWhere (co := Binary.collation) ∅ Samples.table)
    /\ StronglySorted (Sql.byKeyAsc (co := Binary.collation)) months
    /\ body !! "growth"
       = Some (firstToLast (rt := Decimal.runtime)
                 (List.map (fun m => Sql.renderDecimal (Driver := Cents.driver) (snd m))
                    months)).
Proof.
  apply (kpis_growth_first_to_last (rt := Decimal.runtime) (co := Binary.collation)
           (dr := Cents.driver) Samples.salesStore Samples.table ∅);
    [intros n _; reflexivity | intros n sql ps; reflexivity].
Defined.

(** On the sample table January comes to 80.00 and March to 103.00.  In
    exact arithmetic the change is 28.75 percent, which prints as 28.8; in
    binary64 the product is 28.749999999999996, and the handler answers
    28.7. *)
Example kpis_request_sample :
  match response (trace (serve (rt := Decimal.runtime) Samples.salesStore Kpis ∅)) with
  | Some (st, body) =>
      st = 200%nat
      /\ body !! "growth" = Some (ofNumber (Binary64.round (287 # 10)))
      /\ body !! "revenue" = Some (JNum 803)
      /\ body !! "orders" = Some (JNum 8)
      /\ body !! "customers" = Some (JNum 5)
  | None => False
  end.
Proof. vm_compute. repeat split; reflexivity. Qed.

Example growth_exact_sample :
  (Js.round1 ((103 - 80) / 80 * 100) == 288 # 10)%Q
  /\ Binary64.mul (Binary64.div (Binary64.sub (Num 103) (Num 80)) (Num 80)) (Num 100)
     = Num (8092405580431359 # 281474976710656)
  /\ Decimal.numberText (8092405580431359 # 281474976710656) = "28.749999999999996".
Proof. repeat split; by_evaluation. Qed.

Lemma kpiStore_kpis_acquired :
  acquired (trace (serve (rt := Decimal.runtime) Samples.kpiStore Kpis ∅)) = 2%nat.
Proof. by_evaluation. Qed.

(** C4, as written, fails: an unfiltered [/api/kpis] request against a
    data store that is up acquires two connections, not one. *)
Lemma kpis_request_not_oneConnection :
  ~ oneConnection (rt := Decimal.runtime) Samples.kpiStore Kpis ∅.
Proof. unfold oneConnection. rewrite kpiStore_kpis_acquired. discriminate. Qed.

(** Against a data store that is down, a request acquires none. *)
Example chart_request_store_down :
  acquired (trace (serve (rt := Decimal.runtime)
                     (unreachable (Error "connect ECONNREFUSED")) (Chart Sales) ∅))
  = 0%nat
  /\ response (trace (serve (rt := Decimal.runtime)
                        (unreachable (Error "connect ECONNREFUSED")) (Chart Sales) ∅))
     = Some (500%nat, {[ "message" := JStr failedToFetch ]}).
Proof. split; by_evaluation. Qed.

(** When the statement of totals returns no row, [/api/kpis] still runs its
    second statement, then fails on reading the totals. *)
Example kpis_request_no_totals :
  acquired (trace (serve (rt := Decimal.runtime) (available []) Kpis ∅)) = 2%nat
  /\ response (trace (serve (rt := Decimal.runtime) (available []) Kpis ∅))
     = Some (500%nat,
             {[ "message" :=
                  JStr "Cannot read properties of undefined (reading 'revenue')" ]}).
Proof. split; by_evaluation. Qed.

Lemma connections_per_request_witness :
  healthy (available [Samples.kpiRow])
  /\ acquired (trace (serve (rt := Decimal.runtime)
                        (available [Samples.kpiRow]) Metadata ∅)) = 4%nat.
Proof.
  assert (Hh : healthy (available [Samples.kpiRow])).
  { intros n. split; [reflexivity|]. intros sql ps. eexists. reflexivity. }
  split; [exact Hh|].
  destruct (connections_per_request (rt := Decimal.runtime)
              (available [Samples.kpiRow]) Metadata ∅)
    as (_ & _ & _ & _ & _ & Hup).
  exact (proj2 (Hup Hh)).
Defined.

Lemma chart_response_witness :
  exists labels data,
    response (trace (serve (rt := Decimal.runtime) (available Samples.regionRows)
                        (Chart Regions) {[ "region" := JStr "North" ]}))
      = Some (200%nat, {[ "labels" := JArr labels; "data" := JArr data ]})
    /\ length labels = 2%nat
    /\ length data = 2%nat
    /\ forall i r, Samples.regionRows !! i = Some r ->
         labels !! i = Some (prop r "label")
         /\ data !! i = Some (Js.parseFloat (rt := Decimal.runtime) (prop r "value")).
Proof.
  exact (chart_response (rt := Decimal.runtime) (available Samples.regionRows)
           Regions {[ "region" := JStr "North" ]} Samples.regionRows
           eq_refl eq_refl).
Defined.


Lemma metadata_response_witness :
  exists regions products channels categories,
    response (trace (serve (rt := Decimal.runtime) Samples.salesStore Metadata ∅))
      = Some (200%nat,
              {[ "regions" := JArr (List.map JStr regions);
                 "products" := JArr (List.map JStr products);
                 "channels" := JArr (List.map JStr channels);
                 "categories" := JArr (List.map JStr categories) ]})
    /\ Sql.distinctSorted (co := Binary.collation)
         (List.map Sql.region Samples.table) regions
    /\ Sql.distinctSorted (co := Binary.collation)
         (List.map Sql.product_name Samples.table) products
    /\ Sql.distinctSorted (co := Binary.collation)
         (List.map Sql.sales_channel Samples.table) channels
    /\ Sql.distinctSorted (co := Binary.collation)
         (List.map Sql.product_category Samples.table) categories.
Proof.
  apply (metadata_response (rt := Decimal.runtime) (co := Binary.collation)
           (dr := Cents.driver) Samples.salesStore Samples.table ∅);
    [intros n _; reflexivity | intros n sql ps; reflexivity].
Defined.

Example metadata_request_sample :
  response (trace (serve (rt := Decimal.runtime) Samples.salesStore Metadata ∅))
  = Some (200%nat,
          {[ "regions" := JArr [JStr "East"; JStr "North"; JStr "South"; JStr "West"];
             "products" := JArr [JStr "Chair"; JStr "Desk"; JStr "Lamp"; JStr "Mug";
                                 JStr "Pen"; JStr "Rug"];
             "channels" := JArr [JStr "Online"; JStr "Retail"];
             "categories" := JArr [JStr "Home"; JStr "Office"] ]}).
Proof. by_evaluation. Qed.

Lemma sample_rows :
  Sql.fromWhere (co := Binary.collation) ∅ Samples.table = Samples.table.
Proof. by_evaluation. Qed.

(** The text of each product total of the sample table reads back as the
    total's nearest binary64 value. *)
Lemma sample_totals_read (r : Sql.sale) :
  In r Samples.table ->
  Js.parseFloat (rt := Decimal.runtime)
    (Sql.renderDecimal (Driver := Cents.driver)
       (Qred (Sql.total (co := Binary.collation) Sql.product_name
                (Sql.product_name r) Samples.table)))
  = ofNumber
      (Binary64.round
         (Qred (Sql.total (co := Binary.collation) Sql.product_name
                  (Sql.product_name r) Samples.table))).
Proof.
  intros Hr. unfold Samples.table in Hr. cbn [In] in Hr.
  repeat (destruct Hr as [<-|Hr]; [by_evaluation|]). destruct Hr.
Qed.

Lemma products_response_witness :
  exists top rest : list (string * Q),
    response (trace (serve (rt := Decimal.runtime) Samples.salesStore
                        (Chart Products) ∅))
      = Some (200%nat,
              {[ "labels" := JArr (List.map (fun p => JStr (fst p)) top);
                 "data" := JArr (List.map (fun p => ofNumber (Binary64.round (snd p)))
                                   top) ]})
    /\ Sql.grouped (co := Binary.collation) Sql.product_name (top ++ rest)
         (Sql.fromWhere (co := Binary.collation) ∅ Samples.table)
    /\ length top = Nat.min 5 (length (top ++ rest))
    /\ StronglySorted Sql.byValueDesc top
    /\ (forall p q, In p top -> In q rest -> (snd q <= snd p)%Q)
    /\ Sql.nonIncreasing (List.map (fun p => Binary64.round (snd p)) top).
Proof.
  apply (products_response (rt := Decimal.runtime) (co := Binary.collation)
           (dr := Cents.driver) Samples.salesStore Samples.table ∅);
    [reflexivity | intros sql ps; reflexivity|].
  rewrite sample_rows. intros r Hr. exact (sample_totals_read r Hr).
Defined.

(** The six products of the sample table come to 499.50, 120.50, 80.00,
    75.00, 23.00 and 5.00: the last is left out. *)
Example products_request_sample :
  response (trace (serve (rt := Decimal.runtime) Samples.salesStore (Chart Products) ∅))
  = Some (200%nat,
          {[ "labels" := JArr [JStr "Desk"; JStr "Chair"; JStr "Rug"; JStr "Lamp";
                               JStr "Mug"];
             "data" := JArr [JNum (999 # 2); JNum (241 # 2); JNum 80; JNum 75;
                             JNum 23] ]}).
Proof. by_evaluation. Qed.

(** * Further properties *)

(** ** The filter builder and the statements built from it *)

Section FilterMore.
Import Filter Statements.

Lemma placeholders_whereClause (query : jsobject) :
  placeholders (whereClause (buildFilter query)) = length (params (buildFilter query)).
Proof.
  rewrite buildFilter_active. simpl.
  pose proof (fragments_one_placeholder (active query) (active_incl query)) as Hone.
  assert (Hlen : length (valuesOf query (active query))
                 = length (fragmentsOf (active query))).
  { unfold valuesOf, fragmentsOf. now rewrite !length_map. }
  destruct (active query) as [|kf sel]; [reflexivity|].
  unfold placeholders in *. rewrite countChar_append, Hlen.
  exact (placeholders_join " AND " _ eq_refl Hone).
Qed.

(** X1: the text of the clause is decided by which parameters pass their
    guard, never by their values: input reaches the data store as bound
    parameters only. *)
Theorem whereClause_ignores_values (q1 q2 : jsobject) :
  (forall k, In k (List.map fst recognized) ->
     selected (prop q1 k) = selected (prop q2 k)) ->
  whereClause (buildFilter q1) = whereClause (buildFilter q2).
Proof.
  intros H. rewrite !buildFilter_active. simpl.
  assert (Hact : active q1 = active q2).
  { unfold active, recognized. simpl.
    rewrite (H "region"), (H "product"), (H "channel"), (H "category");
      simpl; auto 10. }
  now rewrite Hact.
Qed.

Lemma whereClause_ignores_values_witness :
  whereClause (buildFilter {[ "region" := JStr "North" ]})
  = whereClause (buildFilter {[ "region" := JStr "x' OR '1'='1" ]}).
Proof.
  apply whereClause_ignores_values.
  intros k [<-|[<-|[<-|[<-|[]]]]]; vm_compute; reflexivity.
Defined.

(** X2: the parameters bound are at most four, and each passed its guard:
    ['All'], the empty string and missing values are never bound. *)
Theorem params_selected (query : jsobject) :
  (length (params (buildFilter query)) <= 4)%nat
  /\ Forall (fun v => selected v = true) (params (buildFilter query))
  /\ ~ In (JStr "All") (params (buildFilter query))
  /\ ~ In (JStr "") (params (buildFilter query))
  /\ ~ In JUndefined (params (buildFilter query)).
Proof.
  rewrite buildFilter_active. simpl.
  assert (Hall : Forall (fun v => selected v = true) (valuesOf query (active query))).
  { unfold valuesOf, active. apply Forall_map, List.Forall_forall.
    intros kf Hin. apply filter_In in Hin. apply Hin. }
  split.
  - unfold valuesOf. rewrite length_map. unfold active.
    etransitivity; [apply filter_length_le|]. reflexivity.
  - split; [exact Hall|].
    rewrite List.Forall_forall in Hall.
    repeat split; intros Hin; apply Hall in Hin; discriminate Hin.
Qed.

(** X3: every statement built from the clause has as many placeholders as
    parameters are passed with it; a metadata statement has none. *)
Theorem statement_placeholders (query : jsobject) :
  let f := buildFilter query in
  Forall (fun sql => placeholders (sql (whereClause f)) = length (params f)) templates
  /\ Forall (fun column => placeholders (distinctSql column) = 0%nat) columns.
Proof.
  intros f. split.
  - assert (Hw := placeholders_whereClause query). fold f in Hw.
    unfold templates, placeholders in *.
    repeat constructor;
      unfold kpisSql, growthSql, salesSql, productsSql, regionsSql, channelsSql,
        tiersSql, lines; cbn; rewrite ?countChar_append; cbn; lia.
  - repeat constructor.
Qed.

End FilterMore.

Section WhereMeaning.
Import Filter Sql.
Context {co : Collation}.

Lemma holds_arrays (query : jsobject) (r : sale) :
  holds (fst (arrays query)) (snd (arrays query)) r = true <->
  (selected (prop query "region") = true ->
     eqParam (region r) (prop query "region") = true)
  /\ (selected (prop query "product") = true ->
       eqParam (product_name r) (prop query "product") = true)
  /\ (selected (prop query "channel") = true ->
       eqParam (sales_channel r) (prop query "channel") = true)
  /\ (selected (prop query "category") = true ->
       eqParam (product_category r) (prop query "category") = true).
Proof.
  unfold arrays, pushIf.
  destruct (selected (prop query "region"));
    destruct (selected (prop query "product"));
    destruct (selected (prop query "channel"));
    destruct (selected (prop query "category"));
    cbn; rewrite ?andb_true_r, ?andb_true_iff; intuition congruence.
Qed.

Lemma fromWhere_holds (query : jsobject) (table : list sale) (r : sale) :
  In r (fromWhere query table) <->
  In r table /\ holds (fst (arrays query)) (snd (arrays query)) r = true.
Proof.
  unfold fromWhere. destruct (arrays query) as [filters ps]. simpl. apply filter_In.
Qed.

(** X4: the rows that a statement reads are the rows of the table for which
    each parameter that passes its guard equals its own column (region,
    product_name, sales_channel, product_category): the positional
    parameters line up with the placeholders of their fragments. *)
Theorem fromWhere_rows (query : jsobject) (table : list sale) (r : sale) :
  In r (fromWhere query table) <->
  In r table
  /\ (selected (prop query "region") = true ->
       eqParam (region r) (prop query "region") = true)
  /\ (selected (prop query "product") = true ->
       eqParam (product_name r) (prop query "product") = true)
  /\ (selected (prop query "channel") = true ->
       eqParam (sales_channel r) (prop query "channel") = true)
  /\ (selected (prop query "category") = true ->
       eqParam (product_category r) (prop query "category") = true).
Proof.
  rewrite fromWhere_holds.
  rewrite holds_arrays.
  reflexivity.
Qed.

(** X5: filters only narrow: giving a recognized parameter a value, whatever
    the others are, selects rows among those selected without it. *)
Theorem fromWhere_narrows (query : jsobject) (p : string) (v : jsval)
    (table : list sale) (r : sale) :
  In p (List.map fst recognized) ->
  In r (fromWhere (<[p := v]> query) table) ->
  In r (fromWhere (delete p query) table).
Proof.
  intros Hp. rewrite !fromWhere_holds, !holds_arrays. unfold prop.
  simpl in Hp. destruct Hp as [<-|[<-|[<-|[<-|[]]]]];
    rewrite ?lookup_delete_eq, ?lookup_insert_eq;
    rewrite ?lookup_insert_ne, ?lookup_delete_ne by discriminate;
    cbn [selected truthy andb]; intuition congruence.
Qed.

End WhereMeaning.

(** ** The query executor and the handlers *)

Ltac query_split :=
  match goal with
  | |- context [queryDatabase ?d ?sql ?ps ?w] =>
      let Hc := fresh "Hc" in
      let He := fresh "He" in
      let n := eval simpl in (attempts w) in
      destruct (connect d n) as [[]|?] eqn:Hc;
      [ destruct (execute d n sql ps) as [?|?] eqn:He;
        [ rewrite (queryDatabase_resolved d sql ps w _ Hc He)
        | rewrite (queryDatabase_execute_rejected d sql ps w _ Hc He) ]
      | rewrite (queryDatabase_connect_rejected d sql ps w _ Hc) ]
  end.

(** Every way a request can go, one goal each, with its trace laid out. *)
Ltac request_cases e :=
  destruct e as [|[]|];
  unfold serve, handler, kpisHandler, metadataHandler, salesHandler,
    productsHandler, regionsHandler, channelsHandler, tiersHandler,
    chartHandler, tryCatch, mbind, M_bind, bind;
  repeat query_split;
  try match goal with
      | |- context [?l !! 0%nat] => destruct l
      end;
  unfold kpisBody, resJson, resError, emit, throw, ret;
  cbn [fst snd trace attempts start app message lookup list_lookup].

Section ExecMore.
Variable db : engine.

(** X6: a call of [queryDatabase] returns the rows that the driver resolved
    with, on the connection it acquired; on any failure it throws the same
    error whatever the cause, and the cause's message goes to
    [console.error] only. *)
Theorem queryDatabase_outcome (sql : string) (ps : list jsval) (w : world) :
  let n := attempts w in
  let out := queryDatabase db sql ps w in
  match snd out with
  | inr rows => connect db n = Resolved tt /\ execute db n sql ps = Resolved rows
  | inl e =>
      e = Error failedToFetch
      /\ exists cause,
           (connect db n = Rejected cause
            \/ (connect db n = Resolved tt /\ execute db n sql ps = Rejected cause))
           /\ In (ConsoleError ["CRITICAL: Database Query Error:"; message cause])
                (trace (fst out))
  end.
Proof.
  intros n out. subst n out. query_split; simpl.
  - auto.
  - split; [reflexivity|]. eexists. split; [right; split; reflexivity|].
    apply in_or_app. right. simpl. auto 10.
  - split; [reflexivity|]. eexists. split; [left; reflexivity|].
    apply in_or_app. right. simpl. auto.
Qed.








End ExecMore.

Section HandlerMore.
Context {rt : JsRuntime}.
Variable db : engine.

(** X8: every request is answered exactly once, as the last thing it does,
    with status 200 or 500; 200 is sent only when every call of
    [queryDatabase] in the handler was made and succeeded. *)
Theorem one_response (e : endpoint) (query : jsobject) :
  let w := serve db e query in
  responses (trace w) = 1%nat
  /\ exists pre st body,
       trace w = (pre ++ [Responded st body])%list
       /\ (st = 200%nat \/ st = 500%nat)
       /\ (st = 200%nat -> attempts w = calls e /\ acquired (trace w) = calls e).
Proof.
  intros w. subst w. request_cases e.
  all: split; [reflexivity|].
  all: match goal with
       | |- exists pre st body, ?t = _ /\ _ =>
           exists (removelast t); cbn [removelast app]; eexists _, _;
           split; [reflexivity|]
       end.
  all: split; [auto|]; intros H; first [discriminate H | split; reflexivity].
Qed.

(** X9: a 500 response carries one of two fixed messages: the text thrown by
    [queryDatabase], or, on [/api/kpis] only, the text of the failure to
    read the totals.  What the driver reported is never sent. *)
Theorem error_response_fixed (e : endpoint) (query : jsobject) :
  match response (trace (serve db e query)) with
  | Some (st, body) =>
      st = 200%nat
      \/ (st = 500%nat
          /\ (body = {[ "message" := JStr failedToFetch ]}
              \/ (e = Kpis /\ body = {[ "message" := JStr noTotals ]})))
  | None => False
  end.
Proof.
  request_cases e; unfold noTotals;
    cbn [response List.fold_left];
    first [ left; reflexivity
          | right; split; [reflexivity|];
            first [ left; match goal with |- ?a = ?b => constr_eq a b end; reflexivity
                  | right; split; reflexivity ] ].
Qed.

(** X10: a request holds at most one connection at a time, runs statements only
    on the connection it holds, ends it before it asks for the next one or
    responds, and holds none when it is over. *)
Theorem request_disciplined (e : endpoint) (query : jsobject) :
  disciplined None (trace (serve db e query)) = true.
Proof. request_cases e; reflexivity. Qed.

(** X11: the statements a request executes are statements of its handler's
    text, with the parameters of [buildFilter] (none on [/api/metadata]):
    nothing else reaches the data store. *)
Theorem statements_executed (e : endpoint) (query : jsobject)
    (c : nat) (sql : string) (ps : list jsval) :
  In (Executed c sql ps) (trace (serve db e query)) ->
  In (sql, ps) (statementsOf e query).
Proof.
  request_cases e; intros H; cbn [In] in H;
    repeat match goal with
           | H : _ \/ _ |- _ => destruct H as [H|H]
           | H : False |- _ => destruct H
           | H : Executed _ _ _ = Executed _ _ _ |- _ => injection H as <- <- <-
           | H : _ = Executed _ _ _ |- _ => discriminate H
           end;
    unfold statementsOf; cbn [In chartSql]; auto 10.
Qed.

(** X12: a handler stops at the first call of [queryDatabase] that fails: every
    call but the last one made succeeded, on a statement of the handler. *)
Theorem calls_before_last_succeeded (e : endpoint) (query : jsobject) (n : nat) :
  (S n < attempts (serve db e query))%nat ->
  connect db n = Resolved tt
  /\ exists sql ps rows,
       In (sql, ps) (statementsOf e query)
       /\ execute db n sql ps = Resolved rows.
Proof.
  request_cases e; intros Hn;
    repeat (destruct n as [|n];
            [ split; [assumption|];
              eexists _, _, _; split; cycle 1;
              [eassumption | unfold statementsOf; cbn [In chartSql]; auto 10]
            | ]);
    lia.
Qed.

(** X13: a request is served from the recognized parameters alone: query objects
    that agree on them are served alike, statement for statement. *)
Theorem serve_agree (e : endpoint) (q1 q2 : jsobject) :
  Filter.agree q1 q2 -> serve db e q1 = serve db e q2.
Proof.
  intros Hag.
  assert (Hf : Filter.buildFilter q1 = Filter.buildFilter q2).
  { unfold Filter.buildFilter. now rewrite (arrays_agree q1 q2 Hag). }
  destruct e as [|[]|];
    unfold serve, handler, kpisHandler, metadataHandler, salesHandler,
      productsHandler, regionsHandler, channelsHandler, tiersHandler, chartHandler;
    rewrite ?Hf; reflexivity.
Qed.

(** X14: on [/api/kpis], a revenue total that is null, zero or missing is sent
    as 0, and the columns of the totals row other than the four computed
    ones are sent as they are. *)
Theorem kpis_revenue_default (query : jsobject) (k : row) (rest rows : list row) :
  let f := Filter.buildFilter query in
  connect db 0 = Resolved tt ->
  execute db 0 (Statements.kpisSql (Filter.whereClause f)) (Filter.params f)
    = Resolved (k :: rest) ->
  connect db 1 = Resolved tt ->
  execute db 1 (Statements.growthSql (Filter.whereClause f)) (Filter.params f)
    = Resolved rows ->
  exists body,
    response (trace (serve db Kpis query)) = Some (200%nat, body)
    /\ (truthy (prop k "revenue") = false -> body !! "revenue" = Some (JNum 0))
    /\ Forall (fun key => is_Some (body !! key))
         ["growth"; "revenue"; "customers"; "orders"]
    /\ forall key, ~ In key ["orders"; "customers"; "revenue"; "growth"] ->
         body !! key = k !! key.
Proof.
  intros f Hc0 He0 Hc1 He1.
  exists (kpisObject k (growthOf rows)).
  split; [exact (kpis_response db query k rest rows Hc0 He0 Hc1 He1)|].
  unfold kpisObject. split; [|split].
  - intros Hfalsy.
    rewrite lookup_insert_ne, lookup_insert_ne, lookup_insert_eq by discriminate.
    unfold Js.orLit. now rewrite Hfalsy.
  - repeat constructor;
      rewrite ?lookup_insert_eq;
      repeat (rewrite lookup_insert_ne by discriminate; rewrite ?lookup_insert_eq);
      eexists; reflexivity.
  - intros key Hkey. simpl in Hkey.
    rewrite !lookup_insert_ne; [reflexivity|..]; intros <-; tauto.
Qed.

Lemma round1_near (x : Q) :
  (exists n : Z, Js.round1 x == n # 10)%Q
  /\ (x - (1 # 20) <= Js.round1 x)%Q
  /\ (Js.round1 x <= x + (1 # 20))%Q.
Proof.
  unfold Js.round1.
  destruct (Qle_bool 0 x).
  - pose proof (Qfloor_le (x * 10 + (1 # 2))) as Hle.
    pose proof (Qlt_floor (x * 10 + (1 # 2))) as Hlt.
    set (m := Qfloor (x * 10 + (1 # 2))) in *.
    rewrite inject_Z_plus in Hlt. change (inject_Z 1) with 1%Q in Hlt.
    pose proof (Qred_correct (inject_Z m / 10)) as Hred.
    assert (Hm : (inject_Z m / 10 == m # 10)%Q).
    { unfold Qdiv, Qmult, Qinv, inject_Z, Qeq. simpl. lia. }
    split; [exists m; rewrite Hred; exact Hm|].
    rewrite Hred. unfold Qdiv. change (/ 10)%Q with (1 # 10)%Q. split; lra.
  - pose proof (Qfloor_le (- x * 10 + (1 # 2))) as Hle.
    pose proof (Qlt_floor (- x * 10 + (1 # 2))) as Hlt.
    set (m := Qfloor (- x * 10 + (1 # 2))) in *.
    rewrite inject_Z_plus in Hlt. change (inject_Z 1) with 1%Q in Hlt.
    pose proof (Qred_correct (- (inject_Z m / 10))) as Hred.
    assert (Hm : (- (inject_Z m / 10) == (- m) # 10)%Q).
    { unfold Qdiv, Qmult, Qinv, Qopp, inject_Z, Qeq. simpl. lia. }
    split; [exists (- m)%Z; rewrite Hred; exact Hm|].
    rewrite Hred. unfold Qdiv. change (/ 10)%Q with (1 # 10)%Q. split; lra.
Qed.

(** X15: the growth figure is the binary64 percentage change sent with one
    decimal: a whole number of tenths within 0.05 of it, read back as the
    nearest binary64 value; a change that is infinite, or at least 10^21 in
    magnitude, is sent as it is. *)
Theorem growth_one_decimal (rows : list row) (r0 rl : row) (a b : Q) :
  (2 <= length rows)%nat ->
  rows !! 0%nat = Some r0 ->
  rows !! (length rows - 1)%nat = Some rl ->
  Js.toNumber (prop r0 "monthly_revenue") = Num a ->
  Js.toNumber (prop rl "monthly_revenue") = Num b ->
  (0 < a)%Q ->
  match percentChange (Num a) (Num b) with
  | Num c =>
      if Qle_bool (10 ^ 21) (Qabs c) then growthOf rows = JNum c
      else exists (t : Q) (n : Z),
             growthOf rows = ofNumber (Binary64.round t)
             /\ (t == n # 10)%Q
             /\ (c - (1 # 20) <= t)%Q /\ (t <= c + (1 # 20))%Q
  | change => growthOf rows = ofNumber change
  end.
Proof.
  intros Hlen H0 Hl Ha Hb Hpos.
  rewrite (growthOf_first_last rows r0 rl Hlen H0 Hl), Ha, Hb.
  assert (Hgt : Binary64.gt (Num a) (Num 0) = true).
  { cbn [Binary64.gt]. destruct (Qle_bool a 0) eqn:E; [|reflexivity].
    apply Qle_bool_iff in E. exfalso. lra. }
  rewrite Hgt.
  destruct (percentChange (Num a) (Num b)) as [| |c]; [reflexivity..|].
  cbn [Js.parseFloatToFixed1].
  destruct (Qle_bool (10 ^ 21) (Qabs c)); [reflexivity|].
  destruct (round1_near c) as ([n Hn] & Hlo & Hhi).
  exists (Js.round1 c), n. auto.
Qed.

Lemma round1_sign (x : Q) :
  ((0 <= x)%Q -> (0 <= Js.round1 x)%Q) /\ ((x <= 0)%Q -> (Js.round1 x <= 0)%Q).
Proof.
  unfold Js.round1. destruct (Qle_bool 0 x) eqn:E.
  - apply Qle_bool_iff in E.
    assert (Hm : (0 <= Qfloor (x * 10 + (1 # 2)))%Z).
    { change 0%Z with (Qfloor 0). apply Qfloor_resp_le. lra. }
    split; intros Hx; rewrite Qred_correct.
    + unfold Qdiv. change (/ 10)%Q with (1 # 10)%Q.
      assert (0 <= inject_Z (Qfloor (x * 10 + (1 # 2))))%Q
        by (change 0%Q with (inject_Z 0); now rewrite <- Zle_Qle).
      lra.
    + assert (Hz : (x == 0)%Q) by lra.
      assert (Hf : Qfloor (x * 10 + (1 # 2)) = 0%Z).
      { rewrite (Qfloor_comp (x * 10 + (1 # 2)) (1 # 2)); [reflexivity|]. lra. }
      rewrite Hf. unfold Qle. simpl. lia.
  - assert (Hneg : (x < 0)%Q).
    { apply Qnot_le_lt. intros H. apply Qle_bool_iff in H. congruence. }
    assert (Hm : (0 <= Qfloor (- x * 10 + (1 # 2)))%Z).
    { change 0%Z with (Qfloor 0). apply Qfloor_resp_le. lra. }
    assert (0 <= inject_Z (Qfloor (- x * 10 + (1 # 2))))%Q
      by (change 0%Q with (inject_Z 0); now rewrite <- Zle_Qle).
    split; intros Hx; rewrite Qred_correct; [lra|].
    unfold Qdiv. change (/ 10)%Q with (1 # 10)%Q. lra.
Qed.

(** The sign of the figure that [parseFloat(x.toFixed(1))] gives. *)
Lemma parseFloatToFixed1_sign (x : number) :
  (Binary64.le (Num 0) x ->
     exists g, Js.parseFloatToFixed1 x = ofNumber g /\ Binary64.le (Num 0) g)
  /\ (Binary64.le x (Num 0) ->
        exists g, Js.parseFloatToFixed1 x = ofNumber g /\ Binary64.le g (Num 0)).
Proof.
  destruct x as [|s|q]; cbn [Js.parseFloatToFixed1].
  - split; intros [].
  - split; intros H; exists (Inf s); auto.
  - destruct (round1_sign q) as [Hnn Hnp].
    destruct (Qle_bool (10 ^ 21) (Qabs q)).
    + split; intros H; exists (Num q); auto.
    + split; intros H; eexists; (split; [reflexivity|]).
      * apply round_nonneg, Hnn, H.
      * apply round_nonpos, Hnp, H.
Qed.

(** X16: the growth figure has the sign of the change: it is a number, not
    negative when the last month's revenue is at least the first month's,
    not positive when it is at most the first month's, so 0 when they are
    equal; it is an infinity of that sign when the arithmetic overflows. *)
Theorem growth_sign (rows : list row) (r0 rl : row) (a b : Q) :
  (2 <= length rows)%nat ->
  rows !! 0%nat = Some r0 ->
  rows !! (length rows - 1)%nat = Some rl ->
  Js.toNumber (prop r0 "monthly_revenue") = Num a ->
  Js.toNumber (prop rl "monthly_revenue") = Num b ->
  (0 < a)%Q ->
  exists g : number,
    growthOf rows = ofNumber g
    /\ ((a <= b)%Q -> Binary64.le (Num 0) g)
    /\ ((b <= a)%Q -> Binary64.le g (Num 0))
    /\ ((a == b)%Q -> g = Num 0).
Proof.
  intros Hlen H0 Hl Ha Hb Hpos.
  rewrite (growthOf_first_last rows r0 rl Hlen H0 Hl), Ha, Hb.
  assert (Hgt : Binary64.gt (Num a) (Num 0) = true).
  { cbn [Binary64.gt]. destruct (Qle_bool a 0) eqn:E; [|reflexivity].
    apply Qle_bool_iff in E. exfalso. lra. }
  rewrite Hgt. unfold percentChange.
  set (change := Binary64.mul (Binary64.div (Binary64.sub (Num b) (Num a)) (Num a))
                   (Num 100)).
  assert (Hup : (a <= b)%Q -> Binary64.le (Num 0) change).
  { intros H. apply mul_nonneg; [reflexivity|].
    apply div_nonneg; [exact Hpos|]. now apply sub_nonneg. }
  assert (Hdown : (b <= a)%Q -> Binary64.le change (Num 0)).
  { intros H. apply mul_nonpos; [reflexivity|].
    apply div_nonpos; [exact Hpos|]. now apply sub_nonpos. }
  destruct (parseFloatToFixed1_sign change) as [Hnn Hnp].
  destruct (Qlt_le_dec b a) as [Hlt|Hle].
  - destruct (Hnp (Hdown (Qlt_le_weak _ _ Hlt))) as (g & Hg & Hsign).
    exists g. split; [exact Hg|]. split; [|split]; intros H; try exact Hsign;
      exfalso; lra.
  - destruct (Hnn (Hup Hle)) as (g & Hg & Hsign).
    exists g. split; [exact Hg|]. split; [auto|]. 
    assert (Hzero : (a == b)%Q -> g = Num 0).
    { intros Heq. subst change.
      assert (Hsub : Binary64.sub (Num b) (Num a) = Num 0).
      { cbn [Binary64.sub]. unfold Binary64.round.
        destruct (Qcompare_spec (b - a) 0) as [H|H|H]; [reflexivity | exfalso; lra..]. }
      rewrite Hsub in Hg. cbn [Binary64.div] in Hg.
      rewrite (Qeq_bool_pos a Hpos) in Hg.
      apply (f_equal Js.toNumber) in Hg. revert Hg.
      vm_compute. destruct g; intros Hg; congruence. }
    split; [|exact Hzero].
    intros Hba. rewrite (Hzero ltac:(lra)). apply Qle_refl.
Qed.

End HandlerMore.

(** ** The order of months *)

Section MonthOrder.
Import Sql.

Lemma compare_append (a b s t : string) :
  String.length a = String.length b ->
  String.compare (a +:+ s) (b +:+ t)
  = match String.compare a b with
    | Eq => String.compare s t
    | c => c
    end.
Proof.
  revert b. induction a as [|x a IH]; intros [|y b] Hl; try discriminate Hl.
  - reflexivity.
  - injection Hl as Hl.
    change (String.compare (String x (a +:+ s)) (String y (b +:+ t))
            = match String.compare (String x a) (String y b) with
              | Eq => String.compare s t
              | c => c
              end).
    simpl. destruct (Ascii.compare x y); auto.
Qed.

(** Counting up in decimal, least digit first. *)
Lemma little_succ (n : nat) (acc : Decimal.uint) :
  Nat.to_little_uint n (Decimal.Little.succ acc)
  = Decimal.Little.succ (Nat.to_little_uint n acc).
Proof.
  revert acc. induction n as [|n IH]; intros acc; [reflexivity|].
  simpl. now rewrite IH.
Qed.

Lemma little_iter (n : nat) :
  Nat.to_little_uint n Decimal.zero = Nat.iter n Decimal.Little.succ Decimal.zero.
Proof.
  induction n as [|n IH]; [reflexivity|].
  change (Nat.to_little_uint (S n) Decimal.zero)
    with (Nat.to_little_uint n (Decimal.Little.succ Decimal.zero)).
  rewrite little_succ, IH. reflexivity.
Qed.

(** A test that holds along an iteration holds at each of its steps. *)
Lemma iter_checked {A : Type} (check : A -> bool) (next : A -> A) (n : nat) (a : A) :
  fst (Nat.iter n (fun s => (fst s && check (snd s), next (snd s))) (true, a)) = true ->
  forall k, (k < n)%nat -> check (Nat.iter k next a) = true.
Proof.
  set (step := fun s : bool * A => (fst s && check (snd s), next (snd s))).
  assert (Hsnd : forall m, snd (Nat.iter m step (true, a)) = Nat.iter m next a).
  { induction m as [|m IH]; [reflexivity|]. simpl. now rewrite IH. }
  induction n as [|n IH]; intros H k Hk; [lia|].
  simpl in H. apply andb_prop in H. destruct H as [H1 H2].
  destruct (Nat.eq_dec k n) as [->|Hne].
  - now rewrite <- Hsnd.
  - apply IH; [exact H1 | lia].
Qed.

(** Each year up to 9999 is written in four digits, and is before the next
    year in the order of text. *)
Lemma years_counted :
  fst (Nat.iter (10 ^ 4 - 1)
         (fun s =>
            (fst s
             && (fun d =>
                   let text d :=
                     let t := NilZero.string_of_uint (Decimal.rev d) in
                     zeros (4 - String.length t) +:+ t in
                   (String.length (text d) =? 4)%nat
                   && (String.length (text (Decimal.Little.succ d)) =? 4)%nat
                   && match String.compare (text d) (text (Decimal.Little.succ d)) with
                      | Lt => true
                      | _ => false
                      end) (snd s),
             Decimal.Little.succ (snd s)))
         (true, Decimal.zero)) = true.
Proof. by_evaluation. Qed.

Lemma year_next (y : nat) :
  (y < 10 ^ 4 - 1)%nat ->
  String.length (padded 4 y) = 4%nat
  /\ String.length (padded 4 (S y)) = 4%nat
  /\ String.compare (padded 4 y) (padded 4 (S y)) = Lt.
Proof.
  intros Hy. pose proof (iter_checked _ _ _ _ years_counted y Hy) as H.
  cbv beta zeta in H.
  apply andb_prop in H. destruct H as [H Hc].
  apply andb_prop in H. destruct H as [Hl Hl'].
  apply Nat.eqb_eq in Hl, Hl'.
  unfold padded, decimal, Nat.to_uint.
  change (Nat.to_little_uint (S y) Decimal.zero)
    with (Nat.to_little_uint y (Decimal.Little.succ Decimal.zero)).
  rewrite little_succ, little_iter.
  repeat split; [exact Hl | exact Hl' |].
  destruct (String.compare _ _); try discriminate Hc. reflexivity.
Qed.

Lemma year_width (y : nat) : (y < 10 ^ 4)%nat -> String.length (padded 4 y) = 4%nat.
Proof.
  intros Hy. destruct y as [|y].
  - reflexivity.
  - apply (year_next y). lia.
Qed.

Lemma years_compare (y y' : nat) :
  (y < 10 ^ 4)%nat -> (y' < 10 ^ 4)%nat ->
  String.compare (padded 4 y) (padded 4 y') = Nat.compare y y'.
Proof.
  assert (Hlt : forall a b, (a < b)%nat -> (b < 10 ^ 4)%nat ->
                            String.compare (padded 4 a) (padded 4 b) = Lt).
  { intros a b Hab. induction Hab as [|b Hab IH]; intros Hb.
    - apply (year_next a). lia.
    - apply String_as_OT.cmp_lt.
      apply String_as_OT.lt_trans with (padded 4 b).
      + apply String_as_OT.cmp_lt, IH. lia.
      + apply String_as_OT.cmp_lt, (year_next b). lia. }
  intros Hy Hy'. destruct (Nat.compare_spec y y') as [->|H|H].
  - apply String_as_OT.cmp_eq. reflexivity.
  - now apply Hlt.
  - rewrite String.compare_antisym, (Hlt y' y H Hy). reflexivity.
Qed.

Lemma months_compare (m m' : calendarMonth) :
  String.compare (padded 2 (monthNumber m)) (padded 2 (monthNumber m'))
  = Nat.compare (monthNumber m) (monthNumber m').
Proof. destruct m, m'; reflexivity. Qed.

Lemma compare_same_head (c : ascii) (a b : string) :
  String.compare (String c a) (String c b) = String.compare a b.
Proof.
  simpl. assert (H : Ascii.compare c c = Eq) by (unfold Ascii.compare; apply N.compare_refl).
  now rewrite H.
Qed.

Lemma append_empty (a : string) : a +:+ "" = a.
Proof.
  induction a as [|c a IH]; [reflexivity|].
  change (String c (a +:+ "") = String c a). now rewrite IH.
Qed.

Lemma before_compare (a b : string) :
  before (co := Binary.collation) a b <-> String.compare a b = Lt.
Proof.
  unfold before. cbn [leb Binary.collation]. unfold String.leb.
  rewrite (String.compare_antisym a b).
  destruct (String.compare b a); simpl; intuition discriminate.
Qed.

(** X17: in the order of text, byte by byte, the month of a sale as the
    growth statement writes it, [DATE_FORMAT(order_date, '%Y-%m')], comes
    before that of another sale exactly when it is an earlier month of the
    calendar, for years of at most four digits: ascending [month_year] is
    chronological order. *)
Theorem month_order_chronological (r r' : sale) :
  let d := order_date r in
  let d' := order_date r' in
  (year d < 10 ^ 4)%nat -> (year d' < 10 ^ 4)%nat ->
  (before (co := Binary.collation) (monthOf r) (monthOf r')
   <-> (year d < year d')%nat
       \/ (year d = year d'
           /\ (monthNumber (month d) < monthNumber (month d'))%nat)).
Proof.
  intros d d' Hy Hy'. rewrite before_compare.
  assert (Hm : forall r, monthOf r
                 = padded 4 (year (order_date r))
                   +:+ String "-" (padded 2 (monthNumber (month (order_date r))) +:+ ""))
    by reflexivity.
  rewrite !Hm. fold d d'.
  rewrite compare_append by (rewrite !year_width; auto).
  rewrite (years_compare _ _ Hy Hy').
  rewrite compare_same_head, !append_empty, months_compare.
  destruct (Nat.compare_spec (year d) (year d')) as [He|Hlt|Hgt];
    [destruct (Nat.compare_spec (monthNumber (month d)) (monthNumber (month d')))|..];
    split; intros Hc; try discriminate Hc; try reflexivity; try lia.
Qed.

End MonthOrder.

(** ** The totals of the KPI endpoint *)

Section KpiTotals.
Import Exec Handlers Sql Relational.
Context {rt : JsRuntime} {co : Collation} {dr : Driver}.
Variable db : engine.

(** X18: from a data store that holds the sales table, the totals that
    [/api/kpis] answers with are taken over the rows the filter selects:
    [revenue] is read from the sum of their revenue, and is 0 when no row
    is selected (the sum is then NULL); [orders] is read from the number of
    the rows, [customers] from the number of distinct customers among
    them. *)
Theorem kpis_totals (table : list sale) (query : jsobject) :
  let rows := fromWhere query table in
  (forall n, (n < 2)%nat -> connect db n = Resolved tt) ->
  (forall n sql ps, execute db n sql ps = run table sql ps) ->
  exists body : jsobject,
    response (trace (serve db Kpis query)) = Some (200%nat, body)
    /\ body !! "revenue"
       = Some (match rows with
               | [] => JNum 0
               | _ :: _ =>
                   Js.parseFloat (Js.orLit (renderDecimal (sumOf revenue rows)) 0)
               end)
    /\ body !! "orders"
       = Some (parseInt
                 (Js.orLit (ofNumber (Binary64.round (inject_Z (Z.of_nat (length rows)))))
                    0))
    /\ body !! "customers"
       = Some (parseInt
                 (Js.orLit
                    (ofNumber
                       (Binary64.round
                          (inject_Z
                             (Z.of_nat
                                (length (dedupeBy same (List.map customer_id rows)))))))
                    0)).
Proof.
  intros rows Hc Hrun.
  destruct (run_filtered Statements.kpisSql kpisPlan compile_kpis
              (fun sel => eq_refl) query table) as [He0 Hrows].
  destruct (run_filtered Statements.growthSql growthPlan compile_growth
              (fun sel => eq_refl) query table) as [He1 _].
  cbn [filters kpisPlan] in Hrows.
  rewrite kpis_rows, Hrows, <- (Hrun 0%nat) in He0. fold rows in He0.
  rewrite <- (Hrun 1%nat) in He1.
  eexists. split.
  - exact (kpis_response db query _ [] _ (Hc 0%nat ltac:(lia)) He0
             (Hc 1%nat ltac:(lia)) He1).
  - unfold kpisObject, resultRow.
    cbn [outputs kpisPlan List.map fst snd].
    set (kpis := list_to_map _).
    assert (Hr : prop kpis "revenue" = render (summed revenue rows)).
    { unfold prop, kpis, list_to_map. cbn [foldr uncurry].
      now rewrite lookup_insert_eq. }
    assert (Ho : prop kpis "orders" = render (counted rows)).
    { unfold prop, kpis, list_to_map. cbn [foldr uncurry].
      rewrite lookup_insert_ne by discriminate. now rewrite lookup_insert_eq. }
    assert (Hu : prop kpis "customers" = render (countedDistinct customer_id rows)).
    { unfold prop, kpis, list_to_map. cbn [foldr uncurry].
      rewrite !lookup_insert_ne by discriminate. now rewrite lookup_insert_eq. }
    rewrite Hr, Ho, Hu. clearbody kpis.
    repeat split.
    + rewrite !lookup_insert_ne by discriminate. rewrite lookup_insert_eq.
      destruct rows; reflexivity.
    + now rewrite lookup_insert_eq.
    + rewrite lookup_insert_ne by discriminate. now rewrite lookup_insert_eq.
Qed.

End KpiTotals.

(** ** The further properties on sample data *)

Lemma statements_executed_witness :
  In (Statements.salesSql (Filter.whereClause (Filter.buildFilter ∅)),
      Filter.params (Filter.buildFilter ∅))
     (statementsOf (Chart Sales) ∅).
Proof.
  apply (statements_executed (rt := Decimal.runtime) (available []) (Chart Sales) ∅ 0).
  unfold serve. rewrite (handler_chart (rt := Decimal.runtime) (available []) Sales).
  rewrite chartHandler_cases.
  cbn [connect execute available fst trace chartSql In]. auto.
Defined.

Lemma kpiStore_kpis_attempts :
  attempts (serve (rt := Decimal.runtime) Samples.kpiStore Kpis ∅) = 2%nat.
Proof. by_evaluation. Qed.

Lemma calls_before_last_succeeded_witness :
  connect Samples.kpiStore 0 = Resolved tt
  /\ exists sql ps rows,
       In (sql, ps) (statementsOf Kpis ∅)
       /\ execute Samples.kpiStore 0 sql ps = Resolved rows.
Proof.
  apply (calls_before_last_succeeded (rt := Decimal.runtime) Samples.kpiStore Kpis ∅ 0).
  rewrite kpiStore_kpis_attempts. lia.
Defined.

Lemma serve_agree_witness :
  serve (rt := Decimal.runtime) Samples.kpiStore (Chart Tiers)
    {[ "region" := JStr "North"; "tier" := JStr "Gold" ]}
  = serve (rt := Decimal.runtime) Samples.kpiStore (Chart Tiers)
      {[ "region" := JStr "North" ]}.
Proof.
  apply serve_agree.
  intros k [<-|[<-|[<-|[<-|[]]]]]; by_evaluation.
Defined.

Lemma emptyTotals_falsy : truthy (prop Samples.emptyTotals "revenue") = false.
Proof. by_evaluation. Qed.

Lemma kpis_revenue_default_witness :
  exists body,
    response (trace (serve (rt := Decimal.runtime)
                        (available [Samples.emptyTotals]) Kpis ∅))
      = Some (200%nat, body)
    /\ body !! "revenue" = Some (JNum 0).
Proof.
  destruct (kpis_revenue_default (rt := Decimal.runtime)
              (available [Samples.emptyTotals]) ∅ Samples.emptyTotals []
              [Samples.emptyTotals] eq_refl eq_refl eq_refl eq_refl)
    as (body & Hresp & Hrev & _).
  exists body. split; [exact Hresp | exact (Hrev emptyTotals_falsy)].
Defined.

Lemma growth_one_decimal_witness :
  exists (t : Q) (n : Z),
    growthOf (rt := Decimal.runtime) Samples.months = ofNumber (Binary64.round t)
    /\ (t == n # 10)%Q
    /\ (200 - (1 # 20) <= t)%Q /\ (t <= 200 + (1 # 20))%Q.
Proof.
  exact (growth_one_decimal (rt := Decimal.runtime) Samples.months
           (Samples.monthRow "2023-01" "100.00") (Samples.monthRow "2023-03" "300.00")
           100 300 ltac:(simpl; lia) eq_refl eq_refl
           (months_revenue 0 _ eq_refl) (months_revenue 2 _ eq_refl) eq_refl).
Defined.

Lemma growth_sign_witness :
  exists g : number,
    growthOf (rt := Decimal.runtime) Samples.months = ofNumber g
    /\ Binary64.le (Num 0) g.
Proof.
  destruct (growth_sign (rt := Decimal.runtime) Samples.months
              (Samples.monthRow "2023-01" "100.00")
              (Samples.monthRow "2023-03" "300.00")
              100 300 ltac:(simpl; lia) eq_refl eq_refl
              (months_revenue 0 _ eq_refl) (months_revenue 2 _ eq_refl) eq_refl)
    as (g & Hg & Hup & _).
  exists g. split; [exact Hg|]. apply Hup. discriminate.
Defined.

Lemma fromWhere_narrows_witness :
  In (Samples.sale "North" "Desk" "Retail" "Office" 250 "Platinum" "A2" "C2" Sql.Feb 2)
     (Sql.fromWhere (co := Binary.collation)
        (delete "region" {[ "category" := JStr "Office" ]}) Samples.table).
Proof.
  apply (fromWhere_narrows (co := Binary.collation)
           {[ "category" := JStr "Office" ]} "region" (JStr "North")).
  - simpl. auto.
  - apply (proj2 (fromWhere_holds (co := Binary.collation) _ _ _)).
    split; [simpl; auto|]. by_evaluation.
Defined.

Lemma month_order_chronological_witness :
  Sql.before (co := Binary.collation)
    (Sql.monthOf
       {| Sql.region := "West"; Sql.product_name := "Rug"; Sql.sales_channel := "Retail";
          Sql.product_category := "Home"; Sql.revenue := 80; Sql.customer_tier := "Gold";
          Sql.order_id := "A0"; Sql.customer_id := "C4";
          Sql.order_date := {| Sql.year := 2022; Sql.month := Sql.Dec; Sql.day := 30 |} |})
    (Sql.monthOf
       (Samples.sale "South" "Lamp" "Online" "Home" (4025 # 100) "Gold" "A1" "C1" Sql.Jan 9)).
Proof.
  apply month_order_chronological.
  - apply Nat.ltb_lt. vm_compute. reflexivity.
  - apply Nat.ltb_lt. vm_compute. reflexivity.
  - left. apply Nat.ltb_lt. vm_compute. reflexivity.
Defined.

Lemma kpis_totals_witness :
  exists body : jsobject,
    response (trace (serve (rt := Decimal.runtime) Samples.salesStore Kpis ∅))
      = Some (200%nat, body)
    /\ body !! "revenue"
       = Some (match Sql.fromWhere (co := Binary.collation) ∅ Samples.table with
               | [] => JNum 0
               | _ :: _ =>
                   Js.parseFloat (rt := Decimal.runtime)
                     (Js.orLit
                        (Sql.renderDecimal (Driver := Cents.driver)
                           (Sql.sumOf Sql.revenue
                              (Sql.fromWhere (co := Binary.collation) ∅ Samples.table)))
                        0)
               end)
    /\ body !! "orders"
       = Some (parseInt (JsRuntime := Decimal.runtime)
                 (Js.orLit
                    (ofNumber
                       (Binary64.round
                          (inject_Z
                             (Z.of_nat
                                (length (Sql.fromWhere (co := Binary.collation) ∅
                                           Samples.table))))))
                    0))
    /\ body !! "customers"
       = Some (parseInt (JsRuntime := Decimal.runtime)
                 (Js.orLit
                    (ofNumber
                       (Binary64.round
                          (inject_Z
                             (Z.of_nat
                                (length
                                   (Relational.dedupeBy (Sql.same (co := Binary.collation))
                                      (List.map Sql.customer_id
                                         (Sql.fromWhere (co := Binary.collation) ∅
                                            Samples.table))))))))
                    0)).
Proof.
  apply (kpis_totals (rt := Decimal.runtime) (co := Binary.collation)
           (dr := Cents.driver) Samples.salesStore Samples.table ∅);
    [intros n _; reflexivity | intros n sql ps; reflexivity].
Defined.
